(** * libmatfile: the tape buffer and the MAT-file element parser

    A shallow embedding of [src/tape.c] and [src/matfile.c].

    Conventions of the embedding.
    - The target is the one the code is written for: little-endian, LP64
      ([size_t] is 64 bits wide, [int] and [uInt] are 32 bits wide,
      [sizeof(matfile_data_element_small_t) = 8],
      [sizeof(matfile_data_element_large_t) = 24]).
    - [size_t], [uint32_t] and [int] values are integers of [Z]; every
      arithmetic operation of the source on them is followed by the
      wrap-around of its type.  The product of the dimensions is computed by
      the source in an [int]; it is modelled as wrapping in two's complement.
    - A heap block is the list of its cells, a cell being an initialised byte
      or an uninitialised one.  A pointer into a block is the block together
      with an offset, or the suffix of the block that starts at the pointer.
    - A call has one of three outcomes: it returns a value ([Ok]), it reports
      failure to its caller by [NULL] or a non-zero status ([Null]), or it
      reads or writes outside a block, reads an uninitialised cell or uses a
      freed object ([Fault]).
    - [malloc], [realloc] and [tape_create] are taken to succeed and to hand
      out a block of the requested size.  The one exception is the call
      [realloc(p, 0)] that [tape_purge] makes on a tape nothing is reserved
      of: as in glibc, it frees [p] and returns a null pointer.  ([tape_push]
      reallocates to zero bytes only on a tape created with a capacity of
      zero, which no function of [matfile.c] creates; there the model hands
      out an empty block.)
    - zlib is an interface ([zlib_codec]); the parser is a function of it. *)

From Stdlib Require Import ZArith List Lia Bool.
From Stdlib Require Import Strings.Byte Strings.String.
Import ListNotations.
Local Open Scope Z_scope.

(** ** Machine integers *)

Definition wrap (w x : Z) : Z := x mod 2 ^ w.

(** conversion to [size_t] *)
Definition size_t (x : Z) : Z := wrap 64 x.

(** conversion to [uInt] / [uint32_t] *)
Definition uint32_t (x : Z) : Z := wrap 32 x.

(** conversion to [int]: two's complement on 32 bits *)
Definition int32_t (x : Z) : Z := wrap 32 (x + 2 ^ 31) - 2 ^ 31.

Definition byte_val (b : byte) : Z := Z.of_N (Byte.to_N b).

(** little-endian value of a run of bytes *)
Fixpoint le_bytes (l : list byte) : Z :=
  match l with
  | [] => 0
  | b :: t => byte_val b + 256 * le_bytes t
  end.

Definition zlength {A : Type} (l : list A) : Z := Z.of_nat (List.length l).

(** ** Outcomes *)

Inductive result (A : Type) : Type :=
| Ok (a : A)
| Null
| Fault.

Arguments Ok {A} a.
Arguments Null {A}.
Arguments Fault {A}.

Definition bind {A B : Type} (r : result A) (k : A -> result B) : result B :=
  match r with
  | Ok a => k a
  | Null => Null
  | Fault => Fault
  end.

Notation "x <- e ;; k" := (bind e (fun x => k))
  (at level 61, e at next level, right associativity).

(** ** Heap blocks *)

Definition cell : Type := option byte.
Definition block : Type := list cell.

Definition malloc (n : Z) : block := repeat None (Z.to_nat n).

Definition realloc (b : block) (n : Z) : block :=
  firstn (Z.to_nat n) b ++ repeat None (Z.to_nat n - List.length b).

(** a buffer whose bytes are all initialised *)
Definition bytes_block (l : list byte) : block := map Some l.

Fixpoint initialised (l : list cell) : option (list byte) :=
  match l with
  | [] => Some []
  | None :: _ => None
  | Some b :: t =>
      match initialised t with
      | Some r => Some (b :: r)
      | None => None
      end
  end.

Definition in_bounds (m : block) (off n : Z) : bool :=
  (0 <=? off) && (0 <=? n) && (off + n <=? zlength m).

(** the [n] cells at offset [off] *)
Definition cells (m : block) (off n : Z) : result (list cell) :=
  if in_bounds m off n
  then Ok (firstn (Z.to_nat n) (skipn (Z.to_nat off) m))
  else Fault.

(** reading [n] bytes at offset [off] *)
Definition load (m : block) (off n : Z) : result (list byte) :=
  c <- cells m off n ;;
  match initialised c with
  | Some l => Ok l
  | None => Fault
  end.

(** overwriting the cells at offset [off] *)
Definition store_cells (m : block) (off : Z) (c : list cell) : result block :=
  if in_bounds m off (zlength c)
  then Ok (firstn (Z.to_nat off) m ++ c ++ skipn (Z.to_nat (off + zlength c)) m)
  else Fault.

Definition store (m : block) (off : Z) (l : list byte) : result block :=
  store_cells m off (map Some l).

Definition memmove (m : block) (dst src n : Z) : result block :=
  c <- cells m src n ;; store_cells m dst c.

Definition load_u32 (m : block) (off : Z) : result Z :=
  l <- load m off 4 ;; Ok (le_bytes l).

Definition load_u64 (m : block) (off : Z) : result Z :=
  l <- load m off 8 ;; Ok (le_bytes l).

(** the pointer [m + off] *)
Definition advance (m : block) (off : Z) : block := skipn (Z.to_nat off) m.

(** ** tape.c *)

Module Tape.

Record tape_t : Type := mk_tape
  { elems : block;        (* the byte buffer *)
    cur_length : Z;       (* current used number of bytes *)
    max_length : Z }.     (* maximal number of bytes *)

Definition tape_create (length : Z) : tape_t :=
  mk_tape (malloc length) 0 length.

Definition tape_deref (tape : tape_t) : block := elems tape.

Definition tape_pop (tape : tape_t) (size : Z) : tape_t :=
  if cur_length tape >? size
  then mk_tape (elems tape) (size_t (cur_length tape - size)) (max_length tape)
  else mk_tape (elems tape) 0 (max_length tape).

(** [tape_push] returns the offset of the reservation in the buffer, and the
    tape.  (The source tests an identifier [elems] after [realloc]; the test
    is read as the one of [tape->elems], which never fires here.) *)
Definition tape_push (tape : tape_t) (size : Z) : Z * tape_t :=
  let tape :=
    if size_t (cur_length tape + size) >? max_length tape
    then
      let max_length' := size_t (max_length tape * 2) in
      mk_tape (realloc (elems tape) max_length') (cur_length tape) max_length'
    else tape in
  let current := cur_length tape in
  (current,
   mk_tape (elems tape) (size_t (cur_length tape + size)) (max_length tape)).

(** [tape_purge] returns the buffer; the tape object is destroyed.  With a
    used length of zero below the capacity, [realloc(tape->elems, 0)] frees
    the buffer and returns a null pointer, which the function takes for a
    failure: it calls [tape_destroy], which frees the buffer once more. *)
Definition tape_purge (tape : tape_t) : result block :=
  if cur_length tape <? max_length tape
  then
    if cur_length tape =? 0 then Fault
    else Ok (realloc (elems tape) (cur_length tape))
  else Ok (elems tape).

(** A [tape_t *] held by a caller: the object it points to is live or has
    been freed. *)
Inductive handle : Type :=
| Live (tape : tape_t)
| Freed.

Definition create (length : Z) : handle := Live (tape_create length).

Definition destroy (h : handle) : result handle :=
  match h with
  | Live _ => Ok Freed
  | Freed => Fault
  end.

Definition deref (h : handle) : result block :=
  match h with
  | Live t => Ok (tape_deref t)
  | Freed => Fault
  end.

Definition pop (h : handle) (size : Z) : result handle :=
  match h with
  | Live t => Ok (Live (tape_pop t size))
  | Freed => Fault
  end.

Definition push (h : handle) (size : Z) : result (Z * handle) :=
  match h with
  | Live t => let (p, t') := tape_push t size in Ok (p, Live t')
  | Freed => Fault
  end.

Definition purge (h : handle) : result (block * handle) :=
  match h with
  | Live t => elements <- tape_purge t ;; Ok (elements, Freed)
  | Freed => Fault
  end.

(** Sequences of reservations and releases. *)
Inductive op : Type :=
| Push (n : Z)
| Pop (n : Z).

Definition run_op (t : tape_t) (o : op) : tape_t :=
  match o with
  | Push n => snd (tape_push t n)
  | Pop n => tape_pop t n
  end.

Definition run_ops (t : tape_t) (os : list op) : tape_t :=
  fold_left run_op os t.

Definition sum (ns : list Z) : Z := fold_right Z.add 0 ns.

End Tape.

(** ** matfile.h *)

Definition MF_ALIGNMENT : Z := 8.
Definition MATFILE_ALIGNMENT : Z := MF_ALIGNMENT.

Definition MFMX_CELL_CLASS : Z := 1.
Definition MFMX_STRUCT_CLASS : Z := 2.
Definition MFMX_OBJECT_CLASS : Z := 3.
Definition MFMX_CHAR_CLASS : Z := 4.
Definition MFMX_SPARSE_CLASS : Z := 5.
Definition MFMX_DOUBLE_CLASS : Z := 6.
Definition MFMX_SINGLE_CLASS : Z := 7.
Definition MFMX_INT8_CLASS : Z := 8.
Definition MFMX_UINT8_CLASS : Z := 9.
Definition MFMX_INT16_CLASS : Z := 10.
Definition MFMX_UINT16_CLASS : Z := 11.
Definition MFMX_INT32_CLASS : Z := 12.
Definition MFMX_UINT32_CLASS : Z := 13.
Definition MFMX_INT64_CLASS : Z := 14.
Definition MFMX_UINT64_CLASS : Z := 15.
Definition MFMX_COUNT : Z := 16.

Definition MFDT_INT8 : Z := 1.
Definition MFDT_UINT8 : Z := 2.
Definition MFDT_INT16 : Z := 3.
Definition MFDT_UINT16 : Z := 4.
Definition MFDT_INT32 : Z := 5.
Definition MFDT_UINT32 : Z := 6.
Definition MFDT_SINGLE : Z := 7.
Definition MFDT_DOUBLE : Z := 9.
Definition MFDT_INT64 : Z := 12.
Definition MFDT_UINT64 : Z := 13.
Definition MFDT_MATRIX : Z := 14.
Definition MFDT_COMPRESSED : Z := 15.
Definition MFDT_UTF8 : Z := 16.
Definition MFDT_UTF16 : Z := 17.
Definition MFDT_UTF32 : Z := 18.
Definition MFDT_COUNT : Z := 19.

(** [matfile_numerical_part_t]: a pointer that was never assigned, a null
    pointer, or a buffer. *)
Inductive matfile_numerical_part_t : Type :=
| PartUninit
| PartNull
| PartData (data : list byte).

Record matfile_array_t : Type := mk_array
  { flags : Z;
    dims : list Z;
    name : list byte;
    nodims : Z;
    length : Z;
    pr : matfile_numerical_part_t;
    pi : matfile_numerical_part_t }.

(** The anonymous union of [matfile_data_element_large_t]. *)
Inductive large_data_t : Type :=
| DataNull
| Data (bytes : list byte)
| Array (array : matfile_array_t).

(** [matfile_data_element_t], by its [large] member. *)
Record matfile_data_element_t : Type := mk_element
  { large_type : Z;
    large_size : Z;
    large_data : large_data_t;
    large_noelements : Z }.

(** The [small] member of the union shares the first eight bytes with the
    [large] one: [small.size] is the low half of [large.type], [small.type]
    its high half and [small.data] is [large.size]. *)
Definition small_size (e : matfile_data_element_t) : Z :=
  Z.land (large_type e) 65535.

Definition small_type (e : matfile_data_element_t) : Z :=
  Z.shiftr (large_type e) 16.

Definition small_data (e : matfile_data_element_t) : Z := large_size e.

(** The element a tag of eight bytes is copied into ([memcpy] of
    [small_size] bytes, then [data = NULL] and [noelements = 0]). *)
Definition element_of_tag (tag : list byte) : matfile_data_element_t :=
  mk_element (le_bytes (firstn 4 tag)) (le_bytes (firstn 4 (skipn 4 tag)))
             DataNull 0.

(** ** matfile.c: predicates on elements *)

Definition IS_SMALL (size type : Z) : bool :=
  negb (size =? 0) && negb (type =? 0).

Definition matfile_is_small (element : matfile_data_element_t) : Z :=
  Z.b2z (IS_SMALL (small_size element) (small_type element)).

Definition matfile_is_large (element : matfile_data_element_t) : Z :=
  Z.b2z (negb (IS_SMALL (small_size element) (small_type element))).

Definition is_numerical_type (type : Z) : bool :=
  ((MFDT_INT8 <=? type) && (type <=? MFDT_SINGLE))
  || (type =? MFDT_DOUBLE)
  || (type =? MFDT_INT64)
  || (type =? MFDT_UINT64).

Definition matfile_is_numerical (element : matfile_data_element_t) : Z :=
  Z.b2z (is_numerical_type (large_type element)).

(** [data_type_size], indexed from 0. *)
Definition data_type_size : list Z :=
  [1; 1; 2; 2; 4; 4; 4; 0; 8; 0; 0; 8; 8; 0; 0; 0; 0; 0].

(** ** matfile.c: the numeric array assembler *)

(** The [int32_t] values held by the copied dimension sub-element. *)
Fixpoint decode_dims (l : list byte) : list Z :=
  match l with
  | b0 :: b1 :: b2 :: b3 :: t => int32_t (le_bytes [b0; b1; b2; b3]) :: decode_dims t
  | _ => []
  end.

(** [int noelems = 1; for (i = 0; i != nodims; ++i) noelems *= dims[i];] *)
Definition count_elements (array : matfile_array_t) : result Z :=
  if (0 <=? nodims array) && (nodims array <=? zlength (dims array))
  then Ok (fold_left (fun noelems d => int32_t (noelems * d))
                     (firstn (Z.to_nat (nodims array)) (dims array)) 1)
  else Fault.

(** [parse_numerical_part]: [data] is the memory the pointer [data] points
    to, [len] the value of [*len].  The result is the buffer stored in
    [part->data] and the returned pointer, as an offset from [data]. *)
Definition parse_numerical_part (array : matfile_array_t) (data : block)
    (len : Z) : result (matfile_numerical_part_t * Z) :=
  let tag_size := 8 in
  if len <? tag_size then Null else
  elem_size <- load_u32 data 4 ;;
  if len <? size_t (tag_size + elem_size) then Null else
  elem_type <- load_u32 data 0 ;;
  if negb (is_numerical_type elem_type) then Null else
  noelems <- count_elements array ;;
  let type_size := nth (Z.to_nat (elem_type - 1)) data_type_size 0 in
  let size := size_t (type_size * noelems) in
  if negb (elem_size =? size) then Null else
  let bytes := tag_size in
  part <- load data bytes size ;;
  Ok (PartData part, bytes + size).

Definition set_pr (array : matfile_array_t) (p : matfile_numerical_part_t)
  : matfile_array_t :=
  mk_array (flags array) (dims array) (name array) (nodims array)
           (length array) p (pi array).

Definition set_pi (array : matfile_array_t) (p : matfile_numerical_part_t)
  : matfile_array_t :=
  mk_array (flags array) (dims array) (name array) (nodims array)
           (length array) (pr array) p.

(** [parse_numerical_array]: [Ok] carries the array as the call leaves it
    when it returns zero. *)
Definition parse_numerical_array (array : matfile_array_t) (data : block)
    (len : Z) : result matfile_array_t :=
  let end_ := size_t len in
  let array := set_pi (set_pr array PartNull) PartNull in
  r <- parse_numerical_part array data len ;;
  let array := set_pr array (fst r) in
  if size_t (snd r) =? end_ then Ok array else
  r' <- parse_numerical_part array (advance data (snd r)) len ;;
  Ok (set_pi array (fst r')).

Definition unsupported_class (array_type : Z) : bool :=
  (array_type =? MFMX_CELL_CLASS) || (array_type =? MFMX_STRUCT_CLASS)
  || (array_type =? MFMX_OBJECT_CLASS) || (array_type =? MFMX_CHAR_CLASS)
  || (array_type =? MFMX_SPARSE_CLASS).

Definition numerical_class (array_type : Z) : bool :=
  (array_type =? MFMX_INT8_CLASS) || (array_type =? MFMX_INT16_CLASS)
  || (array_type =? MFMX_INT32_CLASS) || (array_type =? MFMX_INT64_CLASS)
  || (array_type =? MFMX_UINT8_CLASS) || (array_type =? MFMX_UINT16_CLASS)
  || (array_type =? MFMX_UINT32_CLASS) || (array_type =? MFMX_UINT64_CLASS)
  || (array_type =? MFMX_SINGLE_CLASS) || (array_type =? MFMX_DOUBLE_CLASS).

Definition padding_of (size : Z) : Z :=
  (MF_ALIGNMENT - size mod MF_ALIGNMENT) mod MF_ALIGNMENT.

(** The name of an array, as [parse_array] builds it from the [size] bytes
    of the name sub-element:
    [array.name = malloc(elem->large.size + 1)], the sum being taken in
    [uint32_t]; [memcpy(array.name, bytes + offset, elem->large.size)];
    [array.name[elem->large.size] = 0].  [Ok] carries the bytes the buffer
    holds. *)
Definition copy_name (name_bytes : list byte) (size : Z)
  : result (list byte) :=
  let array_name := malloc (uint32_t (size + 1)) in
  array_name <- store array_name 0 name_bytes ;;
  array_name <- store array_name size [x00] ;;
  load array_name 0 (size + 1).

(** [parse_array]: [Ok] carries the array copied to the returned pointer,
    [Null] is the null pointer. *)
Definition parse_array (data : block) (length : Z) : result matfile_array_t :=
  let offset := 0 in
  (* array flags *)
  let size := 8 in
  if length <? size_t (offset + size + 8) then Null else
  let elem := offset in
  let offset := size_t (offset + size) in
  flags_type <- load_u32 data elem ;;
  if negb (flags_type =? MFDT_UINT32) then Null else
  flags_size <- load_u32 data (elem + 4) ;;
  if negb (flags_size =? 8) then Null else
  array_flags <- load_u64 data offset ;;
  let offset := size_t (offset + 8) in
  (* array dimensions *)
  let size := 8 in
  if length <? size_t (offset + size + 2 * 4) then Null else
  let elem := offset in
  let offset := size_t (offset + size) in
  dims_type <- load_u32 data elem ;;
  if negb (dims_type =? MFDT_INT32) then Null else
  dims_size <- load_u32 data (elem + 4) ;;
  if negb (dims_size mod 4 =? 0) then Null else
  if length <? size_t (offset + dims_size) then Null else
  let array_nodims := dims_size / 4 in
  dims_bytes <- load data offset dims_size ;;
  let padding := padding_of dims_size in
  let offset := size_t (offset + dims_size + padding) in
  (* array name *)
  let size := 8 in
  if length <? size_t (offset + size) then Null else
  let elem := offset in
  let offset := size_t (offset + size) in
  name_type <- load_u32 data elem ;;
  if negb (name_type =? MFDT_INT8) then Null else
  name_size <- load_u32 data (elem + 4) ;;
  if length <? size_t (offset + name_size) then Null else
  name_bytes <- load data offset name_size ;;
  array_name <- copy_name name_bytes name_size ;;
  let padding := padding_of name_size in
  let offset := size_t (offset + name_size + padding) in
  let array :=
    mk_array array_flags (decode_dims dims_bytes) array_name
             array_nodims name_size PartUninit PartUninit in
  (* the rest depends on the array type *)
  let rest_size := size_t (length - offset) in
  let rest := advance data offset in
  let array_type := Z.land array_flags 255 in
  if unsupported_class array_type then
    (* "array type is not supported by now"; break *)
    Ok array
  else if numerical_class array_type then
    parse_numerical_array array rest rest_size
  else Null.

(** ** zlib, as the parser uses it *)

Definition Z_OK : Z := 0.
Definition Z_STREAM_END : Z := 1.
Definition Z_DATA_ERROR : Z := -3.
Definition Z_BUF_ERROR : Z := -5.

(** The streaming interface of the codec.  [inflateInit src avail_in] is the
    stream whose [next_in] points to [src]; [inflate s avail_out] is one call
    of [inflate(&stream, Z_SYNC_FLUSH)]: its return code, the bytes it wrote
    at [next_out] and the stream it leaves. *)
Record zlib_codec : Type := mk_codec
  { z_stream : Type;
    inflateInit : block -> Z -> Z * z_stream;
    inflate : z_stream -> Z -> result (Z * list byte * z_stream);
    avail_in : z_stream -> Z;
    inflateEnd : z_stream -> Z }.

(** ** matfile.c: the element parser *)

Definition set_type_size (e : matfile_data_element_t) (type size : Z)
  : matfile_data_element_t :=
  mk_element type size (large_data e) (large_noelements e).

Definition set_data (e : matfile_data_element_t) (d : large_data_t)
  : matfile_data_element_t :=
  mk_element (large_type e) (large_size e) d (large_noelements e).

Definition set_elems (t : Tape.tape_t) (m : block) : Tape.tape_t :=
  Tape.mk_tape m (Tape.cur_length t) (Tape.max_length t).

Definition valid_data_type (type : Z) : bool :=
  (MFDT_INT8 <=? type) && (type <? MFDT_COUNT).

(** The state of the loop of [parse_data_elements]: the cursor, the tape and
    the elements written to the tape so far (the counter [noelements] is
    their number). *)
Record parser_state : Type := mk_state
  { offset : Z;
    tape : Tape.tape_t;
    elements : list matfile_data_element_t }.

Section Parser.

Variable codec : zlib_codec.

(** [decompress_data_element]: [src] is the memory [element->large.data]
    points to when the call is made.  [Ok] (status zero) carries the element
    with its new type and size, and the block [element->large.data] points
    to when the call returns. *)
Definition decompress_data_element (element : matfile_data_element_t)
    (src : block) : result (matfile_data_element_t * block) :=
  let tag_size := 8 in
  let buffer_size := Z.lor (large_size element) 128 in
  let tape := Tape.tape_create buffer_size in
  let (base, tape) := Tape.tape_push tape tag_size in
  let (data, tape) := Tape.tape_push tape (size_t (buffer_size - tag_size)) in
  let (code, stream) := inflateInit codec src (large_size element) in
  if code <? Z_OK then Null else
  (* the beginning of the data, which holds the tag *)
  r <- inflate codec stream buffer_size ;;
  let '(code, out, stream) := r in
  mem <- store (Tape.elems tape) base out ;;
  let tape := set_elems tape mem in
  let avail_out := uint32_t (buffer_size - zlength out) in
  if code <? Z_OK then Null else
  subel_type <- load_u32 (Tape.elems tape) base ;;
  if negb (valid_data_type subel_type) then Null else
  subel_size <- load_u32 (Tape.elems tape) (base + 4) ;;
  let element := set_type_size element subel_type subel_size in
  (* move the payload bytes to the beginning of the tape *)
  let avail_size := size_t (buffer_size - tag_size - avail_out) in
  let rest_size := size_t (large_size element - avail_size) in
  mem <- memmove (Tape.elems tape) base data avail_size ;;
  let tape := set_elems tape mem in
  (* inflate the rest of the data *)
  let tape := Tape.tape_pop tape buffer_size in
  let tape := snd (Tape.tape_push tape avail_size) in
  let (next_out, tape) := Tape.tape_push tape rest_size in
  r <- inflate codec stream (uint32_t rest_size) ;;
  let '(code, out, stream) := r in
  mem <- store (Tape.elems tape) next_out out ;;
  let tape := set_elems tape mem in
  if code <? Z_OK then Null else
  if negb (avail_in codec stream =? 0) then Null else
  if negb (inflateEnd codec stream =? Z_OK) then Null else
  inflated <- Tape.tape_purge tape ;;
  Ok (element, inflated).

(** One iteration of the loop of [parse_data_elements], entered with
    [offset < length]. *)
Definition parse_step (data : block) (st : parser_state)
  : result parser_state :=
  let sizeof_small := 8 in
  let sizeof_large := 24 in
  let (elem_ptr, tape) := Tape.tape_push (tape st) sizeof_large in
  tag <- load data (offset st) sizeof_small ;;
  if negb (in_bounds (Tape.elems tape) elem_ptr sizeof_large) then Fault else
  let offset := size_t (offset st + sizeof_small) in
  let elem := element_of_tag tag in
  if negb (matfile_is_small elem =? 0) then
    Ok (mk_state offset tape (elements st ++ [elem]))
  else
  let data_size := large_size elem in
  let data_type := large_type elem in
  if negb (valid_data_type data_type) then Null else
  let buffer := advance data offset in
  r <- (if large_type elem =? MFDT_COMPRESSED then
          r <- decompress_data_element elem buffer ;;
          Ok (fst r, snd r, data_size)
        else
          let residue := data_size mod MATFILE_ALIGNMENT in
          Ok (elem, buffer,
              size_t (data_size
                      + (if negb (residue =? 0)
                         then MATFILE_ALIGNMENT - residue else 0)))) ;;
  let '(elem, buffer, data_size) := r in
  elem <- (if large_type elem =? MFDT_MATRIX then
             match parse_array buffer (large_size elem) with
             | Ok array => Ok (set_data elem (Array array))
             | Null => Ok (set_data elem DataNull)
             | Fault => Fault
             end
           else
             bytes <- load buffer 0 data_size ;;
             Ok (set_data elem (Data bytes))) ;;
  Ok (mk_state (size_t (offset + data_size)) tape (elements st ++ [elem])).

(** The loop [for (size_t offset = 0; offset < length; ...)] of
    [parse_data_elements]: [None] when the iterations allowed by [fuel] do
    not reach the end of the loop. *)
Fixpoint parse_loop (fuel : nat) (data : block) (length : Z)
    (st : parser_state) : option (result parser_state) :=
  if offset st <? length then
    match fuel with
    | O => None
    | S fuel =>
        match parse_step data st with
        | Ok st' => parse_loop fuel data length st'
        | Null => Some Null
        | Fault => Some Fault
        end
    end
  else Some (Ok st).

Definition initial_state : parser_state :=
  mk_state 0 (Tape.tape_create (16 * 24)) [].

(** [parse_data_elements]: the loop, then [return tape_purge(tape)].  [Ok]
    carries the elements of the array the purged tape holds; their number is
    the one stored through [noelements]. *)
Definition parse_data_elements (data : block) (length : Z)
  : option (result (list matfile_data_element_t)) :=
  match parse_loop (Z.to_nat length) data length initial_state with
  | Some (Ok st) =>
      Some (purged <- Tape.tape_purge (tape st) ;; Ok (elements st))
  | Some Null => Some Null
  | Some Fault => Some Fault
  | None => None
  end.

Definition matfile_parse (data : block) (length : Z)
  : option (result (list matfile_data_element_t)) :=
  parse_data_elements data length.

End Parser.

(** ** A codec to evaluate the parser with: zlib streams of stored blocks

    RFC 1950 and RFC 1951 restricted to blocks of type 00: the two header
    bytes, blocks of [LEN] literal bytes, and the Adler-32 checksum of the
    output.  On such a stream it delivers what [inflate] delivers. *)

Definition adler32 (l : list byte) : Z :=
  let step (s : Z * Z) (x : byte) :=
    let a := (fst s + byte_val x) mod 65521 in
    (a, (snd s + a) mod 65521) in
  let s := fold_left step l (1, 0) in
  snd s * 65536 + fst s.

(** The output of the stored blocks at the head of [l] and the input that
    follows the final block. *)
Fixpoint stored_blocks (fuel : nat) (l : list byte)
  : option (list byte * list byte) :=
  match fuel with
  | O => None
  | S fuel =>
      match l with
      | h :: l0 :: l1 :: n0 :: n1 :: t =>
          let LEN := le_bytes [l0; l1] in
          let NLEN := le_bytes [n0; n1] in
          if negb (Z.land (byte_val h) 6 =? 0) then None
          else if negb (LEN + NLEN =? 65535) then None
          else if zlength t <? LEN then None
          else
            let body := firstn (Z.to_nat LEN) t in
            let rest := skipn (Z.to_nat LEN) t in
            if Z.land (byte_val h) 1 =? 1 then Some (body, rest)
            else
              match stored_blocks fuel rest with
              | Some (out, rest') => Some (body ++ out, rest')
              | None => None
              end
      | _ => None
      end
  end.

(** The output of a complete stream at the head of [input] and the number of
    input bytes the stream takes. *)
Definition stored_stream_decode (input : list byte) : option (list byte * Z) :=
  match input with
  | cmf :: flg :: t =>
      if (Z.land (byte_val cmf) 15 =? 8)
         && (Z.shiftr (byte_val cmf) 4 <=? 7)
         && ((byte_val cmf * 256 + byte_val flg) mod 31 =? 0)
         && (Z.land (byte_val flg) 32 =? 0)
      then
        match stored_blocks (List.length t) t with
        | Some (out, a3 :: a2 :: a1 :: a0 :: rest) =>
            if le_bytes [a0; a1; a2; a3] =? adler32 out
            then Some (out, zlength input - zlength rest)
            else None
        | _ => None
        end
      else None
  | _ => None
  end.

Record stored_stream : Type := mk_stored
  { s_next_in : block;      (* the input, from the first value of next_in *)
    s_total_in : Z;         (* the first value of avail_in *)
    s_delivered : Z;        (* output bytes written so far *)
    s_avail_in : Z }.

Definition stored_inflate (s : stored_stream) (avail_out : Z)
  : result (Z * list byte * stored_stream) :=
  input <- load (s_next_in s) 0 (s_total_in s) ;;
  match stored_stream_decode input with
  | None => Ok (Z_DATA_ERROR, [], s)
  | Some (out, used) =>
      let chunk :=
        firstn (Z.to_nat avail_out) (skipn (Z.to_nat (s_delivered s)) out) in
      let delivered := s_delivered s + zlength chunk in
      if delivered =? zlength out then
        Ok (Z_STREAM_END, chunk,
            mk_stored (s_next_in s) (s_total_in s) delivered
                      (s_total_in s - used))
      else if zlength chunk =? 0 then Ok (Z_BUF_ERROR, [], s)
      else
        (* the bytes not delivered yet and the checksum are still to read *)
        Ok (Z_OK, chunk,
            mk_stored (s_next_in s) (s_total_in s) delivered
                      (s_total_in s - used + 4 + (zlength out - delivered)))
  end.

Definition stored_codec : zlib_codec :=
  mk_codec stored_stream
           (fun src avail => (Z_OK, mk_stored src avail 0 avail))
           stored_inflate
           s_avail_in
           (fun _ => Z_OK).

(** ** A second codec: zlib streams of blocks with fixed Huffman codes

    RFC 1950 and RFC 1951 restricted to blocks of type 01, which hold
    literals and copies of earlier output.  Such a stream can inflate to
    more bytes than the buffer [decompress_data_element] starts with, so
    that the second call of [inflate] has bytes to deliver. *)

(** The bits of the input in the order of RFC 1951: from the least
    significant bit of each byte. *)
Definition bits_of_byte (b : byte) : list bool :=
  map (Z.testbit (byte_val b)) [0; 1; 2; 3; 4; 5; 6; 7].

Definition bits_of (l : list byte) : list bool := flat_map bits_of_byte l.

(** A field of [n] bits, least significant bit first. *)
Fixpoint take_lsb (n : nat) (bits : list bool) : option (Z * list bool) :=
  match n with
  | O => Some (0, bits)
  | S n =>
      match bits with
      | [] => None
      | b :: t =>
          match take_lsb n t with
          | Some (v, r) => Some (Z.b2z b + 2 * v, r)
          | None => None
          end
      end
  end.

(** [n] more bits of a Huffman code, most significant bit first. *)
Fixpoint take_msb (n : nat) (code : Z) (bits : list bool)
  : option (Z * list bool) :=
  match n with
  | O => Some (code, bits)
  | S n =>
      match bits with
      | [] => None
      | b :: t => take_msb n (2 * code + Z.b2z b) t
      end
  end.

(** The next symbol of the fixed literal/length code (RFC 1951, 3.2.6). *)
Definition fixed_symbol (bits : list bool) : option (Z * list bool) :=
  match take_msb 7 0 bits with
  | None => None
  | Some (c7, r) =>
      if c7 <=? 23 then Some (256 + c7, r)
      else
        match take_msb 1 c7 r with
        | None => None
        | Some (c8, r) =>
            if c8 <=? 191 then Some (c8 - 48, r)
            else if c8 <=? 199 then Some (280 + (c8 - 192), r)
            else
              match take_msb 1 c8 r with
              | None => None
              | Some (c9, r) => Some (144 + (c9 - 400), r)
              end
        end
  end.

Definition length_base : list Z :=
  [3; 4; 5; 6; 7; 8; 9; 10; 11; 13; 15; 17; 19; 23; 27; 31; 35; 43; 51; 59;
   67; 83; 99; 115; 131; 163; 195; 227; 258].

Definition length_extra : list nat :=
  [0; 0; 0; 0; 0; 0; 0; 0; 1; 1; 1; 1; 2; 2; 2; 2; 3; 3; 3; 3; 4; 4; 4; 4;
   5; 5; 5; 5; 0]%nat.

Definition dist_base : list Z :=
  [1; 2; 3; 4; 5; 7; 9; 13; 17; 25; 33; 49; 65; 97; 129; 193; 257; 385; 513;
   769; 1025; 1537; 2049; 3073; 4097; 6145; 8193; 12289; 16385; 24577].

Definition dist_extra : list nat :=
  [0; 0; 0; 0; 1; 1; 2; 2; 3; 3; 4; 4; 5; 5; 6; 6; 7; 7; 8; 8; 9; 9; 10; 10;
   11; 11; 12; 12; 13; 13]%nat.

(** [len] bytes copied from [dist] bytes back, one at a time. *)
Fixpoint lz_copy (len : nat) (dist : nat) (out : list byte) : list byte :=
  match len with
  | O => out
  | S len =>
      lz_copy len dist (out ++ [nth (List.length out - dist) out x00])
  end.

(** The symbols of one block, up to its end-of-block symbol. *)
Fixpoint fixed_symbols (fuel : nat) (bits : list bool) (out : list byte)
  : option (list byte * list bool) :=
  match fuel with
  | O => None
  | S fuel =>
      match fixed_symbol bits with
      | None => None
      | Some (sym, r) =>
          if sym <? 256 then
            match Byte.of_N (Z.to_N sym) with
            | Some b => fixed_symbols fuel r (out ++ [b])
            | None => None
            end
          else if sym =? 256 then Some (out, r)
          else if 285 <? sym then None
          else
            let i := Z.to_nat (sym - 257) in
            match take_lsb (nth i length_extra 0%nat) r with
            | None => None
            | Some (e, r) =>
                let len := nth i length_base 0 + e in
                match take_msb 5 0 r with
                | None => None
                | Some (d, r) =>
                    if 29 <? d then None
                    else
                      match take_lsb (nth (Z.to_nat d) dist_extra 0%nat) r with
                      | None => None
                      | Some (e', r) =>
                          let dist := nth (Z.to_nat d) dist_base 0 + e' in
                          if zlength out <? dist then None
                          else
                            fixed_symbols fuel r
                              (lz_copy (Z.to_nat len) (Z.to_nat dist) out)
                      end
                end
            end
      end
  end.

(** The blocks of a stream, all of type 01. *)
Fixpoint fixed_blocks (fuel : nat) (bits : list bool) (out : list byte)
  : option (list byte * list bool) :=
  match fuel with
  | O => None
  | S fuel =>
      match bits with
      | bfinal :: btype0 :: btype1 :: r =>
          if btype0 && negb btype1 then
            match fixed_symbols (List.length r) r out with
            | None => None
            | Some (out, r) =>
                if bfinal then Some (out, r) else fixed_blocks fuel r out
            end
          else None
      | _ => None
      end
  end.

(** The output of a complete stream at the head of [input] and the number of
    input bytes the stream takes: the two header bytes, the blocks, and the
    Adler-32 checksum of the output after the last byte of the blocks. *)
Definition fixed_stream_decode (input : list byte) : option (list byte * Z) :=
  match input with
  | cmf :: flg :: t =>
      if (Z.land (byte_val cmf) 15 =? 8)
         && (Z.shiftr (byte_val cmf) 4 <=? 7)
         && ((byte_val cmf * 256 + byte_val flg) mod 31 =? 0)
         && (Z.land (byte_val flg) 32 =? 0)
      then
        match fixed_blocks (List.length t) (bits_of t) [] with
        | Some (out, r) =>
            (* the bits left of the last byte of the blocks are skipped *)
            match skipn (List.length t - List.length r / 8) t with
            | a3 :: a2 :: a1 :: a0 :: rest =>
                if le_bytes [a0; a1; a2; a3] =? adler32 out
                then Some (out, zlength input - zlength rest)
                else None
            | _ => None
            end
        | None => None
        end
      else None
  | _ => None
  end.

(** One call of [inflate]: as much of the output that is still to deliver
    as [avail_out] allows.  The count of input bytes left is the one of zlib
    when the stream has ended; between two calls it depends on how far zlib
    has read ahead, and is left as it was. *)
Definition fixed_inflate (s : stored_stream) (avail_out : Z)
  : result (Z * list byte * stored_stream) :=
  input <- load (s_next_in s) 0 (s_total_in s) ;;
  match fixed_stream_decode input with
  | None => Ok (Z_DATA_ERROR, [], s)
  | Some (out, used) =>
      let chunk :=
        firstn (Z.to_nat avail_out) (skipn (Z.to_nat (s_delivered s)) out) in
      let delivered := s_delivered s + zlength chunk in
      if delivered =? zlength out then
        Ok (Z_STREAM_END, chunk,
            mk_stored (s_next_in s) (s_total_in s) delivered
                      (s_total_in s - used))
      else if zlength chunk =? 0 then Ok (Z_BUF_ERROR, [], s)
      else
        Ok (Z_OK, chunk,
            mk_stored (s_next_in s) (s_total_in s) delivered (s_avail_in s))
  end.

Definition fixed_codec : zlib_codec :=
  mk_codec stored_stream
           (fun src avail => (Z_OK, mk_stored src avail 0 avail))
           fixed_inflate
           s_avail_in
           (fun _ => Z_OK).

(** ** Inputs the statements below are evaluated at *)

(** A matrix payload of class [mxCELL_CLASS]: array flags, dimensions 1 x 1,
    name "c". *)
Definition cell_payload : list byte :=
  [x06; x00; x00; x00; x08; x00; x00; x00;
   x01; x00; x00; x00; x00; x00; x00; x00;
   x05; x00; x00; x00; x08; x00; x00; x00;
   x01; x00; x00; x00; x01; x00; x00; x00;
   x01; x00; x00; x00; x01; x00; x00; x00;
   x63; x00; x00; x00; x00; x00; x00; x00].

(** The same payload with another class byte. *)
Definition class_payload (class : byte) : list byte :=
  firstn 8 cell_payload ++ class :: skipn 9 cell_payload.

(** A file body of one [miMATRIX] element of 8 bytes, too short to hold the
    array flags sub-element. *)
Definition short_matrix : list byte :=
  [x0e; x00; x00; x00; x08; x00; x00; x00;
   x00; x00; x00; x00; x00; x00; x00; x00].

(** A file body whose only element declares 16 bytes of [miINT8] data and
    ends after 4 of them. *)
Definition truncated_int8 : list byte :=
  [x01; x00; x00; x00; x10; x00; x00; x00;
   x0a; x0b; x0c; x0d].

(** Twelve bytes that are in memory after the buffer, but not part of it. *)
Definition foreign_bytes : list byte :=
  [xf0; xf1; xf2; xf3; xf4; xf5; xf6; xf7; xf8; xf9; xfa; xfb].

(** A file body of one [miINT8] element of 5 bytes and its padding. *)
Definition five_int8 : list byte :=
  [x01; x00; x00; x00; x05; x00; x00; x00;
   x0a; x0b; x0c; x0d; x0e; x00; x00; x00].

(** A real part declared as [miDOUBLE] of 40 bytes. *)
Definition double_40 : list byte :=
  [x09; x00; x00; x00; x28; x00; x00; x00] ++ repeat x00 40.

(** A real part declared as [miDOUBLE] of 48 bytes. *)
Definition double_48 : list byte :=
  [x09; x00; x00; x00; x30; x00; x00; x00] ++ repeat x00 48.

(** A real part declared as [miINT8] of 1 byte. *)
Definition int8_1 : list byte :=
  [x01; x00; x00; x00; x01; x00; x00; x00; x2a].

Definition array_of_dims (ds : list Z) : matfile_array_t :=
  mk_array MFMX_DOUBLE_CLASS ds [x61; x00] (zlength ds) 1 PartNull PartNull.

(** A file body of one [miCOMPRESSED] element of 35 bytes: the zlib stream
    (one stored block) of an [miINT8] element of 16 bytes. *)
Definition compressed_int8 : list byte :=
  [x0f; x00; x00; x00; x23; x00; x00; x00;
   x78; x01; x01; x18; x00; xe7; xff;
   x01; x00; x00; x00; x10; x00; x00; x00;
   x41; x42; x43; x44; x45; x46; x47; x48;
   x49; x4a; x4b; x4c; x4d; x4e; x4f; x50;
   x26; xa0; x04; x9a].

(** A file body of one [miMATRIX] element of 48 bytes, the payload of class
    [mxCELL_CLASS] above. *)
Definition cell_matrix : list byte :=
  [x0e; x00; x00; x00; x30; x00; x00; x00] ++ cell_payload.

(** A file body of one [miCOMPRESSED] element of 83 bytes: the zlib stream
    (one stored block) of an [miMATRIX] element of 64 bytes, the 1 x 1
    [mxDOUBLE_CLASS] array "a" with the real part 1.5. *)
Definition compressed_matrix : list byte :=
  [x0f; x00; x00; x00; x53; x00; x00; x00;
   x78; x01; x01; x48; x00; xb7; xff; x0e;
   x00; x00; x00; x40; x00; x00; x00; x06;
   x00; x00; x00; x08; x00; x00; x00; x06;
   x00; x00; x00; x00; x00; x00; x00; x05;
   x00; x00; x00; x08; x00; x00; x00; x01;
   x00; x00; x00; x01; x00; x00; x00; x01;
   x00; x00; x00; x01; x00; x00; x00; x61;
   x00; x00; x00; x00; x00; x00; x00; x09;
   x00; x00; x00; x08; x00; x00; x00; x00;
   x00; x00; x00; x00; x00; xf8; x3f; x28;
   xf7; x02; x1d].

(** The payload of 200 bytes of the element that [compressed_run] wraps:
    the letters A to G, over and over. *)
Definition run_payload : list byte :=
  firstn 200 (List.concat (repeat [x41; x42; x43; x44; x45; x46; x47] 29)).

(** A file body of one [miCOMPRESSED] element of 24 bytes: the zlib stream
    (one block with fixed Huffman codes) of an [miINT8] element of 200
    bytes, [run_payload]. *)
Definition compressed_run : list byte :=
  [x0f; x00; x00; x00; x18; x00; x00; x00;
   x78; x01; x63; x64; x60; x60; x38; x01;
   xc4; x8e; x4e; xce; x2e; xae; x6e; xee;
   x43; x9e; x02; x00; x7a; x27; x35; xe4].

(** The array that element wraps. *)
Definition array_a : matfile_array_t :=
  mk_array 6 [1; 1] [x61; x00] 2 1
           (PartData [x00; x00; x00; x00; x00; x00; xf8; x3f]) PartNull.

(** The payload of the matrix element that [compressed_matrix] wraps. *)
Definition matrix_a_payload : list byte :=
  firstn 64 (skipn 23 compressed_matrix).


(** ** Statements of the specification that need a definition of their own *)

(** The product of the dimension values, as an integer. *)
Definition product (ds : list Z) : Z := fold_right Z.mul 1 ds.

(** The byte size of a data type, [data_type_size[type - 1]]. *)
Definition type_byte_size (type : Z) : Z :=
  nth (Z.to_nat (type - 1)) data_type_size 0.

(** The number of elements of an array: the product of all its dimension
    values. *)
Definition exact_count (array : matfile_array_t) : Z := product (dims array).

(** The same product, reduced to the 32 bits of an [int]. *)
Definition int_count (array : matfile_array_t) : Z :=
  int32_t (product (dims array)).

(** The size rule of a numeric part, for a way [count] of counting the
    elements of an array with [nodims] dimension values: a part that parses
    has a declared size of the byte size of its type times the count. *)
Definition size_rule (count : matfile_array_t -> Z) : Prop :=
  forall array data len part next type size,
    nodims array = zlength (dims array) ->
    load_u32 data 0 = Ok type ->
    load_u32 data 4 = Ok size ->
    parse_numerical_part array data len = Ok (part, next) ->
    size = type_byte_size type * count array.

(** The buffer of a tape has the size of its capacity. *)
Definition tape_sized (t : Tape.tape_t) : Prop :=
  zlength (Tape.elems t) = Tape.max_length t.

(** The element reserved by the next iteration of the parser lies inside the
    buffer of the tape. *)
Definition tape_room (t : Tape.tape_t) : Prop :=
  in_bounds (Tape.elems (snd (Tape.tape_push t 24)))
            (fst (Tape.tape_push t 24)) 24 = true.

(** ** matfile.c: byte order *)

Section Swap.

(** The value of the static [swap_bytes]. *)
Variable swap_bytes : Z.

Definition swap2 (word : Z) : Z :=
  if negb (swap_bytes =? 0) then
    let byte1 := wrap 16 (Z.shiftr (Z.land word (Z.shiftl 255 0)) 0) in
    let byte2 := wrap 16 (Z.shiftr (Z.land word (Z.shiftl 255 8)) 8) in
    wrap 16 (Z.shiftl byte1 8 + byte2)
  else word.

Definition swap4 (dword : Z) : Z :=
  if negb (swap_bytes =? 0) then
    let mask k := uint32_t (Z.shiftl 255 k) in
    let byte1 := Z.shiftr (Z.land dword (mask 0)) 0 in
    let byte2 := Z.shiftr (Z.land dword (mask 8)) 8 in
    let byte3 := Z.shiftr (Z.land dword (mask 16)) 16 in
    let byte4 := Z.shiftr (Z.land dword (mask 24)) 24 in
    uint32_t (uint32_t (uint32_t (uint32_t (Z.shiftl byte1 24)
                                  + uint32_t (Z.shiftl byte2 16))
                        + uint32_t (Z.shiftl byte3 8))
              + uint32_t (Z.shiftl byte4 0))
  else dword.

Definition swap8 (quad : Z) : Z :=
  if negb (swap_bytes =? 0) then
    let mask k := size_t (Z.shiftl 255 k) in
    let byte1 := Z.shiftr (Z.land quad (mask 0)) 0 in
    let byte2 := Z.shiftr (Z.land quad (mask 8)) 8 in
    let byte3 := Z.shiftr (Z.land quad (mask 16)) 16 in
    let byte4 := Z.shiftr (Z.land quad (mask 24)) 24 in
    let byte5 := Z.shiftr (Z.land quad (mask 32)) 32 in
    let byte6 := Z.shiftr (Z.land quad (mask 40)) 40 in
    let byte7 := Z.shiftr (Z.land quad (mask 48)) 48 in
    let byte8 := Z.shiftr (Z.land quad (mask 56)) 56 in
    let shl x k := wrap 64 (Z.shiftl x k) in
    let add x y := wrap 64 (x + y) in
    add (add (add (add (add (add (add (shl byte1 56) (shl byte2 48))
                                 (shl byte3 40))
                            (shl byte4 32))
                       (shl byte5 24))
                  (shl byte6 16))
             (shl byte7 8))
        (shl byte8 0)
  else quad.

End Swap.

(** ** matfile.c: names of the data types *)

Definition data_type_strings : list string :=
  ["miINT8"; "miUINT8"; "miINT16"; "miUINT16"; "miINT32"; "miUINT32";
   "miSINGLE"; "unknown"; "miDOUBLE"; "unknown"; "unknown"; "miINT64";
   "miUINT64"; "miMATRIX"; "miCOMPRESSED"; "miUTF8"; "miUTF16";
   "miUTF32"]%string.

Definition matfile_get_type_string (type : Z) : string :=
  if (type <? MFDT_INT8) || (type >? MFDT_UTF32)
  then "unknown"%string
  else nth (Z.to_nat (type - 1)) data_type_strings ""%string.

(** ** The layout of a matrix payload *)

(** The offset of the name sub-element, after the array flags and the
    dimensions of [dims_size] bytes with their padding. *)
Definition name_offset (dims_size : Z) : Z :=
  24 + dims_size + padding_of dims_size.

(** The offset of what follows the name of [name_size] bytes and its
    padding. *)
Definition rest_offset (dims_size name_size : Z) : Z :=
  name_offset dims_size + 8 + name_size + padding_of name_size.

(** The array as it stands when the three leading sub-elements are read. *)
Definition array_header (array_flags : Z) (dims_bytes : list byte)
    (dims_size : Z) (name_bytes : list byte) (name_size : Z)
  : matfile_array_t :=
  mk_array array_flags (decode_dims dims_bytes) (name_bytes ++ [x00])
           (dims_size / 4) name_size PartUninit PartUninit.

(** ** What the parser promises of an element *)

(** A small element carries no payload pointer; a large one has a type of
    1..18, a raw payload unless it is a matrix, and as a matrix a null
    pointer or an array of a known class with [nodims] dimension values,
    whose numeric parts are unassigned exactly for the unsupported
    classes. *)
Definition element_ok (e : matfile_data_element_t) : Prop :=
  large_noelements e = 0
  /\ ((matfile_is_small e <> 0 /\ large_data e = DataNull)
      \/ (matfile_is_small e = 0
          /\ valid_data_type (large_type e) = true
          /\ match large_data e with
             | DataNull => large_type e = MFDT_MATRIX
             | Data _ => large_type e <> MFDT_MATRIX
             | Array array =>
                 large_type e = MFDT_MATRIX
                 /\ 1 <= Z.land (flags array) 255 <= 15
                 /\ nodims array = zlength (dims array)
                 /\ (if unsupported_class (Z.land (flags array) 255)
                     then pr array = PartUninit /\ pi array = PartUninit
                     else pr array <> PartUninit /\ pi array <> PartUninit)
             end)).

(** ** Sequences of tape operations *)

(** The operations of a sequence reserve at most [c] bytes each, and release
    a number of bytes that is not negative. *)
Definition ops_within (c : Z) (os : list Tape.op) : Prop :=
  Forall (fun o => match o with
                   | Tape.Push n => 0 <= n <= c
                   | Tape.Pop n => 0 <= n
                   end) os.

(** The bytes a sequence reserves, releases not counted. *)
Fixpoint reserved (os : list Tape.op) : Z :=
  match os with
  | [] => 0
  | Tape.Push n :: os => n + reserved os
  | Tape.Pop _ :: os => reserved os
  end.

(** ** matfile.c: the list of the variable names *)

(** [matfile_header_t] *)
Record matfile_header_t : Type := mk_header
  { description : list byte;
    subsys_data_offset : Z;
    version : Z;
    endianness : Z }.

(** [matfile_t]; [noelements] is the number of the elements. *)
Record matfile_t : Type := mk_matfile
  { mat_header : matfile_header_t;
    mat_elements : list matfile_data_element_t }.

(** An entry of the array [matfile_who] returns: the null pointer or the
    name of an array. *)
Inductive matfile_varname_t : Type :=
| VarnameNull
| Varname (name : list byte).

(** The tape of [matfile_who] and the pointers written to it so far. *)
Record who_state : Type := mk_who
  { who_tape : Tape.tape_t;
    who_names : list matfile_varname_t }.

(** [char **varname = tape_push(tape, sizeof(char * )); *varname = v;] *)
Definition who_push (st : who_state) (v : matfile_varname_t)
  : result who_state :=
  let (varname, tape) := Tape.tape_push (who_tape st) 8 in
  if negb (in_bounds (Tape.elems tape) varname 8) then Fault
  else Ok (mk_who tape (who_names st ++ [v])).

(** The loop over the elements.  The name is read through the array pointer
    of the element: a matrix element without an array faults. *)
Fixpoint who_loop (es : list matfile_data_element_t) (st : who_state)
  : result who_state :=
  match es with
  | [] => Ok st
  | e :: es =>
      if large_type e =? MFDT_MATRIX then
        match large_data e with
        | Array array =>
            st <- who_push st (Varname (name array)) ;; who_loop es st
        | DataNull | Data _ => Fault
        end
      else who_loop es st
  end.

Definition matfile_who (mat : matfile_t) : result (list matfile_varname_t) :=
  st <- who_loop (mat_elements mat) (mk_who (Tape.tape_create (4 * 8)) []) ;;
  st <- who_push st VarnameNull ;;
  purged <- Tape.tape_purge (who_tape st) ;;
  Ok (who_names st).

(** The names of the matrix elements that carry an array, in order. *)
Fixpoint matrix_names (es : list matfile_data_element_t)
  : list matfile_varname_t :=
  match es with
  | [] => []
  | e :: es =>
      if large_type e =? MFDT_MATRIX then
        match large_data e with
        | Array array => Varname (name array) :: matrix_names es
        | DataNull | Data _ => matrix_names es
        end
      else matrix_names es
  end.

(** A matrix element carries an array. *)
Definition has_array (e : matfile_data_element_t) : Prop :=
  large_type e = MFDT_MATRIX -> exists array, large_data e = Array array.

(** The tape of [matfile_who] after [k] names. *)
Definition who_tape_after (k : nat) : Tape.tape_t :=
  Tape.run_ops (Tape.tape_create (4 * 8)) (repeat (Tape.Push 8) k).

(** ** Files of small and raw elements *)

(** The eight bytes of a tag and the bytes that follow it in a file. *)
Definition item : Type := (list byte * list byte)%type.

(** The tag is small and nothing follows it, or it is large, of a type of
    1..18 other than compressed and matrix, and followed by the declared
    number of bytes and their padding. *)
Definition item_wf (it : item) : Prop :=
  zlength (fst it) = 8
  /\ ((matfile_is_small (element_of_tag (fst it)) <> 0 /\ snd it = [])
      \/ (matfile_is_small (element_of_tag (fst it)) = 0
          /\ valid_data_type (large_type (element_of_tag (fst it))) = true
          /\ large_type (element_of_tag (fst it)) <> MFDT_COMPRESSED
          /\ large_type (element_of_tag (fst it)) <> MFDT_MATRIX
          /\ zlength (snd it)
             = large_size (element_of_tag (fst it))
               + padding_of (large_size (element_of_tag (fst it))))).

(** The bytes of a file that holds the items one after the other. *)
Definition layout (its : list item) : list byte :=
  List.concat (map (fun it => fst it ++ snd it) its).

(** The element an item stands for. *)
Definition item_element (it : item) : matfile_data_element_t :=
  if matfile_is_small (element_of_tag (fst it)) =? 0
  then set_data (element_of_tag (fst it)) (Data (snd it))
  else element_of_tag (fst it).

(** The tape of [parse_data_elements] after [k] elements. *)
Definition parser_tape_after (k : nat) : Tape.tape_t :=
  Tape.run_ops (Tape.tape_create (16 * 24)) (repeat (Tape.Push 24) k).

(** ** matfile.c: releasing a file *)

(** [SAFE_RELEASE] of a numeric part: the number of blocks it frees.  The
    test of a pointer that was never assigned is a fault. *)
Definition release_part (p : matfile_numerical_part_t) : result Z :=
  match p with
  | PartUninit => Fault
  | PartNull => Ok 0
  | PartData _ => Ok 1
  end.

(** [matfile_array_destroy]: the number of blocks freed.  The dimensions and
    the name of an array are buffers of their own, and so is the array. *)
Definition matfile_array_destroy (array : option matfile_array_t)
  : result Z :=
  match array with
  | None => Ok 0
  | Some array =>
      real <- release_part (pr array) ;;
      imag <- release_part (pi array) ;;
      Ok (1 + 1 + real + imag + 1)
  end.

(** The body of the loop of [matfile_destroy].  A matrix element whose
    pointer is the one of raw bytes would be released as an array. *)
Definition destroy_element (el : matfile_data_element_t) : result Z :=
  if negb (matfile_is_small el =? 0)
     && match large_data el with DataNull => true | _ => false end
  then Ok 0
  else if large_type el =? MFDT_MATRIX then
    match large_data el with
    | DataNull => matfile_array_destroy None
    | Array array => matfile_array_destroy (Some array)
    | Data _ => Fault
    end
  else
    match large_data el with
    | DataNull => Ok 0
    | Data _ | Array _ => Ok 1
    end.

Fixpoint destroy_elements (es : list matfile_data_element_t) : result Z :=
  match es with
  | [] => Ok 0
  | el :: es =>
      n <- destroy_element el ;; m <- destroy_elements es ;; Ok (n + m)
  end.

(** [matfile_destroy] of a file whose element array is not null: the number
    of blocks freed, the element array and the file among them. *)
Definition matfile_destroy (mat : option matfile_t) : result Z :=
  match mat with
  | None => Ok 0
  | Some mat => n <- destroy_elements (mat_elements mat) ;; Ok (n + 1 + 1)
  end.

(** An element that carries an array of an unsupported class. *)
Definition has_unsupported_array (e : matfile_data_element_t) : Prop :=
  exists array,
    large_data e = Array array
    /\ unsupported_class (Z.land (flags array) 255) = true.

(** ** matfile.c: reading a file *)

(** The header, as [fread] lays the first 128 bytes of the file over the
    packed [matfile_header_t]. *)
Definition header_of_bytes (bytes : list byte) : matfile_header_t :=
  mk_header (firstn 116 bytes)
            (le_bytes (firstn 8 (skipn 116 bytes)))
            (le_bytes (firstn 2 (skipn 124 bytes)))
            (le_bytes (firstn 2 (skipn 126 bytes))).

Definition set_version (h : matfile_header_t) (v : Z) : matfile_header_t :=
  mk_header (description h) (subsys_data_offset h) v (endianness h).

(** [matfile_read]: [file] is the content of the named file, if it can be
    opened; reads return what the file holds.  [Ok] carries the file
    structure and the value the call leaves in [swap_bytes]. *)
Definition matfile_read (codec : zlib_codec) (file : option (list byte))
  : option (result (matfile_t * Z)) :=
  match file with
  | None => Some Null
  | Some content =>
      let header_size := 128 in
      if zlength content <? header_size then
        (* matfile_destroy(mat) tests mat->elements, never assigned *)
        Some Fault
      else
        let header := header_of_bytes (firstn (Z.to_nat header_size) content) in
        let swap_bytes := Z.b2z (endianness header =? 18765) in
        let data_size := zlength content - header_size in
        let data := bytes_block (skipn (Z.to_nat header_size) content) in
        let header := set_version header (swap2 swap_bytes (version header)) in
        match matfile_parse codec data data_size with
        | None => None
        | Some (Ok es) => Some (Ok (mk_matfile header es, swap_bytes))
        | Some Null => Some Null
        | Some Fault => Some Fault
        end
  end.

(** A file: 124 bytes of text and offset, the version and the marker as a
    big-endian writer leaves them, and one [miINT8] element. *)
Definition big_endian_file : list byte :=
  repeat x20 124 ++ [x01; x00; x4d; x49] ++ five_int8.

(** * Properties *)

(** ** Machine integers and bytes *)

Lemma byte_val_range (b : byte) : 0 <= byte_val b < 256.
Proof.
  unfold byte_val. pose proof (Byte.to_N_bounded b). lia.
Qed.

Lemma le_bytes_range (l : list byte) :
  0 <= le_bytes l < 256 ^ zlength l.
Proof.
  unfold zlength. induction l as [|b t IH]; cbn [le_bytes List.length].
  - cbn. lia.
  - rewrite Nat2Z.inj_succ, Z.pow_succ_r by lia.
    pose proof (byte_val_range b). lia.
Qed.

Lemma le_bytes_firstn4 (l : list byte) : 0 <= le_bytes (firstn 4 l) < 2 ^ 32.
Proof.
  pose proof (le_bytes_range (firstn 4 l)) as H.
  assert (zlength (firstn 4 l) <= 4) as Hl
      by (unfold zlength; rewrite length_firstn; lia).
  assert (256 ^ zlength (firstn 4 l) <= 256 ^ 4) as Hp
      by (apply Z.pow_le_mono_r; unfold zlength in *; lia).
  change (256 ^ 4) with (2 ^ 32) in Hp. lia.
Qed.

Lemma size_t_small (x : Z) : 0 <= x < 2 ^ 64 -> size_t x = x.
Proof. intros H. unfold size_t, wrap. apply Z.mod_small. exact H. Qed.

Lemma size_t_range (x : Z) : 0 <= size_t x < 2 ^ 64.
Proof. unfold size_t, wrap. apply Z.mod_pos_bound. reflexivity. Qed.

Lemma size_t_add_l (x y : Z) : size_t (size_t x + y) = size_t (x + y).
Proof. unfold size_t, wrap. apply Zplus_mod_idemp_l. Qed.

Lemma int32_t_small (x : Z) : - 2 ^ 31 <= x < 2 ^ 31 -> int32_t x = x.
Proof.
  intros H. unfold int32_t, wrap. rewrite Z.mod_small; lia.
Qed.

Lemma int32_t_mul (x y : Z) : int32_t (int32_t x * y) = int32_t (x * y).
Proof.
  unfold int32_t, wrap.
  f_equal.
  replace ((x + 2 ^ 31) mod 2 ^ 32 - 2 ^ 31)
    with (x + - ((x + 2 ^ 31) / 2 ^ 32) * 2 ^ 32).
  - replace ((x + - ((x + 2 ^ 31) / 2 ^ 32) * 2 ^ 32) * y + 2 ^ 31)
      with (x * y + 2 ^ 31 + (- ((x + 2 ^ 31) / 2 ^ 32) * y) * 2 ^ 32) by ring.
    apply Z_mod_plus_full.
  - pose proof (Z.div_mod (x + 2 ^ 31) (2 ^ 32)). lia.
Qed.

(** ** The tag and type model *)

Lemma IS_SMALL_spec (size type : Z) :
  IS_SMALL size type = true <-> size <> 0 /\ type <> 0.
Proof.
  unfold IS_SMALL.
  rewrite andb_true_iff, !negb_true_iff, !Z.eqb_neq. tauto.
Qed.

Lemma small_fields (b0 b1 b2 b3 b4 b5 b6 b7 : byte) :
  let e := element_of_tag [b0; b1; b2; b3; b4; b5; b6; b7] in
  small_size e = le_bytes [b0; b1]
  /\ small_type e = le_bytes [b2; b3]
  /\ small_data e = le_bytes [b4; b5; b6; b7].
Proof.
  cbv zeta. unfold small_size, small_type, small_data, element_of_tag.
  cbn [large_type large_size firstn skipn le_bytes].
  pose proof (byte_val_range b0). pose proof (byte_val_range b1).
  pose proof (byte_val_range b2). pose proof (byte_val_range b3).
  split; [|split; [|reflexivity]].
  - change 65535 with (Z.ones 16). rewrite Z.land_ones by lia.
    change (2 ^ 16) with 65536.
    symmetry. apply (Z.mod_unique _ _ (byte_val b2 + 256 * byte_val b3)); lia.
  - rewrite Z.shiftr_div_pow2 by lia. change (2 ^ 16) with 65536.
    symmetry.
    apply (Z.div_unique _ _ _ (byte_val b0 + 256 * byte_val b1)); lia.
Qed.

Lemma is_large_is_small (e : matfile_data_element_t) :
  matfile_is_large e = 1 - matfile_is_small e.
Proof.
  unfold matfile_is_large, matfile_is_small.
  destruct (IS_SMALL (small_size e) (small_type e)); reflexivity.
Qed.

(** C10: [matfile_is_large] is the negation of [matfile_is_small]; on every
    element exactly one of the two predicates holds. *)
Theorem matfile_is_large_negates_is_small (e : matfile_data_element_t) :
  matfile_is_large e = 1 - matfile_is_small e
  /\ (matfile_is_small e = 1 /\ matfile_is_large e = 0
      \/ matfile_is_small e = 0 /\ matfile_is_large e = 1).
Proof.
  split; [apply is_large_is_small|].
  rewrite is_large_is_small. unfold matfile_is_small.
  destruct (IS_SMALL (small_size e) (small_type e)); cbn; auto.
Qed.

(** C6: the eight bytes of a tag, read as (size:16, type:16, payload:32),
    are classified small when size and type are both non-zero and large
    otherwise; [size=4][type=6] is small, the large tag [type=9][size=8] is
    large. *)
Theorem tag_classification (b0 b1 b2 b3 b4 b5 b6 b7 : byte) :
  let e := element_of_tag [b0; b1; b2; b3; b4; b5; b6; b7] in
  (matfile_is_small e = 1 <->
     le_bytes [b0; b1] <> 0 /\ le_bytes [b2; b3] <> 0)
  /\ (matfile_is_large e = 1 <->
        ~ (le_bytes [b0; b1] <> 0 /\ le_bytes [b2; b3] <> 0))
  /\ matfile_is_small
       (element_of_tag [x04; x00; x06; x00; b4; b5; b6; b7]) = 1
  /\ matfile_is_large
       (element_of_tag [x09; x00; x00; x00; x08; x00; x00; x00]) = 1.
Proof.
  cbv zeta.
  assert (matfile_is_small (element_of_tag [b0; b1; b2; b3; b4; b5; b6; b7])
          = Z.b2z (IS_SMALL (le_bytes [b0; b1]) (le_bytes [b2; b3]))) as Hsmall.
  { destruct (small_fields b0 b1 b2 b3 b4 b5 b6 b7) as (Hs & Ht & _).
    cbv zeta in Hs, Ht. unfold matfile_is_small. now rewrite Hs, Ht. }
  rewrite is_large_is_small, Hsmall.
  pose proof (IS_SMALL_spec (le_bytes [b0; b1]) (le_bytes [b2; b3])) as Hspec.
  split; [|split; [|split]].
  - destruct (IS_SMALL (le_bytes [b0; b1]) (le_bytes [b2; b3])); cbn [Z.b2z].
    + split; [intros _; apply Hspec; reflexivity | reflexivity].
    + split; [discriminate | intros H; apply Hspec in H; discriminate].
  - destruct (IS_SMALL (le_bytes [b0; b1]) (le_bytes [b2; b3])); cbn [Z.b2z].
    + split; [discriminate | intros H; exfalso; apply H, Hspec; reflexivity].
    + split; [intros _ H; apply Hspec in H; discriminate | reflexivity].
  - reflexivity.
  - reflexivity.
Qed.

(** ** The tape *)

Lemma zlength_nonneg {A : Type} (l : list A) : 0 <= zlength l.
Proof. unfold zlength. lia. Qed.

Lemma zlength_realloc (b : block) (n : Z) :
  0 <= n -> zlength (realloc b n) = n.
Proof.
  intros Hn. unfold zlength, realloc.
  rewrite length_app, length_firstn, repeat_length. lia.
Qed.

Lemma zlength_malloc (n : Z) : 0 <= n -> zlength (malloc n) = n.
Proof.
  intros Hn. unfold zlength, malloc. rewrite repeat_length. lia.
Qed.

Lemma tape_pop_capacity (t : Tape.tape_t) (n : Z) :
  Tape.max_length (Tape.tape_pop t n) = Tape.max_length t
  /\ Tape.elems (Tape.tape_pop t n) = Tape.elems t.
Proof.
  unfold Tape.tape_pop. destruct (Tape.cur_length t >? n); split; reflexivity.
Qed.

Lemma tape_pop_used (t : Tape.tape_t) (n : Z) :
  0 <= n -> 0 <= Tape.cur_length t < 2 ^ 64 ->
  Tape.cur_length (Tape.tape_pop t n) = Z.max 0 (Tape.cur_length t - n).
Proof.
  intros Hn Hc. unfold Tape.tape_pop.
  destruct (Tape.cur_length t >? n) eqn:E; cbn [Tape.cur_length].
  - apply Z.gtb_lt in E. rewrite size_t_small; lia.
  - rewrite Z.gtb_ltb in E. apply Z.ltb_ge in E. lia.
Qed.

(** The capacity changes only in [tape_push], only by doubling, and only
    when the reservation exceeds it. *)
Lemma tape_push_capacity (t : Tape.tape_t) (n : Z) :
  let t' := snd (Tape.tape_push t n) in
  (size_t (Tape.cur_length t + n) <= Tape.max_length t
   /\ Tape.max_length t' = Tape.max_length t
   /\ Tape.elems t' = Tape.elems t)
  \/ (size_t (Tape.cur_length t + n) > Tape.max_length t
      /\ Tape.max_length t' = size_t (Tape.max_length t * 2)
      /\ Tape.elems t' = realloc (Tape.elems t) (size_t (Tape.max_length t * 2))).
Proof.
  cbv zeta. unfold Tape.tape_push.
  destruct (size_t (Tape.cur_length t + n) >? Tape.max_length t) eqn:E;
    cbn [snd Tape.max_length Tape.elems].
  - right. apply Z.gtb_lt in E. repeat split; lia.
  - left. rewrite Z.gtb_ltb in E. apply Z.ltb_ge in E. repeat split; lia.
Qed.

Lemma tape_push_used (t : Tape.tape_t) (n : Z) :
  fst (Tape.tape_push t n) = Tape.cur_length t
  /\ Tape.cur_length (snd (Tape.tape_push t n)) = size_t (Tape.cur_length t + n).
Proof.
  unfold Tape.tape_push.
  destruct (size_t (Tape.cur_length t + n) >? Tape.max_length t);
    split; reflexivity.
Qed.

(** A reservation that one doubling can hold keeps the used length within the
    capacity. *)
Lemma tape_push_fits (t : Tape.tape_t) (n : Z) :
  0 <= n -> 0 <= Tape.cur_length t ->
  Tape.cur_length t + n <= 2 * Tape.max_length t ->
  2 * Tape.max_length t < 2 ^ 64 ->
  Tape.cur_length (snd (Tape.tape_push t n))
  <= Tape.max_length (snd (Tape.tape_push t n)).
Proof.
  intros Hn Hc Hfit Hmax.
  destruct (tape_push_used t n) as [_ Hu]. rewrite Hu.
  assert (size_t (Tape.cur_length t + n) = Tape.cur_length t + n) as Hs
      by (apply size_t_small; lia).
  destruct (tape_push_capacity t n) as [(Hle & Hm & _) | (Hgt & Hm & _)];
    cbv zeta in Hm; rewrite Hm.
  - lia.
  - rewrite Hs. rewrite size_t_small; lia.
Qed.

Lemma tape_create_sized (n : Z) : 0 <= n -> tape_sized (Tape.tape_create n).
Proof. intros Hn. apply zlength_malloc. exact Hn. Qed.

Lemma run_op_sized (t : Tape.tape_t) (o : Tape.op) :
  tape_sized t -> tape_sized (Tape.run_op t o).
Proof.
  unfold tape_sized. intros Hs. destruct o as [n | n]; cbn [Tape.run_op].
  - destruct (tape_push_capacity t n) as [(_ & Hm & He) | (_ & Hm & He)];
      cbv zeta in Hm, He; rewrite Hm, He.
    + exact Hs.
    + apply zlength_realloc. apply size_t_range.
  - destruct (tape_pop_capacity t n) as [Hm He]. rewrite Hm, He. exact Hs.
Qed.

Lemma run_ops_sized (os : list Tape.op) (t : Tape.tape_t) :
  tape_sized t -> tape_sized (Tape.run_ops t os).
Proof.
  revert t. induction os as [|o os IH]; intros t Hs; cbn.
  - exact Hs.
  - apply IH. apply run_op_sized. exact Hs.
Qed.

(** After reservations alone, the used length is the sum of the reserved
    sizes, in [size_t]. *)
Lemma run_op_used_range (t : Tape.tape_t) (o : Tape.op) :
  0 <= Tape.cur_length t < 2 ^ 64 ->
  0 <= Tape.cur_length (Tape.run_op t o) < 2 ^ 64.
Proof.
  intros Hc. destruct o as [n | n]; cbn [Tape.run_op].
  - destruct (tape_push_used t n) as [_ Hu]. rewrite Hu. apply size_t_range.
  - unfold Tape.tape_pop. destruct (Tape.cur_length t >? n);
      cbn [Tape.cur_length]; [apply size_t_range | lia].
Qed.

Lemma pushes_used (ns : list Z) (t : Tape.tape_t) :
  size_t (Tape.cur_length (Tape.run_ops t (map Tape.Push ns)))
  = size_t (Tape.cur_length t + Tape.sum ns).
Proof.
  revert t. induction ns as [|n ns IH]; intros t.
  - cbn. f_equal. lia.
  - cbn [map Tape.sum fold_right]. unfold Tape.run_ops. cbn [fold_left].
    fold (Tape.run_ops (Tape.run_op t (Tape.Push n)) (map Tape.Push ns)).
    rewrite IH. cbn [Tape.run_op].
    destruct (tape_push_used t n) as [_ Hu]. rewrite Hu.
    fold (Tape.sum ns). rewrite size_t_add_l. f_equal. lia.
Qed.

Lemma run_ops_used_range (os : list Tape.op) (t : Tape.tape_t) :
  0 <= Tape.cur_length t < 2 ^ 64 ->
  0 <= Tape.cur_length (Tape.run_ops t os) < 2 ^ 64.
Proof.
  revert t. induction os as [|o os IH]; intros t Hc; cbn.
  - exact Hc.
  - apply IH. apply run_op_used_range. exact Hc.
Qed.

(** After reservations alone on a new tape, the used length is the sum of
    the reserved sizes, in [size_t]. *)
Lemma pushes_sum (ns : list Z) (n : Z) :
  Tape.cur_length (Tape.run_ops (Tape.tape_create n) (map Tape.Push ns))
  = size_t (Tape.sum ns).
Proof.
  rewrite <- (size_t_small (Tape.cur_length _)).
  - rewrite pushes_used. reflexivity.
  - apply run_ops_used_range. cbn. lia.
Qed.

(** When the used length is positive and within the capacity, [tape_purge]
    returns a buffer of exactly the used length. *)
Lemma tape_purge_fits (t : Tape.tape_t) :
  tape_sized t ->
  0 < Tape.cur_length t <= Tape.max_length t ->
  exists elements,
    Tape.tape_purge t = Ok elements
    /\ zlength elements = Tape.cur_length t.
Proof.
  unfold tape_sized, Tape.tape_purge. intros Hs Hc.
  destruct (Tape.cur_length t <? Tape.max_length t) eqn:E.
  - replace (Tape.cur_length t =? 0) with false
      by (symmetry; apply Z.eqb_neq; lia).
    eexists. split; [reflexivity|]. apply zlength_realloc. lia.
  - apply Z.ltb_ge in E. eexists. split; [reflexivity|]. lia.
Qed.

(** Past the capacity, [tape_purge] returns the buffer as it is. *)
Lemma tape_purge_overfull (t : Tape.tape_t) :
  tape_sized t ->
  Tape.max_length t <= Tape.cur_length t ->
  Tape.tape_purge t = Ok (Tape.elems t)
  /\ zlength (Tape.elems t) = Tape.max_length t.
Proof.
  unfold tape_sized, Tape.tape_purge. intros Hs Hc.
  destruct (Tape.cur_length t <? Tape.max_length t) eqn:E.
  - apply Z.ltb_lt in E. lia.
  - split; [reflexivity | exact Hs].
Qed.

(** On a tape nothing is reserved of, [tape_purge] frees the buffer twice. *)
Lemma tape_purge_empty (t : Tape.tape_t) :
  Tape.cur_length t = 0 -> 0 < Tape.max_length t ->
  Tape.tape_purge t = Fault.
Proof.
  unfold Tape.tape_purge. intros -> Hm.
  replace (0 <? Tape.max_length t) with true
    by (symmetry; apply Z.ltb_lt; exact Hm).
  reflexivity.
Qed.

(** [tape_purge] consumes the handle: every later use of it is a use of a
    freed object. *)
Lemma purge_consumes (h : Tape.handle) (b : block) (h' : Tape.handle) :
  Tape.purge h = Ok (b, h') ->
  h' = Tape.Freed
  /\ (forall n, Tape.push h' n = Fault)
  /\ (forall n, Tape.pop h' n = Fault)
  /\ Tape.deref h' = Fault
  /\ Tape.purge h' = Fault
  /\ Tape.destroy h' = Fault.
Proof.
  destruct h as [t|]; cbn; intros H; [|discriminate].
  destruct (Tape.tape_purge t) as [elements| |]; cbn [bind] in H;
    try discriminate.
  injection H as _ <-. repeat split.
Qed.

(** C5, at [tape_create(16)] followed by [tape_push(tape, 100)]: the
    capacity doubles once, to 32, and the used length becomes 100, so the
    used length exceeds the capacity (and the size of the buffer). *)
Theorem tape_push_exceeds_capacity :
  let t := Tape.run_ops (Tape.tape_create 16) [Tape.Push 100] in
  Tape.cur_length t = 100
  /\ Tape.max_length t = 32
  /\ zlength (Tape.elems t) = 32
  /\ ~ Tape.cur_length t <= Tape.max_length t.
Proof.
  cbv zeta. repeat split. vm_compute. intros H. apply H. reflexivity.
Qed.

(** C9, at [tape_create(16)], [tape_push(tape, 100)], [tape_purge(tape)]:
    the used length is 100, the sum of the reservations, and the buffer
    returned by [tape_purge] has 32 bytes. *)
Theorem tape_purge_returns_capacity :
  let t := Tape.run_ops (Tape.tape_create 16) (map Tape.Push [100]) in
  Tape.cur_length t = Tape.sum [100]
  /\ Tape.cur_length t = 100
  /\ Tape.tape_purge t = Ok (Tape.elems t)
  /\ zlength (Tape.elems t) = 32
  /\ Tape.purge (Tape.Live t) = Ok (Tape.elems t, Tape.Freed).
Proof.
  cbv zeta. repeat split.
Qed.

(** ** Loads *)

Lemma initialised_length (c : list cell) (l : list byte) :
  initialised c = Some l -> List.length l = List.length c.
Proof.
  revert l. induction c as [|[b|] c IH]; cbn; intros l H.
  - injection H as <-. reflexivity.
  - destruct (initialised c) as [r|]; [|discriminate].
    injection H as <-. cbn. f_equal. apply IH. reflexivity.
  - discriminate.
Qed.

Lemma load_length (m : block) (off n : Z) (l : list byte) :
  load m off n = Ok l -> zlength l = n.
Proof.
  unfold load, cells, in_bounds. intros H.
  destruct ((0 <=? off) && (0 <=? n) && (off + n <=? zlength m)) eqn:E;
    [|discriminate].
  cbn [bind] in H.
  destruct (initialised _) as [r|] eqn:Ei; [|discriminate].
  injection H as <-.
  apply initialised_length in Ei.
  rewrite !andb_true_iff, !Z.leb_le in E. destruct E as [[Ho Hn] Hb].
  unfold zlength in *. rewrite Ei, length_firstn, length_skipn. lia.
Qed.

Lemma load_u32_range (m : block) (off v : Z) :
  load_u32 m off = Ok v -> 0 <= v < 2 ^ 32.
Proof.
  unfold load_u32. destruct (load m off 4) as [l| |] eqn:E; cbn [bind];
    intros H; try discriminate.
  injection H as <-.
  pose proof (le_bytes_range l) as Hr.
  rewrite (load_length _ _ _ _ E) in Hr. exact Hr.
Qed.

Lemma initialised_bytes (l : list byte) : initialised (map Some l) = Some l.
Proof.
  induction l as [|b l IH]; cbn; [reflexivity|]. rewrite IH. reflexivity.
Qed.

(** ** The numeric array assembler *)

Lemma count_elements_fold (ds : list Z) (a : Z) :
  fold_left (fun noelems d => int32_t (noelems * d)) ds (int32_t a)
  = int32_t (a * product ds).
Proof.
  revert a. induction ds as [|d ds IH]; intros a; cbn [fold_left product fold_right].
  - f_equal. lia.
  - rewrite int32_t_mul, IH. fold (product ds). f_equal. lia.
Qed.

(** The count the code computes is the product of the dimensions, reduced to
    the 32 bits of an [int]. *)
Lemma count_elements_int (array : matfile_array_t) :
  nodims array = zlength (dims array) ->
  count_elements array = Ok (int_count array).
Proof.
  intros Hn. unfold count_elements, int_count. rewrite Hn.
  pose proof (zlength_nonneg (dims array)).
  replace ((0 <=? zlength (dims array))
           && (zlength (dims array) <=? zlength (dims array))) with true
    by (symmetry; apply andb_true_iff; split; apply Z.leb_le; lia).
  unfold zlength. rewrite Nat2Z.id, firstn_all.
  change 1 with (int32_t 1) at 1.
  rewrite count_elements_fold. do 2 f_equal. lia.
Qed.

Lemma numerical_type_cases (type : Z) :
  is_numerical_type type = true ->
  type = 1 \/ type = 2 \/ type = 3 \/ type = 4 \/ type = 5 \/ type = 6
  \/ type = 7 \/ type = 9 \/ type = 12 \/ type = 13.
Proof.
  unfold is_numerical_type, MFDT_INT8, MFDT_SINGLE, MFDT_DOUBLE, MFDT_INT64,
    MFDT_UINT64.
  rewrite !orb_true_iff, andb_true_iff, !Z.leb_le, !Z.eqb_eq.
  lia.
Qed.

Lemma numerical_type_size (type : Z) :
  is_numerical_type type = true -> 1 <= type_byte_size type <= 8.
Proof.
  intros H. apply numerical_type_cases in H.
  repeat (destruct H as [-> | H]; [vm_compute; split; discriminate|]).
  subst. vm_compute. split; discriminate.
Qed.

Lemma parse_numerical_part_ok (array : matfile_array_t) (data : block)
    (len : Z) (part : matfile_numerical_part_t) (next : Z) :
  parse_numerical_part array data len = Ok (part, next) ->
  exists type size noelems payload,
    load_u32 data 0 = Ok type
    /\ load_u32 data 4 = Ok size
    /\ is_numerical_type type = true
    /\ count_elements array = Ok noelems
    /\ size_t (8 + size) <= len
    /\ size = size_t (type_byte_size type * noelems)
    /\ load data 8 size = Ok payload
    /\ part = PartData payload
    /\ next = 8 + size.
Proof.
  unfold parse_numerical_part. intros H.
  destruct (len <? 8); [discriminate|].
  destruct (load_u32 data 4) as [size| |]; cbn [bind] in H; try discriminate.
  destruct (len <? size_t (8 + size)) eqn:El; [discriminate|].
  destruct (load_u32 data 0) as [type| |]; cbn [bind] in H; try discriminate.
  destruct (is_numerical_type type) eqn:En; cbn [negb] in H; [|discriminate].
  destruct (count_elements array) as [n| |]; cbn [bind] in H; try discriminate.
  fold (type_byte_size type) in H.
  destruct (size =? size_t (type_byte_size type * n)) eqn:Es;
    cbn [negb] in H; [|discriminate].
  apply Z.eqb_eq in Es.
  rewrite <- Es in H.
  destruct (load data 8 size) as [payload| |] eqn:Ep; cbn [bind] in H;
    try discriminate.
  injection H as <- <-.
  apply Z.ltb_ge in El.
  exists type, size, n, payload. repeat split; auto.
Qed.

Lemma parse_numerical_part_mismatch (array : matfile_array_t) (data : block)
    (len type size noelems : Z) :
  load_u32 data 0 = Ok type ->
  load_u32 data 4 = Ok size ->
  count_elements array = Ok noelems ->
  size <> size_t (type_byte_size type * noelems) ->
  parse_numerical_part array data len = Null.
Proof.
  intros Ht Hs Hc Hne. unfold parse_numerical_part.
  destruct (len <? 8); [reflexivity|].
  rewrite Hs. cbn [bind].
  destruct (len <? size_t (8 + size)); [reflexivity|].
  rewrite Ht. cbn [bind].
  destruct (is_numerical_type type); cbn [negb]; [|reflexivity].
  rewrite Hc. cbn [bind]. fold (type_byte_size type).
  apply Z.eqb_neq in Hne. rewrite Hne. reflexivity.
Qed.

(** For a numeric type and a declared size of 32 bits, the comparison the
    code makes in [size_t] is the comparison with the byte size times the
    [int] count. *)
Lemma size_check_int (type size n : Z) :
  is_numerical_type type = true ->
  0 <= size < 2 ^ 32 ->
  - 2 ^ 31 <= n < 2 ^ 31 ->
  size = size_t (type_byte_size type * n) <-> size = type_byte_size type * n.
Proof.
  intros Hn Hs Hr. pose proof (numerical_type_size type Hn) as Ht.
  destruct (Z_lt_le_dec n 0) as [Hneg | Hpos].
  - assert (size_t (type_byte_size type * n)
            = type_byte_size type * n + 2 ^ 64) as ->.
    { unfold size_t, wrap. symmetry.
      apply (Z.mod_unique _ _ (-1)); nia. }
    split; intros; nia.
  - rewrite size_t_small by nia. tauto.
Qed.

Lemma int32_t_range (x : Z) : - 2 ^ 31 <= int32_t x < 2 ^ 31.
Proof.
  unfold int32_t, wrap.
  pose proof (Z.mod_pos_bound (x + 2 ^ 31) (2 ^ 32) eq_refl). lia.
Qed.

(** The size rule with the product of the dimensions fails: the dimensions
    641 x 6700417 have the product 2^32 + 1, and a real part of one [miINT8]
    byte parses. *)
Lemma size_rule_exact_fails : ~ size_rule exact_count.
Proof.
  intros H.
  specialize (H (array_of_dims [641; 6700417]) (bytes_block int8_1) 9
                (PartData [x2a]) 9 1 1 eq_refl eq_refl eq_refl eq_refl).
  vm_compute in H. discriminate.
Qed.

(** What the size check does do: a numeric part parses only when its
    declared size is the byte size of its type times the count the code has
    computed in an [int], and the call returns null otherwise; that count is
    the product of the dimension values whenever the product fits an [int];
    a [miDOUBLE] part of 40 bytes for the dimensions 2 x 3 is refused. *)
Lemma size_rule_int :
  size_rule int_count
  /\ (forall array data len type size,
        nodims array = zlength (dims array) ->
        load_u32 data 0 = Ok type ->
        load_u32 data 4 = Ok size ->
        is_numerical_type type = true ->
        size <> type_byte_size type * int_count array ->
        parse_numerical_part array data len = Null)
  /\ (forall array,
        - 2 ^ 31 <= exact_count array < 2 ^ 31 ->
        int_count array = exact_count array)
  /\ parse_numerical_part (array_of_dims [2; 3]) (bytes_block double_40) 48
     = Null.
Proof.
  split; [|split; [|split]].
  - intros array data len part next type size Hwf Ht Hs Hok.
    apply parse_numerical_part_ok in Hok.
    destruct Hok as (type' & size' & n & payload & Ht' & Hs' & Hn & Hc & _ & He & _).
    rewrite Ht in Ht'. injection Ht' as <-.
    rewrite Hs in Hs'. injection Hs' as <-.
    rewrite (count_elements_int array Hwf) in Hc. injection Hc as <-.
    apply (size_check_int type size (int_count array) Hn); auto.
    + apply (load_u32_range _ _ _ Hs).
    + apply int32_t_range.
  - intros array data len type size Hwf Ht Hs Hn Hne.
    apply (parse_numerical_part_mismatch array data len type size
             (int_count array)); auto.
    + apply count_elements_int. exact Hwf.
    + intros He. apply Hne.
      apply (size_check_int type size (int_count array) Hn); auto.
      * apply (load_u32_range _ _ _ Hs).
      * apply int32_t_range.
  - intros array Hr. unfold int_count. apply int32_t_small. exact Hr.
  - vm_compute. reflexivity.
Qed.

(** C4, at the dimensions 641 x 6700417 and a real part that declares one
    [miINT8] byte.  The product of the dimension values is 2^32 + 1; the
    code multiplies them in an [int] without a check, the [int] overflows
    (to 1, with two's complement wrap-around), and the part parses although
    its declared size, 1, is not the byte size of [miINT8] times the product
    of the dimension values.  Where the product fits an [int] the check is
    the one the claim states: a [miDOUBLE] part that declares 40 bytes for
    the dimensions 2 x 3 is refused, one that declares 48 bytes parses. *)
Theorem int_overflow_passes_size_check :
  let array := array_of_dims [641; 6700417] in
  exact_count array = 2 ^ 32 + 1
  /\ load_u32 (bytes_block int8_1) 0 = Ok MFDT_INT8
  /\ load_u32 (bytes_block int8_1) 4 = Ok 1
  /\ count_elements array = Ok 1
  /\ parse_numerical_part array (bytes_block int8_1) 9
     = Ok (PartData [x2a], 9)
  /\ 1 <> type_byte_size MFDT_INT8 * exact_count array
  /\ ~ size_rule exact_count
  /\ parse_numerical_part (array_of_dims [2; 3]) (bytes_block double_40) 48
     = Null
  /\ parse_numerical_part (array_of_dims [2; 3]) (bytes_block double_48) 56
     = Ok (PartData (repeat x00 48), 56).
Proof.
  cbv zeta.
  split; [reflexivity|]. split; [reflexivity|]. split; [reflexivity|].
  split; [reflexivity|]. split; [vm_compute; reflexivity|].
  split; [vm_compute; discriminate|].
  split; [exact size_rule_exact_fails|].
  split; vm_compute; reflexivity.
Qed.

(** ** The element parser *)

Lemma padding_residue (n : Z) :
  (if negb (n mod MATFILE_ALIGNMENT =? 0)
   then MATFILE_ALIGNMENT - n mod MATFILE_ALIGNMENT else 0)
  = padding_of n.
Proof.
  unfold padding_of, MATFILE_ALIGNMENT, MF_ALIGNMENT.
  pose proof (Z.mod_pos_bound n 8 eq_refl) as Hr.
  destruct (n mod 8 =? 0) eqn:E; cbn [negb].
  - apply Z.eqb_eq in E. rewrite E. reflexivity.
  - apply Z.eqb_neq in E. rewrite (Z.mod_small (8 - n mod 8)); lia.
Qed.

Lemma padding_of_spec (n : Z) :
  (n + padding_of n) mod 8 = 0 /\ 0 <= padding_of n < 8.
Proof.
  unfold padding_of, MF_ALIGNMENT.
  pose proof (Z.mod_pos_bound n 8 eq_refl) as Hr.
  pose proof (Z.mod_pos_bound (8 - n mod 8) 8 eq_refl) as Hp.
  split; [|exact Hp].
  rewrite Zplus_mod_idemp_r.
  rewrite <- Zplus_mod_idemp_l.
  destruct (Z.eq_dec (n mod 8) 0) as [E | E].
  - rewrite E. reflexivity.
  - replace (n mod 8 + (8 - n mod 8)) with 8 by lia. reflexivity.
Qed.

Lemma element_of_tag_range (tag : list byte) :
  0 <= large_size (element_of_tag tag) < 2 ^ 32
  /\ 0 <= large_type (element_of_tag tag) < 2 ^ 32.
Proof.
  unfold element_of_tag. cbn [large_size large_type].
  split; apply le_bytes_firstn4.
Qed.

(** What one iteration adds to the cursor after the eight bytes of the tag:
    nothing for a small element, the declared size for a compressed one, the
    declared size and its padding for the others. *)
Lemma parse_step_offset (codec : zlib_codec) (data : block)
    (st st' : parser_state) (tag : list byte) :
  load data (offset st) 8 = Ok tag ->
  parse_step codec data st = Ok st' ->
  offset st'
  = size_t (offset st + 8
            + (if matfile_is_small (element_of_tag tag) =? 0
               then if large_type (element_of_tag tag) =? MFDT_COMPRESSED
                    then large_size (element_of_tag tag)
                    else large_size (element_of_tag tag)
                         + padding_of (large_size (element_of_tag tag))
               else 0)).
Proof.
  intros Hload H. unfold parse_step in H.
  destruct (Tape.tape_push (tape st) 24) as [p tp].
  rewrite Hload in H. cbn [bind] in H.
  destruct (in_bounds (Tape.elems tp) p 24); cbn [negb] in H; [|discriminate].
  destruct (element_of_tag_range tag) as [Hsz _].
  set (e := element_of_tag tag) in *.
  destruct (matfile_is_small e =? 0); cbn [negb] in H.
  2:{ injection H as <-. cbn [offset]. f_equal. lia. }
  destruct (valid_data_type (large_type e)); cbn [negb] in H; [|discriminate].
  destruct (large_type e =? MFDT_COMPRESSED).
  - destruct (decompress_data_element codec e _) as [[e' buf]| |];
      cbn [bind fst snd] in H; try discriminate.
    destruct (large_type e' =? MFDT_MATRIX).
    + destruct (parse_array buf (large_size e')); cbn [bind] in H;
        try discriminate; injection H as <-; cbn [offset];
        rewrite size_t_add_l; f_equal; lia.
    + destruct (load buf 0 (large_size e)); cbn [bind] in H;
        try discriminate; injection H as <-; cbn [offset];
        rewrite size_t_add_l; f_equal; lia.
  - cbn [bind] in H. rewrite padding_residue in H.
    pose proof (padding_of_spec (large_size e)) as [_ Hp].
    rewrite (size_t_small (large_size e + _)) in H by lia.
    destruct (large_type e =? MFDT_MATRIX).
    + destruct (parse_array _ (large_size e)); cbn [bind] in H;
        try discriminate; injection H as <-; cbn [offset];
        rewrite size_t_add_l; f_equal; lia.
    + destruct (load _ 0 _); cbn [bind] in H;
        try discriminate; injection H as <-; cbn [offset];
        rewrite size_t_add_l; f_equal; lia.
Qed.

Lemma parse_step_tag (codec : zlib_codec) (data : block)
    (st st' : parser_state) :
  parse_step codec data st = Ok st' ->
  exists tag, load data (offset st) 8 = Ok tag.
Proof.
  unfold parse_step. intros H.
  destruct (Tape.tape_push (tape st) 24) as [p tp].
  destruct (load data (offset st) 8) as [tag| |]; cbn [bind] in H;
    try discriminate.
  exists tag. reflexivity.
Qed.

(** Every iteration moves the cursor forward, by eight bytes at least. *)
Lemma parse_step_progress (codec : zlib_codec) (data : block)
    (st st' : parser_state) :
  0 <= offset st < 2 ^ 63 ->
  parse_step codec data st = Ok st' ->
  offset st + 8 <= offset st' < offset st + 2 ^ 33.
Proof.
  intros Ho H.
  destruct (parse_step_tag _ _ _ _ H) as [tag Htag].
  rewrite (parse_step_offset _ _ _ _ _ Htag H).
  destruct (element_of_tag_range tag) as [Hsz _].
  pose proof (padding_of_spec (large_size (element_of_tag tag))) as [_ Hp].
  destruct (matfile_is_small (element_of_tag tag) =? 0);
    [destruct (large_type (element_of_tag tag) =? MFDT_COMPRESSED)|];
    rewrite size_t_small; lia.
Qed.

(** The loop ends within [length] iterations, for every buffer length the
    cursor arithmetic cannot wrap at. *)
Lemma parse_loop_terminates (codec : zlib_codec) (data : block) (length : Z) :
  length <= 2 ^ 63 ->
  forall (fuel : nat) (st : parser_state),
    0 <= offset st ->
    length - offset st <= Z.of_nat fuel ->
    parse_loop codec fuel data length st <> None.
Proof.
  intros Hlen. induction fuel as [|fuel IH]; intros st Ho Hf;
    cbn [parse_loop]; destruct (offset st <? length) eqn:E;
    try discriminate; apply Z.ltb_lt in E.
  - lia.
  - destruct (parse_step codec data st) as [st'| |] eqn:Hs; try discriminate.
    assert (0 <= offset st < 2 ^ 63) as Hr by lia.
    pose proof (parse_step_progress codec data st st' Hr Hs) as Hp.
    apply IH; lia.
Qed.

Lemma parse_data_elements_returns (codec : zlib_codec) (data : block)
    (length : Z) :
  length <= 2 ^ 63 -> parse_data_elements codec data length <> None.
Proof.
  intros Hlen. unfold parse_data_elements.
  pose proof (parse_loop_terminates codec data length Hlen
                (Z.to_nat length) initial_state) as H.
  destruct (parse_loop codec (Z.to_nat length) data length initial_state)
    as [[st| |]|]; try discriminate.
  exfalso. apply H; cbn [offset initial_state]; [lia | lia | reflexivity].
Qed.

(** An element of a type that is neither compressed nor a matrix is copied
    with its padding, when the padded payload can be read. *)
Lemma parse_step_raw (codec : zlib_codec) (data : block) (st : parser_state)
    (tag bytes : list byte) :
  let e := element_of_tag tag in
  load data (offset st) 8 = Ok tag ->
  matfile_is_small e = 0 ->
  valid_data_type (large_type e) = true ->
  large_type e <> MFDT_COMPRESSED ->
  large_type e <> MFDT_MATRIX ->
  tape_room (tape st) ->
  load (advance data (size_t (offset st + 8))) 0
       (large_size e + padding_of (large_size e)) = Ok bytes ->
  parse_step codec data st
  = Ok (mk_state
          (size_t (offset st + 8 + (large_size e + padding_of (large_size e))))
          (snd (Tape.tape_push (tape st) 24))
          (elements st ++ [set_data e (Data bytes)])).
Proof.
  cbv zeta. intros Hload Hsmall Hvalid Hc Hm Hroom Hbytes.
  unfold tape_room in Hroom. unfold parse_step.
  destruct (Tape.tape_push (tape st) 24) as [p tp]. cbn [fst snd] in *.
  rewrite Hload. cbn [bind]. rewrite Hroom. cbn [negb].
  destruct (element_of_tag_range tag) as [Hsz _].
  set (e := element_of_tag tag) in *.
  rewrite Hsmall. cbn [Z.eqb negb]. rewrite Hvalid. cbn [negb].
  apply Z.eqb_neq in Hc. rewrite Hc. cbn [bind].
  apply Z.eqb_neq in Hm. rewrite Hm.
  rewrite padding_residue.
  pose proof (padding_of_spec (large_size e)) as [_ Hp].
  rewrite (size_t_small (large_size e + _)) by lia.
  rewrite Hbytes. cbn [bind]. rewrite size_t_add_l. reflexivity.
Qed.

(** A tape that holds its elements within its capacity has room for the next
    one. *)
Lemma tape_room_fits (t : Tape.tape_t) :
  tape_sized t ->
  0 <= Tape.cur_length t <= Tape.max_length t ->
  24 <= Tape.max_length t ->
  2 * Tape.max_length t < 2 ^ 64 ->
  tape_room t.
Proof.
  unfold tape_sized, tape_room. intros Hs Hc H24 Hmax.
  destruct (tape_push_used t 24) as [Hp _]. rewrite Hp.
  unfold in_bounds. rewrite !andb_true_iff, !Z.leb_le.
  repeat split; try lia.
  destruct (tape_push_capacity t 24) as [(Hle & _ & He) | (_ & _ & He)];
    cbv zeta in He; rewrite He.
  - rewrite size_t_small in Hle by lia. lia.
  - rewrite zlength_realloc by apply size_t_range.
    rewrite size_t_small; lia.
Qed.

(** C8: a large element of a type other than compressed, of declared size
    [n], moves the cursor by 8 + [m] bytes, [m] being [n] rounded up to the
    next multiple of 8 (in [size_t], hence exactly when that does not wrap);
    the iteration does return when the type is valid and not a matrix, the
    tape has room and the padded payload is readable; a declared size of 5
    moves the cursor from 0 to 16. *)
Theorem large_element_cursor :
  (forall codec data st tag,
     load data (offset st) 8 = Ok tag ->
     matfile_is_large (element_of_tag tag) = 1 ->
     large_type (element_of_tag tag) <> MFDT_COMPRESSED ->
     exists m,
       m mod 8 = 0
       /\ large_size (element_of_tag tag) <= m
          < large_size (element_of_tag tag) + 8
       /\ (forall st',
             parse_step codec data st = Ok st' ->
             offset st' = size_t (offset st + 8 + m)
             /\ (0 <= offset st -> offset st + 8 + m < 2 ^ 64 ->
                 offset st' = offset st + 8 + m))
       /\ (valid_data_type (large_type (element_of_tag tag)) = true ->
           large_type (element_of_tag tag) <> MFDT_MATRIX ->
           tape_room (tape st) ->
           forall bytes,
             load (advance data (size_t (offset st + 8))) 0 m = Ok bytes ->
             exists st',
               parse_step codec data st = Ok st'
               /\ offset st' = size_t (offset st + 8 + m)))
  /\ (forall codec,
        exists st',
          parse_step codec (bytes_block five_int8) initial_state = Ok st'
          /\ large_size (element_of_tag (firstn 8 five_int8)) = 5
          /\ offset initial_state = 0
          /\ offset st' = 16).
Proof.
  split.
  - intros codec data st tag Hload Hlarge Hc.
    rewrite is_large_is_small in Hlarge.
    assert (matfile_is_small (element_of_tag tag) = 0) as Hsmall by lia.
    set (e := element_of_tag tag) in *.
    pose proof (padding_of_spec (large_size e)) as [Hmod Hp].
    exists (large_size e + padding_of (large_size e)).
    split; [exact Hmod|]. split; [lia|]. split.
    + intros st' Hstep.
      pose proof (parse_step_offset codec data st st' tag Hload Hstep) as Ho.
      fold e in Ho. rewrite Hsmall in Ho. cbn [Z.eqb] in Ho.
      apply Z.eqb_neq in Hc. rewrite Hc in Ho.
      split; [exact Ho|].
      intros H0 Hlt. rewrite Ho. apply size_t_small.
      destruct (element_of_tag_range tag) as [Hsz _]. fold e in Hsz. lia.
    + intros Hvalid Hm Hroom bytes Hbytes.
      eexists. split.
      * apply (parse_step_raw codec data st tag bytes); assumption.
      * reflexivity.
  - intros codec. eexists. split; [vm_compute; reflexivity|].
    repeat split.
Qed.

Lemma large_element_cursor_witness :
  exists m,
    m mod 8 = 0
    /\ 5 <= m < 5 + 8
    /\ (forall st',
          parse_step stored_codec (bytes_block five_int8) initial_state
          = Ok st' ->
          offset st' = size_t (0 + 8 + m)
          /\ (0 <= 0 -> 0 + 8 + m < 2 ^ 64 -> offset st' = 0 + 8 + m))
    /\ (valid_data_type 1 = true ->
        1 <> MFDT_MATRIX ->
        tape_room (tape initial_state) ->
        forall bytes,
          load (advance (bytes_block five_int8) (size_t (0 + 8))) 0 m
          = Ok bytes ->
          exists st',
            parse_step stored_codec (bytes_block five_int8) initial_state
            = Ok st'
            /\ offset st' = size_t (0 + 8 + m)).
Proof.
  apply (proj1 large_element_cursor stored_codec (bytes_block five_int8)
               initial_state (firstn 8 five_int8)).
  - reflexivity.
  - reflexivity.
  - discriminate.
Defined.

(** A matrix element whose array does not parse is kept, with a null array:
    the iteration goes on. *)
Lemma parse_step_matrix_null (codec : zlib_codec) (data : block)
    (st : parser_state) (tag : list byte) :
  let e := element_of_tag tag in
  load data (offset st) 8 = Ok tag ->
  matfile_is_small e = 0 ->
  large_type e = MFDT_MATRIX ->
  tape_room (tape st) ->
  parse_array (advance data (size_t (offset st + 8))) (large_size e) = Null ->
  parse_step codec data st
  = Ok (mk_state
          (size_t (offset st + 8 + (large_size e + padding_of (large_size e))))
          (snd (Tape.tape_push (tape st) 24))
          (elements st ++ [set_data e DataNull])).
Proof.
  cbv zeta. intros Hload Hsmall Htype Hroom Harray.
  unfold tape_room in Hroom. unfold parse_step.
  destruct (Tape.tape_push (tape st) 24) as [p tp]. cbn [fst snd] in *.
  rewrite Hload. cbn [bind]. rewrite Hroom. cbn [negb].
  destruct (element_of_tag_range tag) as [Hsz _].
  set (e := element_of_tag tag) in *.
  rewrite Hsmall, Htype.
  change (valid_data_type MFDT_MATRIX) with true.
  change (MFDT_MATRIX =? MFDT_COMPRESSED) with false.
  cbn [Z.eqb negb bind]. rewrite Htype.
  change (MFDT_MATRIX =? MFDT_MATRIX) with true.
  rewrite Harray. cbn [bind].
  rewrite padding_residue.
  pose proof (padding_of_spec (large_size e)) as [_ Hp].
  rewrite (size_t_small (large_size e + _)) by lia.
  rewrite size_t_add_l. reflexivity.
Qed.

(** A compressed element that wraps an element of another type than matrix:
    the payload kept is read from the inflated block with the declared size
    of the compressed element, not with the size of the element it wraps;
    the cursor moves by the tag and the declared size of the compressed
    element. *)
Lemma parse_step_compressed_raw (codec : zlib_codec) (data : block)
    (st : parser_state) (tag : list byte) (e' : matfile_data_element_t)
    (inflated : block) :
  let e := element_of_tag tag in
  load data (offset st) 8 = Ok tag ->
  matfile_is_small e = 0 ->
  large_type e = MFDT_COMPRESSED ->
  tape_room (tape st) ->
  decompress_data_element codec e (advance data (size_t (offset st + 8)))
  = Ok (e', inflated) ->
  large_type e' <> MFDT_MATRIX ->
  parse_step codec data st
  = (bytes <- load inflated 0 (large_size e) ;;
     Ok (mk_state (size_t (offset st + 8 + large_size e))
                  (snd (Tape.tape_push (tape st) 24))
                  (elements st ++ [set_data e' (Data bytes)]))).
Proof.
  cbv zeta. intros Hload Hsmall Htype Hroom Hz Hm.
  unfold tape_room in Hroom. unfold parse_step.
  destruct (Tape.tape_push (tape st) 24) as [p tp]. cbn [fst snd] in *.
  rewrite Hload. cbn [bind]. rewrite Hroom. cbn [negb].
  set (e := element_of_tag tag) in *.
  rewrite Hsmall, Htype.
  change (valid_data_type MFDT_COMPRESSED) with true.
  change (MFDT_COMPRESSED =? MFDT_COMPRESSED) with true.
  cbn [Z.eqb negb]. rewrite Hz. cbn [bind fst snd].
  apply Z.eqb_neq in Hm. rewrite Hm.
  destruct (load inflated 0 (large_size e)); cbn [bind]; try reflexivity.
  rewrite size_t_add_l. reflexivity.
Qed.

(** A compressed element that wraps a matrix: the element takes the type and
    the size of the matrix and the array parsed from the inflated block. *)
Lemma parse_step_compressed_matrix (codec : zlib_codec) (data : block)
    (st : parser_state) (tag : list byte) (e' : matfile_data_element_t)
    (inflated : block) (array : matfile_array_t) :
  let e := element_of_tag tag in
  load data (offset st) 8 = Ok tag ->
  matfile_is_small e = 0 ->
  large_type e = MFDT_COMPRESSED ->
  tape_room (tape st) ->
  decompress_data_element codec e (advance data (size_t (offset st + 8)))
  = Ok (e', inflated) ->
  large_type e' = MFDT_MATRIX ->
  parse_array inflated (large_size e') = Ok array ->
  parse_step codec data st
  = Ok (mk_state (size_t (offset st + 8 + large_size e))
                 (snd (Tape.tape_push (tape st) 24))
                 (elements st ++ [set_data e' (Array array)])).
Proof.
  cbv zeta. intros Hload Hsmall Htype Hroom Hz Hm Harray.
  unfold tape_room in Hroom. unfold parse_step.
  destruct (Tape.tape_push (tape st) 24) as [p tp]. cbn [fst snd] in *.
  rewrite Hload. cbn [bind]. rewrite Hroom. cbn [negb].
  set (e := element_of_tag tag) in *.
  rewrite Hsmall, Htype.
  change (valid_data_type MFDT_COMPRESSED) with true.
  change (MFDT_COMPRESSED =? MFDT_COMPRESSED) with true.
  cbn [Z.eqb negb]. rewrite Hz. cbn [bind fst snd].
  rewrite Hm. change (MFDT_MATRIX =? MFDT_MATRIX) with true.
  rewrite Harray. cbn [bind].
  rewrite size_t_add_l. reflexivity.
Qed.

(** C1, at the matrix payloads of the classes cell, struct, object, char
    and sparse: [parse_array] returns an array, whose numeric parts were
    never assigned, and the file body that holds the cell array parses to an
    element with that array. *)
Theorem unsupported_class_returns_array :
  Forall (fun class =>
            unsupported_class (byte_val class) = true
            /\ parse_array (bytes_block (class_payload class)) 48
               = Ok (mk_array (byte_val class) [1; 1] [x63; x00] 2 1
                              PartUninit PartUninit))
         [x01; x02; x03; x04; x05]
  /\ (forall codec,
        parse_data_elements codec (bytes_block cell_matrix) 56
        = Some (Ok [mk_element MFDT_MATRIX 48
                      (Array (mk_array MFMX_CELL_CLASS [1; 1] [x63; x00] 2 1
                                       PartUninit PartUninit)) 0])).
Proof.
  split.
  - repeat constructor.
  - intros codec. vm_compute. reflexivity.
Qed.

(** C2, at a file body of one matrix element whose payload is too short for
    the array flags: [parse_array] returns null, and [parse_data_elements]
    returns the sequence of that one element, with a null array. *)
Theorem matrix_failure_does_not_fail_the_parse :
  forall codec,
    parse_array (advance (bytes_block short_matrix) 8) 8 = Null
    /\ parse_data_elements codec (bytes_block short_matrix) 16
       = Some (Ok [mk_element MFDT_MATRIX 8 DataNull 0]).
Proof.
  intros codec. split; vm_compute; reflexivity.
Qed.

(** C3, at a file body of 12 bytes whose element declares 16 bytes of data:
    the 16 bytes are read, 12 of them past the end of the input.  In a block
    that ends with the input the parse faults; in a block that goes on, the
    call returns the element with the bytes that follow the input. *)
Theorem truncated_element_is_read_past_the_end :
  forall codec,
    zlength truncated_int8 = 12
    /\ parse_data_elements codec (bytes_block truncated_int8) 12 = Some Fault
    /\ parse_data_elements codec
         (bytes_block (truncated_int8 ++ foreign_bytes)) 12
       = Some (Ok [mk_element MFDT_INT8 16
                     (Data ([x0a; x0b; x0c; x0d] ++ foreign_bytes)) 0]).
Proof.
  intros codec. repeat split; vm_compute; reflexivity.
Qed.

(** C7, at a file body of one compressed element of 35 bytes that wraps an
    [miINT8] element of 16 bytes: the element takes the type and the size of
    the wrapped one, and the parser then copies 35 bytes, the declared size
    of the compressed element, from the inflated block of 16 bytes.  A
    compressed element that wraps a matrix, followed by a second element, is
    parsed as specified: the second tag is read at 8 + 83. *)
Theorem compressed_payload_is_copied_with_the_compressed_size :
  decompress_data_element stored_codec
    (element_of_tag (firstn 8 compressed_int8))
    (advance (bytes_block compressed_int8) 8)
  = Ok (mk_element MFDT_INT8 16 DataNull 0,
        bytes_block [x41; x42; x43; x44; x45; x46; x47; x48;
                     x49; x4a; x4b; x4c; x4d; x4e; x4f; x50])
  /\ parse_data_elements stored_codec (bytes_block compressed_int8) 43
     = Some Fault
  /\ parse_data_elements stored_codec
       (bytes_block (compressed_matrix ++ five_int8)) (91 + 16)
     = Some (Ok [mk_element MFDT_MATRIX 64 (Array array_a) 0;
                 mk_element MFDT_INT8 5
                   (Data [x0a; x0b; x0c; x0d; x0e; x00; x00; x00]) 0]).
Proof.
  repeat split; vm_compute; reflexivity.
Qed.

(** ** Further properties of the inputs the parser accepts *)

Lemma load_out_of_bounds (m : block) (off n : Z) :
  zlength m < off + n -> load m off n = Fault.
Proof.
  intros H. unfold load, cells, in_bounds.
  replace (off + n <=? zlength m) with false
    by (symmetry; apply Z.leb_gt; exact H).
  rewrite andb_false_r. reflexivity.
Qed.

Lemma zlength_advance (m : block) (off : Z) :
  0 <= off -> zlength (advance m off) = Z.max 0 (zlength m - off).
Proof.
  intros H. unfold zlength, advance. rewrite length_skipn. lia.
Qed.

(** An element of a type that is neither compressed nor a matrix, whose
    padded payload runs past the end of the block that holds the input: the
    iteration reads past the end; it does not report a failure. *)
Lemma parse_step_truncated (codec : zlib_codec) (data : block)
    (st : parser_state) (tag : list byte) :
  let e := element_of_tag tag in
  load data (offset st) 8 = Ok tag ->
  matfile_is_small e = 0 ->
  valid_data_type (large_type e) = true ->
  large_type e <> MFDT_COMPRESSED ->
  large_type e <> MFDT_MATRIX ->
  tape_room (tape st) ->
  0 <= zlength data - size_t (offset st + 8)
  < large_size e + padding_of (large_size e) ->
  parse_step codec data st = Fault.
Proof.
  cbv zeta. intros Hload Hsmall Hvalid Hc Hm Hroom Hshort.
  unfold tape_room in Hroom. unfold parse_step.
  destruct (Tape.tape_push (tape st) 24) as [p tp]. cbn [fst snd] in *.
  rewrite Hload. cbn [bind]. rewrite Hroom. cbn [negb].
  destruct (element_of_tag_range tag) as [Hsz _].
  set (e := element_of_tag tag) in *.
  rewrite Hsmall. cbn [Z.eqb negb]. rewrite Hvalid. cbn [negb].
  apply Z.eqb_neq in Hc. rewrite Hc. cbn [bind].
  apply Z.eqb_neq in Hm. rewrite Hm.
  rewrite padding_residue.
  pose proof (padding_of_spec (large_size e)) as [_ Hp].
  rewrite (size_t_small (large_size e + _)) by lia.
  rewrite load_out_of_bounds; [reflexivity|].
  rewrite zlength_advance by apply size_t_range. lia.
Qed.

(** Whatever [parse_array] returns for a class the assembler does not
    support is an array whose numeric parts were never assigned. *)
Lemma parse_array_unsupported (data : block) (length : Z)
    (array : matfile_array_t) :
  parse_array data length = Ok array ->
  unsupported_class (Z.land (flags array) 255) = true ->
  pr array = PartUninit /\ pi array = PartUninit.
Proof.
  unfold parse_array. intros H Hu.
  repeat match type of H with
         | (if ?c then Null else _) = Ok _ =>
             destruct c; [discriminate|]
         | bind ?r _ = Ok _ =>
             destruct r; cbn [bind] in H; try discriminate
         | (let _ := _ in _) = Ok _ => cbv zeta in H
         end.
  match type of H with
  | (if unsupported_class (Z.land ?f 255) then _ else _) = Ok _ =>
      destruct (unsupported_class (Z.land f 255)) eqn:Eu;
      [| assert (flags array = f) as Hf;
         [| rewrite Hf in Hu; rewrite Hu in Eu; discriminate ]]
  end.
  - injection H as <-. split; reflexivity.
  - match type of H with
    | (if ?c then _ else _) = Ok _ => destruct c; [|discriminate]
    end.
    unfold parse_numerical_array in H.
    repeat match type of H with
           | bind ?r _ = Ok _ =>
               destruct r; cbn [bind] in H; try discriminate
           | (if ?c then _ else _) = Ok _ => destruct c
           | (let _ := _ in _) = Ok _ => cbv zeta in H
           end; injection H as <-; reflexivity.
Qed.

(** * Further properties of the code *)

(** ** Byte order *)

Lemma byte_at (x k : Z) :
  0 <= k -> Z.shiftr (Z.land x (Z.shiftl 255 k)) k = (x / 2 ^ k) mod 256.
Proof.
  intros Hk. rewrite Z.shiftr_land, Z.shiftr_shiftl_l by lia.
  rewrite Z.sub_diag. cbn [Z.shiftl].
  change 255 with (Z.ones 8). rewrite Z.land_ones by lia.
  rewrite Z.shiftr_div_pow2 by lia. reflexivity.
Qed.

Lemma le_bytes_nth (l : list byte) (i : nat) :
  (i < List.length l)%nat ->
  (le_bytes l / 256 ^ Z.of_nat i) mod 256 = byte_val (nth i l x00).
Proof.
  revert i. induction l as [|b l IH]; intros i Hi; cbn [List.length] in Hi;
    [lia|].
  pose proof (byte_val_range b) as Hb.
  assert ((byte_val b + 256 * le_bytes l) / 256 = le_bytes l) as Hdiv
      by (symmetry; apply (Z.div_unique _ _ _ (byte_val b)); lia).
  destruct i as [|i]; cbn [le_bytes nth].
  - change (256 ^ Z.of_nat 0) with 1. rewrite Z.div_1_r.
    symmetry. apply (Z.mod_unique _ _ (le_bytes l)); lia.
  - rewrite Nat2Z.inj_succ, Z.pow_succ_r by lia.
    rewrite <- Z.div_div by lia. rewrite Hdiv. apply IH. lia.
Qed.

Lemma byte_of (l : list byte) (i : nat) (k : Z) :
  (i < List.length l)%nat -> k = 8 * Z.of_nat i ->
  Z.shiftr (Z.land (le_bytes l) (Z.shiftl 255 k)) k = byte_val (nth i l x00).
Proof.
  intros Hi ->. rewrite byte_at by lia.
  rewrite Z.pow_mul_r by lia. change (2 ^ 8) with 256.
  apply le_bytes_nth. exact Hi.
Qed.

Lemma swap2_bytes (flag : Z) (a b : byte) :
  flag <> 0 -> swap2 flag (le_bytes [a; b]) = le_bytes [b; a].
Proof.
  intros Hf. unfold swap2. apply Z.eqb_neq in Hf. rewrite Hf. cbn [negb].
  rewrite (byte_of [a; b] 0 0), (byte_of [a; b] 1 8) by (cbn; lia).
  cbn [nth le_bytes].
  pose proof (byte_val_range a). pose proof (byte_val_range b).
  unfold wrap. rewrite !(Z.mod_small (byte_val _)) by lia.
  rewrite Z.shiftl_mul_pow2 by lia.
  rewrite Z.mod_small; lia.
Qed.

(** X1: [swap2] leaves a word as it is when [swap_bytes] is zero; otherwise
    it exchanges the two bytes of the word, and applying it twice gives the
    word back. *)
Theorem swap2_reverses (flag : Z) (b0 b1 : byte) :
  swap2 0 (le_bytes [b0; b1]) = le_bytes [b0; b1]
  /\ (flag <> 0 ->
      swap2 flag (le_bytes [b0; b1]) = le_bytes [b1; b0]
      /\ swap2 flag (swap2 flag (le_bytes [b0; b1])) = le_bytes [b0; b1]).
Proof.
  split; [reflexivity|]. intros Hf.
  split; [apply swap2_bytes; exact Hf|].
  rewrite !swap2_bytes by exact Hf. reflexivity.
Qed.

(** X2: [swap4] leaves a double word as it is when [swap_bytes] is zero;
    otherwise it reverses the four bytes, and applying it twice gives the
    double word back. *)
Theorem swap4_reverses (flag : Z) (b0 b1 b2 b3 : byte) :
  swap4 0 (le_bytes [b0; b1; b2; b3]) = le_bytes [b0; b1; b2; b3]
  /\ (flag <> 0 ->
      swap4 flag (le_bytes [b0; b1; b2; b3]) = le_bytes [b3; b2; b1; b0]
      /\ swap4 flag (swap4 flag (le_bytes [b0; b1; b2; b3]))
         = le_bytes [b0; b1; b2; b3]).
Proof.
  split; [reflexivity|]. intros Hf.
  assert (forall a b c d : byte,
             swap4 flag (le_bytes [a; b; c; d]) = le_bytes [d; c; b; a])
    as Hrev.
  { intros a b c d. unfold swap4. apply Z.eqb_neq in Hf. rewrite Hf.
    cbn [negb]. cbv zeta.
    change (uint32_t (Z.shiftl 255 0)) with (Z.shiftl 255 0).
    change (uint32_t (Z.shiftl 255 8)) with (Z.shiftl 255 8).
    change (uint32_t (Z.shiftl 255 16)) with (Z.shiftl 255 16).
    change (uint32_t (Z.shiftl 255 24)) with (Z.shiftl 255 24).
    rewrite (byte_of [a; b; c; d] 0 0), (byte_of [a; b; c; d] 1 8),
      (byte_of [a; b; c; d] 2 16), (byte_of [a; b; c; d] 3 24) by (cbn; lia).
    cbn [nth le_bytes].
    pose proof (byte_val_range a). pose proof (byte_val_range b).
    pose proof (byte_val_range c). pose proof (byte_val_range d).
    unfold uint32_t, wrap. rewrite !Z.shiftl_mul_pow2 by lia.
    change (2 ^ 0) with 1. change (2 ^ 8) with 256.
    change (2 ^ 16) with 65536. change (2 ^ 24) with 16777216.
    change (2 ^ 32) with 4294967296.
    Z.div_mod_to_equations. lia. }
  split; [apply Hrev|]. rewrite Hrev. apply Hrev.
Qed.

(** X3: [swap8] leaves a quad word as it is when [swap_bytes] is zero;
    otherwise it reverses the eight bytes, and applying it twice gives the
    quad word back. *)
Theorem swap8_reverses (flag : Z) (b0 b1 b2 b3 b4 b5 b6 b7 : byte) :
  swap8 0 (le_bytes [b0; b1; b2; b3; b4; b5; b6; b7])
  = le_bytes [b0; b1; b2; b3; b4; b5; b6; b7]
  /\ (flag <> 0 ->
      swap8 flag (le_bytes [b0; b1; b2; b3; b4; b5; b6; b7])
      = le_bytes [b7; b6; b5; b4; b3; b2; b1; b0]
      /\ swap8 flag (swap8 flag (le_bytes [b0; b1; b2; b3; b4; b5; b6; b7]))
         = le_bytes [b0; b1; b2; b3; b4; b5; b6; b7]).
Proof.
  split; [reflexivity|]. intros Hf.
  assert (forall a b c d e f g h : byte,
             swap8 flag (le_bytes [a; b; c; d; e; f; g; h])
             = le_bytes [h; g; f; e; d; c; b; a])
    as Hrev.
  { intros a b c d e f g h. unfold swap8. apply Z.eqb_neq in Hf. rewrite Hf.
    cbn [negb]. cbv zeta.
    change (size_t (Z.shiftl 255 0)) with (Z.shiftl 255 0).
    change (size_t (Z.shiftl 255 8)) with (Z.shiftl 255 8).
    change (size_t (Z.shiftl 255 16)) with (Z.shiftl 255 16).
    change (size_t (Z.shiftl 255 24)) with (Z.shiftl 255 24).
    change (size_t (Z.shiftl 255 32)) with (Z.shiftl 255 32).
    change (size_t (Z.shiftl 255 40)) with (Z.shiftl 255 40).
    change (size_t (Z.shiftl 255 48)) with (Z.shiftl 255 48).
    change (size_t (Z.shiftl 255 56)) with (Z.shiftl 255 56).
    rewrite (byte_of [a; b; c; d; e; f; g; h] 0 0),
      (byte_of [a; b; c; d; e; f; g; h] 1 8),
      (byte_of [a; b; c; d; e; f; g; h] 2 16),
      (byte_of [a; b; c; d; e; f; g; h] 3 24),
      (byte_of [a; b; c; d; e; f; g; h] 4 32),
      (byte_of [a; b; c; d; e; f; g; h] 5 40),
      (byte_of [a; b; c; d; e; f; g; h] 6 48),
      (byte_of [a; b; c; d; e; f; g; h] 7 56) by (cbn; lia).
    cbn [nth le_bytes].
    pose proof (byte_val_range a). pose proof (byte_val_range b).
    pose proof (byte_val_range c). pose proof (byte_val_range d).
    pose proof (byte_val_range e). pose proof (byte_val_range f).
    pose proof (byte_val_range g). pose proof (byte_val_range h).
    unfold wrap. rewrite !Z.shiftl_mul_pow2 by lia.
    change (2 ^ 0) with 1. change (2 ^ 8) with 256.
    change (2 ^ 16) with 65536. change (2 ^ 24) with 16777216.
    change (2 ^ 32) with 4294967296. change (2 ^ 40) with 1099511627776.
    change (2 ^ 48) with 281474976710656.
    change (2 ^ 56) with 72057594037927936.
    change (2 ^ 64) with 18446744073709551616.
    Z.div_mod_to_equations. lia. }
  split; [apply Hrev|]. rewrite Hrev. apply Hrev.
Qed.

(** ** The type tables *)

Lemma type_code_cases (type : Z) :
  1 <= type <= 18 ->
  type = 1 \/ type = 2 \/ type = 3 \/ type = 4 \/ type = 5 \/ type = 6
  \/ type = 7 \/ type = 8 \/ type = 9 \/ type = 10 \/ type = 11 \/ type = 12
  \/ type = 13 \/ type = 14 \/ type = 15 \/ type = 16 \/ type = 17
  \/ type = 18.
Proof. lia. Qed.

Ltac each_type_code H :=
  apply type_code_cases in H;
  repeat (destruct H as [H | H]; [subst | ]); [.. | subst].

Lemma type_string_out_of_range (type : Z) :
  ~ 1 <= type <= 18 -> matfile_get_type_string type = "unknown"%string.
Proof.
  intros H. unfold matfile_get_type_string, MFDT_INT8, MFDT_UTF32.
  destruct (type <? 1) eqn:E1; [reflexivity|].
  destruct (type >? 18) eqn:E2; [reflexivity|].
  apply Z.ltb_ge in E1. rewrite Z.gtb_ltb in E2. apply Z.ltb_ge in E2. lia.
Qed.

(** X4: [matfile_get_type_string] answers "unknown" exactly for the codes
    outside 1..18 and for the reserved codes 8, 10 and 11; the other codes
    have names that differ from each other. *)
Theorem type_string_names :
  (forall type,
     matfile_get_type_string type = "unknown"%string
     <-> (type < 1 \/ 18 < type \/ type = 8 \/ type = 10 \/ type = 11))
  /\ (forall type type',
        matfile_get_type_string type = matfile_get_type_string type' ->
        matfile_get_type_string type <> "unknown"%string ->
        type = type').
Proof.
  split.
  - intros type. split.
    + intros H. destruct (Z_lt_dec type 1); [lia|].
      destruct (Z_lt_dec 18 type); [lia|].
      assert (1 <= type <= 18) as Hr by lia.
      each_type_code Hr; try (vm_compute in H; discriminate); lia.
    + intros [H | [H | [-> | [-> | ->]]]]; try reflexivity;
        apply type_string_out_of_range; lia.
  - intros type type' Heq Hne.
    destruct (Z_le_dec 1 type) as [H1|H1];
      [destruct (Z_le_dec type 18) as [H2|H2]|];
      try (exfalso; apply Hne; apply type_string_out_of_range; lia).
    destruct (Z_le_dec 1 type') as [H3|H3];
      [destruct (Z_le_dec type' 18) as [H4|H4]|];
      try (rewrite (type_string_out_of_range type') in Heq by lia;
           contradiction).
    assert (1 <= type <= 18) as Hr by lia.
    assert (1 <= type' <= 18) as Hr' by lia.
    clear H1 H2 H3 H4.
    each_type_code Hr; each_type_code Hr';
      first [reflexivity
            | vm_compute in Heq; discriminate
            | exfalso; apply Hne; reflexivity].
Qed.

(** X5: the types [matfile_is_numerical] accepts are the codes of 1..18
    whose entry in [data_type_size] is not zero; their sizes are 1 for the
    8-bit integers, 2 for the 16-bit ones, 4 for the 32-bit ones and single,
    8 for double and the 64-bit integers. *)
Theorem numerical_types_have_sizes (type : Z) :
  (is_numerical_type type = true
   <-> 1 <= type <= 18 /\ 0 < type_byte_size type)
  /\ (is_numerical_type type = true ->
      type_byte_size type
      = if (type =? MFDT_INT8) || (type =? MFDT_UINT8) then 1
        else if (type =? MFDT_INT16) || (type =? MFDT_UINT16) then 2
        else if (type =? MFDT_INT32) || (type =? MFDT_UINT32)
                || (type =? MFDT_SINGLE) then 4
        else 8).
Proof.
  split; [split|].
  - intros H. apply numerical_type_cases in H.
    repeat (destruct H as [-> | H]; [vm_compute; intuition discriminate|]).
    subst. vm_compute; intuition discriminate.
  - intros [Hr Hs]. each_type_code Hr; try reflexivity;
      vm_compute in Hs; discriminate.
  - intros H. apply numerical_type_cases in H.
    repeat (destruct H as [-> | H]; [reflexivity|]). subst. reflexivity.
Qed.

(** ** The numeric array assembler, once more *)

Lemma parts_irrelevant (array : matfile_array_t)
    (p q : matfile_numerical_part_t) (data : block) (len : Z) :
  parse_numerical_part (set_pi (set_pr array p) q) data len
  = parse_numerical_part array data len.
Proof. destruct array. reflexivity. Qed.

Lemma decode_dims_spec (n : nat) (l : list byte) :
  (List.length l <= n)%nat ->
  zlength (decode_dims l) = zlength l / 4
  /\ Forall (fun d => - 2 ^ 31 <= d < 2 ^ 31) (decode_dims l).
Proof.
  revert l. induction n as [|n IH]; intros l Hl.
  - destruct l; [|cbn in Hl; lia]. split; [reflexivity | constructor].
  - destruct l as [|b0 [|b1 [|b2 [|b3 t]]]];
      try (split; [reflexivity | constructor]).
    cbn [decode_dims]. cbn [List.length] in Hl.
    destruct (IH t) as [IHl IHr]; [lia|].
    split.
    + unfold zlength in *. cbn [List.length].
      rewrite !Nat2Z.inj_succ. rewrite IHl.
      replace (Z.succ (Z.succ (Z.succ (Z.succ (Z.of_nat (List.length t))))))
        with (Z.of_nat (List.length t) + 1 * 4) by lia.
      rewrite Z.div_add by lia. lia.
    + constructor; [apply int32_t_range | exact IHr].
Qed.

Lemma parse_numerical_array_inv (array : matfile_array_t) (data : block)
    (len : Z) (array' : matfile_array_t) :
  parse_numerical_array array data len = Ok array' ->
  (flags array' = flags array /\ dims array' = dims array
   /\ name array' = name array /\ nodims array' = nodims array
   /\ length array' = length array)
  /\ exists real next,
       parse_numerical_part array data len = Ok (PartData real, next)
       /\ pr array' = PartData real
       /\ (size_t next = size_t len -> pi array' = PartNull)
       /\ (size_t next <> size_t len ->
           exists imag next',
             parse_numerical_part array (advance data next) len
             = Ok (PartData imag, next')
             /\ pi array' = PartData imag).
Proof.
  unfold parse_numerical_array. cbv zeta. rewrite parts_irrelevant.
  intros H.
  destruct (parse_numerical_part array data len) as [[p next]| |] eqn:E1;
    cbn [bind fst snd] in H; try discriminate.
  destruct (parse_numerical_part_ok _ _ _ _ _ E1)
    as (_ & _ & _ & real & _ & _ & _ & _ & _ & _ & _ & -> & _).
  destruct (size_t next =? size_t len) eqn:Eend.
  - injection H as <-. apply Z.eqb_eq in Eend.
    split; [destruct array; repeat split|].
    exists real, next. repeat split; try (destruct array; reflexivity).
    intros Hne. contradiction.
  - apply Z.eqb_neq in Eend.
    replace (set_pr (set_pi (set_pr array PartNull) PartNull) (PartData real))
      with (set_pi (set_pr array (PartData real)) PartNull) in H
      by (destruct array; reflexivity).
    rewrite parts_irrelevant in H.
    destruct (parse_numerical_part array (advance data next) len)
      as [[q next']| |] eqn:E2; cbn [bind fst snd] in H; try discriminate.
    destruct (parse_numerical_part_ok _ _ _ _ _ E2)
      as (_ & _ & _ & imag & _ & _ & _ & _ & _ & _ & _ & -> & _).
    injection H as <-.
    split; [destruct array; repeat split|].
    exists real, next. repeat split; try (destruct array; reflexivity).
    + intros He. contradiction.
    + intros _. exists imag, next'. split; [exact E2|].
      destruct array; reflexivity.
Qed.

(** ** Blocks, once more *)

Lemma zlength_app {A : Type} (l l' : list A) :
  zlength (l ++ l') = zlength l + zlength l'.
Proof. unfold zlength. rewrite length_app. lia. Qed.

Lemma zlength_bytes_block (l : list byte) :
  zlength (bytes_block l) = zlength l.
Proof. unfold zlength, bytes_block. rewrite length_map. reflexivity. Qed.

Lemma bytes_block_app (l l' : list byte) :
  bytes_block (l ++ l') = bytes_block l ++ bytes_block l'.
Proof. apply map_app. Qed.

Lemma zlength_skipn {A : Type} (l : list A) (n : nat) :
  (n <= List.length l)%nat -> zlength (skipn n l) = zlength l - Z.of_nat n.
Proof. intros H. unfold zlength. rewrite length_skipn. lia. Qed.

Lemma load_bytes_block (l : list byte) (off n : Z) :
  0 <= off -> 0 <= n -> off + n <= zlength l ->
  load (bytes_block l) off n
  = Ok (firstn (Z.to_nat n) (skipn (Z.to_nat off) l)).
Proof.
  intros Ho Hn Hb. unfold load, cells, in_bounds.
  rewrite zlength_bytes_block.
  replace ((0 <=? off) && (0 <=? n) && (off + n <=? zlength l)) with true
    by (symmetry; rewrite !andb_true_iff, !Z.leb_le; lia).
  cbn [bind]. unfold bytes_block.
  rewrite skipn_map, firstn_map, initialised_bytes. reflexivity.
Qed.

Lemma store_cells_at (p t c : list cell) :
  zlength c <= zlength t ->
  store_cells (p ++ t) (zlength p) c
  = Ok (p ++ c ++ skipn (List.length c) t).
Proof.
  intros Hb. unfold store_cells, in_bounds. rewrite zlength_app.
  pose proof (zlength_nonneg p). pose proof (zlength_nonneg c).
  replace ((0 <=? zlength p) && (0 <=? zlength c)
           && (zlength p + zlength c <=? zlength p + zlength t))
    with true by (symmetry; rewrite !andb_true_iff, !Z.leb_le; lia).
  unfold zlength. rewrite <- Nat2Z.inj_add, !Nat2Z.id.
  rewrite firstn_app, firstn_all, Nat.sub_diag. cbn [firstn].
  rewrite app_nil_r.
  rewrite skipn_app, skipn_all2 by lia. cbn [app].
  replace (List.length p + List.length c - List.length p)%nat
    with (List.length c) by lia.
  reflexivity.
Qed.

Lemma store_head (t : block) (l : list byte) :
  zlength l <= zlength t ->
  store t 0 l = Ok (bytes_block l ++ skipn (List.length l) t).
Proof.
  intros H. unfold store.
  pose proof (store_cells_at [] t (map Some l)) as S.
  rewrite length_map in S. apply S.
  unfold zlength. rewrite length_map. exact H.
Qed.

(** The name buffer holds the name and a null byte, unless the sum
    [size + 1] wraps to zero: then the buffer has no byte, and the copy
    writes past it. *)
Lemma copy_name_spec (name_bytes : list byte) (size : Z) :
  zlength name_bytes = size -> 0 <= size < 2 ^ 32 ->
  copy_name name_bytes size
  = if size + 1 <? 2 ^ 32 then Ok (name_bytes ++ [x00]) else Fault.
Proof.
  intros Hl Hr. unfold copy_name.
  destruct (size + 1 <? 2 ^ 32) eqn:E.
  - apply Z.ltb_lt in E.
    assert (uint32_t (size + 1) = size + 1) as ->
      by (unfold uint32_t, wrap; apply Z.mod_small; lia).
    rewrite store_head by (rewrite zlength_malloc; lia). cbn [bind].
    assert (skipn (List.length name_bytes) (malloc (size + 1)) = [None]) as ->.
    { unfold malloc.
      replace (Z.to_nat (size + 1)) with (List.length name_bytes + 1)%nat
        by (unfold zlength in Hl; lia).
      rewrite repeat_app, skipn_app, repeat_length, Nat.sub_diag.
      rewrite skipn_all2 by (rewrite repeat_length; lia). reflexivity. }
    unfold store. rewrite <- Hl, <- (zlength_bytes_block name_bytes).
    rewrite (store_cells_at (bytes_block name_bytes) [None] (map Some [x00]))
      by (vm_compute; discriminate).
    cbn [bind map List.length skipn app].
    change [Some x00] with (bytes_block [x00]).
    rewrite <- bytes_block_app.
    rewrite load_bytes_block.
    + cbn [Z.to_nat skipn]. rewrite firstn_all2; [reflexivity|].
      rewrite zlength_bytes_block. unfold zlength.
      rewrite length_app. cbn [List.length]. lia.
    + lia.
    + rewrite zlength_bytes_block. apply zlength_nonneg || lia.
    + rewrite zlength_app, zlength_bytes_block. cbn. lia.
  - apply Z.ltb_ge in E. assert (size = 2 ^ 32 - 1) as Hs by lia.
    assert (uint32_t (size + 1) = 0) as -> by (rewrite Hs; reflexivity).
    unfold store, store_cells, in_bounds.
    change (map Some name_bytes) with (bytes_block name_bytes).
    rewrite zlength_bytes_block, Hl.
    change (zlength (malloc 0)) with 0.
    replace (0 + size <=? 0) with false
      by (symmetry; apply Z.leb_gt; lia).
    rewrite andb_false_r. reflexivity.
Qed.

Lemma padding_range (n : Z) : 0 <= padding_of n < 8.
Proof. apply padding_of_spec. Qed.

Lemma parse_array_inv (data : block) (length : Z) (array : matfile_array_t) :
  parse_array data length = Ok array ->
  exists array_flags dims_size dims_bytes name_size name_bytes,
    load_u32 data 0 = Ok MFDT_UINT32
    /\ load_u32 data 4 = Ok 8
    /\ load_u64 data 8 = Ok array_flags
    /\ load_u32 data 16 = Ok MFDT_INT32
    /\ load_u32 data 20 = Ok dims_size
    /\ dims_size mod 4 = 0
    /\ load data 24 dims_size = Ok dims_bytes
    /\ load_u32 data (name_offset dims_size) = Ok MFDT_INT8
    /\ load_u32 data (name_offset dims_size + 4) = Ok name_size
    /\ load data (name_offset dims_size + 8) name_size = Ok name_bytes
    /\ 32 <= length
    /\ name_offset dims_size + 8 + name_size <= length
    /\ (if unsupported_class (Z.land array_flags 255)
        then array = array_header array_flags dims_bytes dims_size
                                  name_bytes name_size
        else
          numerical_class (Z.land array_flags 255) = true
          /\ parse_numerical_array
               (array_header array_flags dims_bytes dims_size
                             name_bytes name_size)
               (advance data (rest_offset dims_size name_size))
               (size_t (length - rest_offset dims_size name_size))
             = Ok array).
Proof.
  unfold parse_array. intros H.
  change (size_t (0 + 8 + 8)) with 16 in H.
  change (size_t (0 + 8)) with 8 in H.
  change (size_t (8 + 8)) with 16 in H.
  change (size_t (16 + 8 + 2 * 4)) with 32 in H.
  change (size_t (16 + 8)) with 24 in H.
  cbv zeta in H.
  destruct (length <? 16); [discriminate|].
  destruct (load_u32 data 0) as [t1| |] eqn:Ht1; cbn [bind] in H;
    try discriminate.
  destruct (t1 =? MFDT_UINT32) eqn:Et1; cbn [negb] in H; [|discriminate].
  apply Z.eqb_eq in Et1. subst t1.
  change (0 + 4) with 4 in H.
  destruct (load_u32 data 4) as [s1| |] eqn:Hs1; cbn [bind] in H;
    try discriminate.
  destruct (s1 =? 8) eqn:Es1; cbn [negb] in H; [|discriminate].
  apply Z.eqb_eq in Es1. subst s1.
  destruct (load_u64 data 8) as [fl| |] eqn:Hfl; cbn [bind] in H;
    try discriminate.
  destruct (length <? 32) eqn:E32; [discriminate|]. apply Z.ltb_ge in E32.
  destruct (load_u32 data 16) as [t2| |] eqn:Ht2; cbn [bind] in H;
    try discriminate.
  destruct (t2 =? MFDT_INT32) eqn:Et2; cbn [negb] in H; [|discriminate].
  apply Z.eqb_eq in Et2. subst t2.
  change (16 + 4) with 20 in H.
  destruct (load_u32 data 20) as [dsz| |] eqn:Hdsz; cbn [bind] in H;
    try discriminate.
  pose proof (load_u32_range _ _ _ Hdsz) as Hdr.
  pose proof (padding_range dsz) as Hdp.
  destruct (dsz mod 4 =? 0) eqn:Emod; cbn [negb] in H; [|discriminate].
  apply Z.eqb_eq in Emod.
  rewrite (size_t_small (24 + dsz)) in H by lia.
  destruct (length <? 24 + dsz); [discriminate|].
  destruct (load data 24 dsz) as [db| |] eqn:Hdb; cbn [bind] in H;
    try discriminate.
  fold (name_offset dsz) in H.
  assert (0 <= name_offset dsz < 2 ^ 33) as Hno by (unfold name_offset; lia).
  rewrite (size_t_small (name_offset dsz)) in H by lia.
  rewrite (size_t_small (name_offset dsz + 8)) in H by lia.
  destruct (length <? name_offset dsz + 8); [discriminate|].
  destruct (load_u32 data (name_offset dsz)) as [t3| |] eqn:Ht3;
    cbn [bind] in H; try discriminate.
  destruct (t3 =? MFDT_INT8) eqn:Et3; cbn [negb] in H; [|discriminate].
  apply Z.eqb_eq in Et3. subst t3.
  destruct (load_u32 data (name_offset dsz + 4)) as [nsz| |] eqn:Hnsz;
    cbn [bind] in H; try discriminate.
  pose proof (load_u32_range _ _ _ Hnsz) as Hnr.
  pose proof (padding_range nsz) as Hnp.
  rewrite (size_t_small (name_offset dsz + 8 + nsz)) in H by lia.
  destruct (length <? name_offset dsz + 8 + nsz) eqn:Elen; [discriminate|].
  apply Z.ltb_ge in Elen.
  destruct (load data (name_offset dsz + 8) nsz) as [nb| |] eqn:Hnb;
    cbn [bind] in H; try discriminate.
  rewrite (copy_name_spec nb nsz (load_length _ _ _ _ Hnb) Hnr) in H.
  destruct (nsz + 1 <? 2 ^ 32); cbn [bind] in H; [|discriminate].
  fold (rest_offset dsz nsz) in H.
  assert (0 <= rest_offset dsz nsz < 2 ^ 34) as Hro
      by (unfold rest_offset; lia).
  rewrite (size_t_small (rest_offset dsz nsz)) in H by lia.
  fold (array_header fl db dsz nb nsz) in H.
  exists fl, dsz, db, nsz, nb.
  repeat (split; [assumption || reflexivity|]).
  destruct (unsupported_class (Z.land fl 255)).
  - injection H as <-. reflexivity.
  - destruct (numerical_class (Z.land fl 255)); [|discriminate].
    split; [reflexivity | exact H].
Qed.

(** X6: [parse_numerical_part] reads nothing and returns null when fewer
    than 8 bytes are left; when it succeeds, the pointer it returns is at
    least 8 and at most [len] bytes further, and the part holds the bytes
    between the tag and that pointer. *)
Theorem numerical_part_bounds (array : matfile_array_t) (data : block)
    (len : Z) :
  (len < 8 -> parse_numerical_part array data len = Null)
  /\ (forall part next,
        parse_numerical_part array data len = Ok (part, next) ->
        8 <= next <= len
        /\ exists payload,
             part = PartData payload
             /\ zlength payload = next - 8
             /\ load data 8 (next - 8) = Ok payload).
Proof.
  split.
  - intros H. unfold parse_numerical_part.
    apply Z.ltb_lt in H. rewrite H. reflexivity.
  - intros part next H.
    destruct (parse_numerical_part_ok _ _ _ _ _ H)
      as (type & size & n & payload & _ & Hs & _ & _ & Hlen & _ & Hp & -> & ->).
    pose proof (load_u32_range _ _ _ Hs) as Hr.
    rewrite size_t_small in Hlen by lia.
    split; [lia|]. exists payload.
    replace (8 + size - 8) with size by lia.
    repeat split; [|exact Hp]. apply (load_length _ _ _ _ Hp).
Qed.

(** X7: [parse_numerical_array] changes nothing of the array but its two
    parts: the real part is the buffer [parse_numerical_part] returns; the
    imaginary part is null when the real part ends at [len] bytes, and is
    the buffer of a second [parse_numerical_part] otherwise. *)
Theorem numerical_array_parts (array : matfile_array_t) (data : block)
    (len : Z) (array' : matfile_array_t) :
  parse_numerical_array array data len = Ok array' ->
  (flags array' = flags array /\ dims array' = dims array
   /\ name array' = name array /\ nodims array' = nodims array
   /\ length array' = length array)
  /\ exists real next,
       parse_numerical_part array data len = Ok (PartData real, next)
       /\ pr array' = PartData real
       /\ (size_t next = size_t len -> pi array' = PartNull)
       /\ (size_t next <> size_t len ->
           exists imag next',
             parse_numerical_part array (advance data next) len
             = Ok (PartData imag, next')
             /\ pi array' = PartData imag).
Proof. apply parse_numerical_array_inv. Qed.

Lemma numerical_array_parts_witness :
  let array := array_of_dims [2; 3] in
  let data := bytes_block (double_48 ++ double_48) in
  let array' :=
    set_pi (set_pr array (PartData (repeat x00 48))) (PartData (repeat x00 48))
  in
  (flags array' = flags array /\ dims array' = dims array
   /\ name array' = name array /\ nodims array' = nodims array
   /\ length array' = length array)
  /\ exists real next,
       parse_numerical_part array data 112 = Ok (PartData real, next)
       /\ pr array' = PartData real
       /\ (size_t next = size_t 112 -> pi array' = PartNull)
       /\ (size_t next <> size_t 112 ->
           exists imag next',
             parse_numerical_part array (advance data next) 112
             = Ok (PartData imag, next')
             /\ pi array' = PartData imag).
Proof.
  cbv zeta.
  apply (numerical_array_parts (array_of_dims [2; 3])
           (bytes_block (double_48 ++ double_48)) 112).
  vm_compute. reflexivity.
Defined.

Lemma parse_array_wellformed_aux (data : block) (length_ : Z)
    (array : matfile_array_t) :
  parse_array data length_ = Ok array ->
  32 <= length_
  /\ nodims array = zlength (dims array)
  /\ Forall (fun d => - 2 ^ 31 <= d < 2 ^ 31) (dims array)
  /\ (exists chars,
        name array = chars ++ [x00] /\ zlength chars = length array)
  /\ 1 <= Z.land (flags array) 255 <= 15.
Proof.
  intros H. apply parse_array_inv in H.
  destruct H as (fl & dsz & db & nsz & nb & _ & _ & _ & _ & _ & Hmod & Hdb
                 & _ & _ & Hnb & H32 & _ & Hclass).
  pose proof (load_length _ _ _ _ Hdb) as Hdl.
  pose proof (load_length _ _ _ _ Hnb) as Hnl.
  destruct (decode_dims_spec (List.length db) db (le_n _)) as [Hlen Hrange].
  assert (flags array = fl /\ dims array = decode_dims db
          /\ name array = nb ++ [x00] /\ nodims array = dsz / 4
          /\ length array = nsz
          /\ (unsupported_class (Z.land fl 255) = true
              \/ numerical_class (Z.land fl 255) = true)) as Hf.
  { destruct (unsupported_class (Z.land fl 255)) eqn:Eu.
    - subst array. repeat split. left. reflexivity.
    - destruct Hclass as [Hnum Hparse].
      apply parse_numerical_array_inv in Hparse.
      destruct Hparse as [(F1 & F2 & F3 & F4 & F5) _].
      rewrite F1, F2, F3, F4, F5. repeat split. right. exact Hnum. }
  destruct Hf as (-> & -> & -> & -> & -> & Hknown).
  split; [exact H32|]. split; [rewrite Hlen, Hdl; reflexivity|].
  split; [exact Hrange|]. split; [exists nb; split; [reflexivity | exact Hnl]|].
  unfold unsupported_class, numerical_class in Hknown.
  unfold MFMX_CELL_CLASS, MFMX_STRUCT_CLASS, MFMX_OBJECT_CLASS,
    MFMX_CHAR_CLASS, MFMX_SPARSE_CLASS, MFMX_INT8_CLASS, MFMX_INT16_CLASS,
    MFMX_INT32_CLASS, MFMX_INT64_CLASS, MFMX_UINT8_CLASS, MFMX_UINT16_CLASS,
    MFMX_UINT32_CLASS, MFMX_UINT64_CLASS, MFMX_SINGLE_CLASS,
    MFMX_DOUBLE_CLASS in Hknown.
  rewrite !orb_true_iff, !Z.eqb_eq in Hknown. lia.
Qed.

Lemma parse_array_fields (data : block) (length_ : Z)
    (array : matfile_array_t) :
  parse_array data length_ = Ok array ->
  32 <= length_
  /\ load_u64 data 8 = Ok (flags array)
  /\ nodims array = zlength (dims array)
  /\ (exists dims_bytes,
        load data 24 (4 * nodims array) = Ok dims_bytes
        /\ dims array = decode_dims dims_bytes)
  /\ Forall (fun d => - 2 ^ 31 <= d < 2 ^ 31) (dims array)
  /\ load_u32 data (name_offset (4 * nodims array) + 4) = Ok (length array)
  /\ name_offset (4 * nodims array) + 8 + length array <= length_
  /\ (exists chars,
        load data (name_offset (4 * nodims array) + 8) (length array)
        = Ok chars
        /\ name array = chars ++ [x00])
  /\ 1 <= Z.land (flags array) 255 <= 15.
Proof.
  intros H.
  destruct (parse_array_wellformed_aux _ _ _ H) as (H32 & Hwf & Hr & _ & Hc).
  apply parse_array_inv in H.
  destruct H as (fl & dsz & db & nsz & nb & _ & _ & Hfl & _ & _ & Hmod & Hdb
                 & _ & Hnsz & Hnb & _ & Hfit & Hclass).
  assert (flags array = fl /\ dims array = decode_dims db
          /\ name array = nb ++ [x00] /\ nodims array = dsz / 4
          /\ length array = nsz) as (Hf & Hd & Hnm & Hn & Hl).
  { destruct (unsupported_class (Z.land fl 255)).
    - subst array. repeat split.
    - destruct Hclass as [_ Hparse].
      apply parse_numerical_array_inv in Hparse.
      destruct Hparse as [(F1 & F2 & F3 & F4 & F5) _].
      rewrite F1, F2, F3, F4, F5. repeat split. }
  assert (4 * nodims array = dsz) as Hds
      by (rewrite Hn; symmetry; apply Z_div_exact_2; [lia | exact Hmod]).
  rewrite Hds, Hf, Hl, Hnm.
  split; [exact H32|]. split; [exact Hfl|]. split; [exact Hwf|].
  split; [exists db; split; [exact Hdb | exact Hd]|].
  split; [exact Hr|]. split; [exact Hnsz|]. split; [exact Hfit|].
  split; [exists nb; split; [exact Hnb | reflexivity]|].
  rewrite <- Hf. exact Hc.
Qed.

(** X8: an array [parse_array] returns comes from a payload of 32 bytes at
    least.  Its flags are the eight bytes at offset 8 of the payload; it has
    as many dimension values as [nodims] says, which are the 32-bit signed
    values held by the bytes of the dimensions sub-element; its [length] is
    the size the tag of the name sub-element declares, the name lies within
    the [length_] bytes of the payload, and [name] holds the bytes of the
    name sub-element followed by a null byte; its class is one of the
    fifteen known ones. *)
Theorem parse_array_wellformed (data : block) (length_ : Z)
    (array : matfile_array_t) :
  parse_array data length_ = Ok array ->
  32 <= length_
  /\ load_u64 data 8 = Ok (flags array)
  /\ nodims array = zlength (dims array)
  /\ (exists dims_bytes,
        load data 24 (4 * nodims array) = Ok dims_bytes
        /\ dims array = decode_dims dims_bytes)
  /\ Forall (fun d => - 2 ^ 31 <= d < 2 ^ 31) (dims array)
  /\ load_u32 data (name_offset (4 * nodims array) + 4) = Ok (length array)
  /\ name_offset (4 * nodims array) + 8 + length array <= length_
  /\ (exists chars,
        load data (name_offset (4 * nodims array) + 8) (length array)
        = Ok chars
        /\ name array = chars ++ [x00])
  /\ 1 <= Z.land (flags array) 255 <= 15.
Proof. apply parse_array_fields. Qed.

Lemma parse_array_wellformed_witness :
  32 <= 64
  /\ load_u64 (bytes_block matrix_a_payload) 8 = Ok (flags array_a)
  /\ nodims array_a = zlength (dims array_a)
  /\ (exists dims_bytes,
        load (bytes_block matrix_a_payload) 24 (4 * nodims array_a)
        = Ok dims_bytes
        /\ dims array_a = decode_dims dims_bytes)
  /\ Forall (fun d => - 2 ^ 31 <= d < 2 ^ 31) (dims array_a)
  /\ load_u32 (bytes_block matrix_a_payload)
       (name_offset (4 * nodims array_a) + 4) = Ok (length array_a)
  /\ name_offset (4 * nodims array_a) + 8 + length array_a <= 64
  /\ (exists chars,
        load (bytes_block matrix_a_payload)
          (name_offset (4 * nodims array_a) + 8) (length array_a)
        = Ok chars
        /\ name array_a = chars ++ [x00])
  /\ 1 <= Z.land (flags array_a) 255 <= 15.
Proof.
  apply (parse_array_wellformed (bytes_block matrix_a_payload) 64 array_a).
  vm_compute. reflexivity.
Defined.

Lemma parse_array_parts_aux (data : block) (length_ : Z)
    (array : matfile_array_t) :
  parse_array data length_ = Ok array ->
  if unsupported_class (Z.land (flags array) 255)
  then pr array = PartUninit /\ pi array = PartUninit
  else
    numerical_class (Z.land (flags array) 255) = true
    /\ (exists real type,
          pr array = PartData real
          /\ is_numerical_type type = true
          /\ zlength real = type_byte_size type * int_count array)
    /\ (pi array = PartNull \/ exists imag, pi array = PartData imag).
Proof.
  intros H.
  pose proof (parse_array_wellformed_aux _ _ _ H) as (_ & Hwf & _).
  apply parse_array_inv in H.
  destruct H as (fl & dsz & db & nsz & nb & _ & _ & _ & _ & _ & _ & _
                 & _ & _ & _ & _ & _ & Hclass).
  destruct (unsupported_class (Z.land fl 255)) eqn:Eu.
  - subst array. cbn [array_header flags]. rewrite Eu. split; reflexivity.
  - destruct Hclass as [Hnum Hparse].
    apply parse_numerical_array_inv in Hparse.
    destruct Hparse as [(F1 & F2 & _ & F4 & _)
                          (real & next & Hpart & Hpr & Hnull & Himag)].
    cbn [array_header flags] in F1. rewrite F1, Eu.
    split; [exact Hnum|]. split.
    + destruct (parse_numerical_part_ok _ _ _ _ _ Hpart)
        as (type & size & n & payload & _ & Hs & Hty & Hc & _ & Hsz & Hp
            & Heq & _).
      injection Heq as <-.
      exists real, type. split; [exact Hpr|]. split; [exact Hty|].
      rewrite (load_length _ _ _ _ Hp).
      assert (count_elements array = Ok n) as Hc'.
      { unfold count_elements in *. rewrite F2, F4. exact Hc. }
      rewrite (count_elements_int array Hwf) in Hc'. injection Hc' as <-.
      apply (size_check_int type size (int_count array) Hty);
        [apply (load_u32_range _ _ _ Hs) | apply int32_t_range | exact Hsz].
    + destruct (Z.eq_dec (size_t next)
                  (size_t (size_t (length_ - rest_offset dsz nsz))))
        as [E | E].
      * left. apply Hnull. exact E.
      * right. destruct (Himag E) as (imag & _ & _ & Hpi).
        exists imag. exact Hpi.
Qed.




Lemma load_u32_bytes_block (l : list byte) (off : Z) :
  0 <= off -> off + 4 <= zlength l ->
  load_u32 (bytes_block l) off <> Fault.
Proof.
  intros Ho Hb. unfold load_u32.
  rewrite load_bytes_block by lia. discriminate.
Qed.

(** X10: on a buffer of initialised bytes that is [length] bytes long at
    least, with [length] below 2^32 (the lengths [parse_data_elements]
    passes are sizes of 32 bits), decoding the three leading sub-elements of
    a matrix never reads out of the buffer and never writes out of the name
    buffer: for every class byte other than the ten numerical ones,
    [parse_array] returns an array or null. *)
Theorem parse_array_header_in_bounds (l : list byte) (length_ : Z) :
  length_ <= zlength l ->
  length_ < 2 ^ 32 ->
  (forall array_flags,
     load_u64 (bytes_block l) 8 = Ok array_flags ->
     numerical_class (Z.land array_flags 255) = false) ->
  parse_array (bytes_block l) length_ <> Fault.
Proof.
  intros Hlen Hbound Hclass. unfold parse_array.
  change (size_t (0 + 8 + 8)) with 16.
  change (size_t (0 + 8)) with 8.
  change (size_t (8 + 8)) with 16.
  change (size_t (16 + 8 + 2 * 4)) with 32.
  change (size_t (16 + 8)) with 24.
  cbv zeta.
  destruct (length_ <? 16) eqn:E16; [discriminate|]. apply Z.ltb_ge in E16.
  destruct (load_u32 (bytes_block l) 0) as [t1| |] eqn:Ht1; cbn [bind];
    [| discriminate | exfalso; revert Ht1; apply load_u32_bytes_block; lia].
  destruct (negb (t1 =? MFDT_UINT32)); [discriminate|].
  change (0 + 4) with 4.
  destruct (load_u32 (bytes_block l) 4) as [s1| |] eqn:Hs1; cbn [bind];
    [| discriminate | exfalso; revert Hs1; apply load_u32_bytes_block; lia].
  destruct (negb (s1 =? 8)); [discriminate|].
  destruct (load_u64 (bytes_block l) 8) as [fl| |] eqn:Hfl; cbn [bind];
    [| discriminate
     | exfalso; revert Hfl; unfold load_u64;
       rewrite load_bytes_block by lia; discriminate].
  destruct (length_ <? 32) eqn:E32; [discriminate|]. apply Z.ltb_ge in E32.
  destruct (load_u32 (bytes_block l) 16) as [t2| |] eqn:Ht2; cbn [bind];
    [| discriminate | exfalso; revert Ht2; apply load_u32_bytes_block; lia].
  destruct (negb (t2 =? MFDT_INT32)); [discriminate|].
  change (16 + 4) with 20.
  destruct (load_u32 (bytes_block l) 20) as [dsz| |] eqn:Hdsz; cbn [bind];
    [| discriminate | exfalso; revert Hdsz; apply load_u32_bytes_block; lia].
  pose proof (load_u32_range _ _ _ Hdsz) as Hdr.
  pose proof (padding_range dsz) as Hdp.
  destruct (negb (dsz mod 4 =? 0)); [discriminate|].
  rewrite (size_t_small (24 + dsz)) by lia.
  destruct (length_ <? 24 + dsz) eqn:Ed; [discriminate|]. apply Z.ltb_ge in Ed.
  rewrite load_bytes_block by lia. cbn [bind].
  fold (name_offset dsz).
  assert (0 <= name_offset dsz < 2 ^ 33) as Hno by (unfold name_offset; lia).
  rewrite (size_t_small (name_offset dsz)) by lia.
  rewrite (size_t_small (name_offset dsz + 8)) by lia.
  destruct (length_ <? name_offset dsz + 8) eqn:En; [discriminate|].
  apply Z.ltb_ge in En.
  destruct (load_u32 (bytes_block l) (name_offset dsz)) as [t3| |] eqn:Ht3;
    cbn [bind];
    [| discriminate | exfalso; revert Ht3; apply load_u32_bytes_block; lia].
  destruct (negb (t3 =? MFDT_INT8)); [discriminate|].
  destruct (load_u32 (bytes_block l) (name_offset dsz + 4)) as [nsz| |]
    eqn:Hnsz; cbn [bind];
    [| discriminate | exfalso; revert Hnsz; apply load_u32_bytes_block; lia].
  pose proof (load_u32_range _ _ _ Hnsz) as Hnr.
  rewrite (size_t_small (name_offset dsz + 8 + nsz)) by lia.
  destruct (length_ <? name_offset dsz + 8 + nsz) eqn:Es; [discriminate|].
  apply Z.ltb_ge in Es.
  destruct (load (bytes_block l) (name_offset dsz + 8) nsz) as [nb| |]
    eqn:Hnb; cbn [bind];
    [| discriminate
     | exfalso; rewrite load_bytes_block in Hnb by lia; discriminate].
  rewrite (copy_name_spec nb nsz (load_length _ _ _ _ Hnb) Hnr).
  replace (nsz + 1 <? 2 ^ 32) with true
    by (symmetry; apply Z.ltb_lt; unfold name_offset in *; lia).
  cbn [bind].
  rewrite (Hclass fl eq_refl).
  destruct (unsupported_class (Z.land fl 255)); discriminate.
Qed.

Lemma parse_array_header_in_bounds_witness :
  parse_array (bytes_block cell_payload) 48 <> Fault.
Proof.
  apply (parse_array_header_in_bounds cell_payload 48).
  - vm_compute. discriminate.
  - reflexivity.
  - intros array_flags H. vm_compute in H. injection H as <-. reflexivity.
Defined.

(** ** The decompression adapter and the element parser, once more *)

Lemma decompress_inv (codec : zlib_codec) (e e' : matfile_data_element_t)
    (src inflated : block) :
  decompress_data_element codec e src = Ok (e', inflated) ->
  valid_data_type (large_type e') = true
  /\ 0 <= large_size e' < 2 ^ 32
  /\ large_noelements e' = large_noelements e.
Proof.
  unfold decompress_data_element. intros H.
  destruct (Tape.tape_push (Tape.tape_create (Z.lor (large_size e) 128)) 8)
    as [base t1].
  destruct (Tape.tape_push t1 _) as [data t2].
  destruct (inflateInit codec src (large_size e)) as [code0 s0].
  destruct (code0 <? Z_OK); [discriminate|].
  destruct (inflate codec s0 _) as [[[code1 out1] s1]| |]; cbn [bind] in H;
    try discriminate.
  destruct (store (Tape.elems t2) base out1) as [m1| |]; cbn [bind] in H;
    try discriminate.
  destruct (code1 <? Z_OK); [discriminate|].
  destruct (load_u32 _ base) as [subel_type| |]; cbn [bind] in H;
    try discriminate.
  destruct (valid_data_type subel_type) eqn:Hvalid; cbn [negb] in H;
    [|discriminate].
  destruct (load_u32 _ (base + 4)) as [subel_size| |] eqn:Hsize;
    cbn [bind] in H; try discriminate.
  destruct (memmove _ base data _) as [m2| |]; cbn [bind] in H;
    try discriminate.
  destruct (Tape.tape_push _ _) as [next_out t3].
  destruct (inflate codec s1 _) as [[[code2 out2] s2]| |]; cbn [bind] in H;
    try discriminate.
  destruct (store (Tape.elems t3) next_out out2) as [m3| |]; cbn [bind] in H;
    try discriminate.
  destruct (code2 <? Z_OK); [discriminate|].
  destruct (avail_in codec s2 =? 0) eqn:Hin; cbn [negb] in H; [|discriminate].
  destruct (inflateEnd codec s2 =? Z_OK) eqn:Hend; cbn [negb] in H;
    [|discriminate].
  destruct (Tape.tape_purge _) as [purged| |]; cbn [bind] in H;
    try discriminate.
  injection H as <- <-.
  cbn [set_type_size large_type large_size large_data large_noelements].
  split; [exact Hvalid|]. split; [exact (load_u32_range _ _ _ Hsize)|].
  reflexivity.
Qed.

Lemma valid_type_is_large (e : matfile_data_element_t) :
  valid_data_type (large_type e) = true -> matfile_is_small e = 0.
Proof.
  unfold valid_data_type, MFDT_INT8, MFDT_COUNT. intros H.
  apply andb_true_iff in H. destruct H as [H1 H2].
  apply Z.leb_le in H1. apply Z.ltb_lt in H2.
  unfold matfile_is_small, IS_SMALL, small_type.
  rewrite Z.shiftr_div_pow2 by lia. rewrite Z.div_small by lia.
  rewrite andb_false_r. reflexivity.
Qed.

(** What one iteration appends. *)
Lemma parse_step_element (codec : zlib_codec) (data : block)
    (st st' : parser_state) :
  parse_step codec data st = Ok st' ->
  exists e, elements st' = elements st ++ [e] /\ element_ok e.
Proof.
  unfold parse_step. intros H.
  destruct (Tape.tape_push (tape st) 24) as [p tp].
  destruct (load data (offset st) 8) as [tag| |]; cbn [bind] in H;
    try discriminate.
  destruct (in_bounds (Tape.elems tp) p 24); cbn [negb] in H; [|discriminate].
  set (e := element_of_tag tag) in *.
  assert (large_noelements e = 0 /\ large_data e = DataNull) as [Hn Hd]
      by (split; reflexivity).
  destruct (matfile_is_small e =? 0) eqn:Hsmall; cbn [negb] in H.
  2:{ injection H as <-. exists e. split; [reflexivity|].
      split; [exact Hn|]. left. apply Z.eqb_neq in Hsmall. split; assumption. }
  destruct (valid_data_type (large_type e)) eqn:Hvalid; cbn [negb] in H;
    [|discriminate].
  assert (forall e0 buffer data_size,
             large_noelements e0 = 0 ->
             valid_data_type (large_type e0) = true ->
             (elem <- (if large_type e0 =? MFDT_MATRIX
                       then match parse_array buffer (large_size e0) with
                            | Ok array => Ok (set_data e0 (Array array))
                            | Null => Ok (set_data e0 DataNull)
                            | Fault => Fault
                            end
                       else bytes <- load buffer 0 data_size ;;
                            Ok (set_data e0 (Data bytes))) ;;
              Ok (mk_state (size_t (size_t (offset st + 8) + data_size)) tp
                           (elements st ++ [elem]))) = Ok st' ->
             exists e1, elements st' = elements st ++ [e1] /\ element_ok e1)
    as Hpayload.
  { intros e0 buffer data_size Hn0 Hv0 H0.
    pose proof (valid_type_is_large e0 Hv0) as Hl0.
    destruct (large_type e0 =? MFDT_MATRIX) eqn:Hm.
    - apply Z.eqb_eq in Hm.
      destruct (parse_array buffer (large_size e0)) as [array| |] eqn:Ha;
        cbn [bind] in H0; try discriminate; injection H0 as <-;
        eexists; (split; [reflexivity|]); (split; [exact Hn0|]); right;
        (split; [exact Hl0|]); (split; [exact Hv0|]);
        cbn [set_data large_data]; [|exact Hm].
      destruct (parse_array_wellformed_aux _ _ _ Ha) as (_ & Hwf & _ & _ & Hc).
      split; [exact Hm|]. split; [exact Hc|]. split; [exact Hwf|].
      pose proof (parse_array_parts_aux _ _ _ Ha) as Hp.
      destruct (unsupported_class (Z.land (flags array) 255)); [exact Hp|].
      destruct Hp as (_ & (real & ty & -> & _) & [-> | [imag ->]]);
        split; discriminate.
    - apply Z.eqb_neq in Hm.
      destruct (load buffer 0 data_size) as [bytes| |]; cbn [bind] in H0;
        try discriminate; injection H0 as <-.
      eexists. split; [reflexivity|]. split; [exact Hn0|]. right.
      split; [exact Hl0|]. split; [exact Hv0|]. exact Hm. }
  destruct (large_type e =? MFDT_COMPRESSED).
  - destruct (decompress_data_element codec e _) as [[e' buf]| |] eqn:Hz;
      cbn [bind fst snd] in H; try discriminate.
    destruct (decompress_inv _ _ _ _ _ Hz) as (Hv' & _ & Hn').
    apply (Hpayload e' buf (large_size e)); [congruence | exact Hv' | exact H].
  - cbn [bind] in H. apply (Hpayload e _ _ Hn Hvalid H).
Qed.

Lemma parse_loop_elements (codec : zlib_codec) (data : block) (length_ : Z)
    (fuel : nat) (st st' : parser_state) :
  parse_loop codec fuel data length_ st = Some (Ok st') ->
  Forall element_ok (elements st) -> Forall element_ok (elements st').
Proof.
  revert st. induction fuel as [|fuel IH]; intros st H Hall;
    cbn [parse_loop] in H; destruct (offset st <? length_);
    try discriminate; try (injection H as <-; exact Hall).
  destruct (parse_step codec data st) as [st1| |] eqn:Hs; try discriminate.
  apply (IH st1 H).
  destruct (parse_step_element _ _ _ _ Hs) as (e & -> & He).
  apply Forall_app. split; [exact Hall | constructor; [exact He | constructor]].
Qed.

Lemma parse_loop_count (codec : zlib_codec) (data : block) (length_ : Z)
    (fuel : nat) (st st' : parser_state) :
  length_ <= 2 ^ 63 ->
  parse_loop codec fuel data length_ st = Some (Ok st') ->
  0 <= offset st ->
  8 * zlength (elements st) <= offset st ->
  8 * zlength (elements st) < length_ + 8 ->
  8 * zlength (elements st') < length_ + 8.
Proof.
  intros Hlen. revert st. induction fuel as [|fuel IH]; intros st H Ho Hc Hb;
    cbn [parse_loop] in H; destruct (offset st <? length_) eqn:E;
    try discriminate; try (injection H as <-; exact Hb).
  apply Z.ltb_lt in E.
  destruct (parse_step codec data st) as [st1| |] eqn:Hs; try discriminate.
  assert (0 <= offset st < 2 ^ 63) as Hr by lia.
  pose proof (parse_step_progress codec data st st1 Hr Hs) as Hp.
  destruct (parse_step_element _ _ _ _ Hs) as (e & He & _).
  assert (zlength (elements st1) = zlength (elements st) + 1) as Hn.
  { rewrite He. unfold zlength. rewrite length_app. cbn. lia. }
  apply (IH st1 H); lia.
Qed.

(** A parse that returns elements is a loop that ended, followed by a purge
    of the tape that gave a buffer. *)
Lemma parse_data_elements_inv (codec : zlib_codec) (data : block)
    (length_ : Z) (es : list matfile_data_element_t) :
  parse_data_elements codec data length_ = Some (Ok es) ->
  exists st purged,
    parse_loop codec (Z.to_nat length_) data length_ initial_state
    = Some (Ok st)
    /\ elements st = es
    /\ Tape.tape_purge (tape st) = Ok purged.
Proof.
  unfold parse_data_elements. intros H.
  destruct (parse_loop codec (Z.to_nat length_) data length_ initial_state)
    as [[st| |]|]; try discriminate.
  destruct (Tape.tape_purge (tape st)) as [purged| |] eqn:Hp;
    cbn [bind] in H; try discriminate.
  injection H as <-. exists st, purged.
  split; [reflexivity|]. split; [reflexivity | exact Hp].
Qed.

(** Without an element the tape is purged with nothing reserved of it: on an
    input of no bytes the call does not return. *)
Lemma parse_no_element (codec : zlib_codec) (data : block) (length_ : Z) :
  length_ <= 0 -> parse_data_elements codec data length_ = Some Fault.
Proof.
  intros H. unfold parse_data_elements.
  assert (parse_loop codec (Z.to_nat length_) data length_ initial_state
          = Some (Ok initial_state)) as ->.
  { destruct (Z.to_nat length_); cbn [parse_loop initial_state offset];
      replace (0 <? length_) with false
        by (symmetry; apply Z.ltb_ge; exact H);
      reflexivity. }
  reflexivity.
Qed.

(** X12: every element [parse_data_elements] returns is small and without a
    payload pointer, or large with a type of 1..18; a large element carries
    raw bytes unless its type is matrix, and as a matrix a null pointer or
    an array of a known class with as many dimension values as [nodims],
    whose numeric parts are unassigned exactly when the class is one of the
    unsupported ones. *)
Theorem parsed_elements_ok (codec : zlib_codec) (data : block) (length_ : Z)
    (es : list matfile_data_element_t) :
  parse_data_elements codec data length_ = Some (Ok es) ->
  Forall element_ok es.
Proof.
  intros H.
  destruct (parse_data_elements_inv _ _ _ _ H) as (st & _ & Hl & <- & _).
  apply (parse_loop_elements _ _ _ _ _ _ Hl). constructor.
Qed.

Lemma parsed_elements_ok_witness :
  Forall element_ok
    [mk_element MFDT_MATRIX 64 (Array array_a) 0;
     mk_element MFDT_INT8 5
       (Data [x0a; x0b; x0c; x0d; x0e; x00; x00; x00]) 0].
Proof.
  apply (parsed_elements_ok stored_codec
           (bytes_block (compressed_matrix ++ five_int8)) (91 + 16)).
  vm_compute. reflexivity.
Defined.

(** X13: on a buffer of at most 2^63 bytes the loop of
    [parse_data_elements] ends, and it returns fewer than [length / 8 + 1]
    elements: every iteration moves the cursor by eight bytes at least. *)
Theorem parsed_elements_count (codec : zlib_codec) (data : block)
    (length_ : Z) :
  0 <= length_ <= 2 ^ 63 ->
  parse_data_elements codec data length_ <> None
  /\ (forall es,
        parse_data_elements codec data length_ = Some (Ok es) ->
        8 * zlength es < length_ + 8).
Proof.
  intros Hlen. split; [apply parse_data_elements_returns; lia|].
  intros es H.
  destruct (parse_data_elements_inv _ _ _ _ H) as (st & _ & Hl & <- & _).
  apply (parse_loop_count codec data length_ (Z.to_nat length_)
           initial_state st); try exact Hl;
    unfold initial_state, zlength;
    cbn [offset elements List.length Z.of_nat]; lia.
Qed.

Lemma parsed_elements_count_witness :
  parse_data_elements stored_codec
    (bytes_block (compressed_matrix ++ five_int8)) 107 <> None
  /\ (forall es,
        parse_data_elements stored_codec
          (bytes_block (compressed_matrix ++ five_int8)) 107 = Some (Ok es) ->
        8 * zlength es < 107 + 8).
Proof.
  apply (parsed_elements_count stored_codec
           (bytes_block (compressed_matrix ++ five_int8)) 107).
  lia.
Defined.

(** ** The tape, once more *)

Lemma reserved_nonneg (c : Z) (os : list Tape.op) :
  ops_within c os -> 0 <= reserved os.
Proof.
  unfold ops_within. induction 1 as [|o os Ho _ IH]; cbn [reserved]; [lia|].
  destruct o; lia.
Qed.

Lemma run_ops_within (c : Z) (os : list Tape.op) :
  0 <= c ->
  ops_within c os ->
  forall (t : Tape.tape_t) (S : Z),
    tape_sized t ->
    0 <= Tape.cur_length t <= Tape.max_length t ->
    Tape.cur_length t <= S ->
    c <= Tape.max_length t <= Z.max c (2 * S) ->
    2 * c + 4 * (S + reserved os) < 2 ^ 64 ->
    let t' := Tape.run_ops t os in
    tape_sized t'
    /\ 0 <= Tape.cur_length t' <= Tape.max_length t'
    /\ Tape.cur_length t' <= S + reserved os
    /\ c <= Tape.max_length t' <= Z.max c (2 * (S + reserved os)).
Proof.
  intros Hc0 Hops. induction Hops as [|o os Ho Hos IH];
    intros t S Hs Hc HS Hm Hb; cbv zeta.
  - cbn [Tape.run_ops fold_left reserved]. rewrite Z.add_0_r. auto.
  - pose proof (reserved_nonneg c os Hos) as Hr.
    unfold Tape.run_ops. cbn [fold_left].
    fold (Tape.run_ops (Tape.run_op t o) os).
    destruct o as [n | n]; cbn [reserved] in *.
    + assert (2 * Tape.max_length t < 2 ^ 64) as H2 by lia.
      pose proof (tape_push_fits t n ltac:(lia) ltac:(lia) ltac:(lia) H2)
        as Hfit.
      destruct (tape_push_used t n) as [_ Hu].
      rewrite (size_t_small (Tape.cur_length t + n)) in Hu by lia.
      specialize (IH (Tape.run_op t (Tape.Push n)) (S + n)).
      cbn [Tape.run_op] in *. cbv zeta in IH.
      replace (S + (n + reserved os)) with (S + n + reserved os) by lia.
      apply IH.
      * apply (run_op_sized t (Tape.Push n) Hs).
      * lia.
      * lia.
      * destruct (tape_push_capacity t n) as [(_ & Hmx & _) | (Hgt & Hmx & _)];
          cbv zeta in Hmx; rewrite Hmx.
        -- lia.
        -- rewrite (size_t_small (Tape.cur_length t + n)) in Hgt by lia.
           rewrite size_t_small by lia. lia.
      * lia.
    + specialize (IH (Tape.run_op t (Tape.Pop n)) S).
      cbn [Tape.run_op] in *. cbv zeta in IH.
      destruct (tape_pop_capacity t n) as [Hmx _].
      pose proof (tape_pop_used t n ltac:(lia) ltac:(lia)) as Hu.
      apply IH.
      * apply (run_op_sized t (Tape.Pop n) Hs).
      * rewrite Hu, Hmx. lia.
      * rewrite Hu. lia.
      * rewrite Hmx. lia.
      * lia.
Qed.

(** X14: on a tape created with capacity [c], a sequence of reservations of
    at most [c] bytes each, and of releases, keeps the used length within
    the capacity and the capacity equal to the size of the buffer, as long
    as the bytes reserved in total stay far from the range of [size_t]. *)
Theorem tape_small_reservations_fit (c : Z) (os : list Tape.op) :
  0 <= c ->
  ops_within c os ->
  2 * c + 4 * reserved os < 2 ^ 64 ->
  let t := Tape.run_ops (Tape.tape_create c) os in
  0 <= Tape.cur_length t <= Tape.max_length t
  /\ zlength (Tape.elems t) = Tape.max_length t
  /\ c <= Tape.max_length t.
Proof.
  intros Hc Hops Hb. cbv zeta.
  destruct (run_ops_within c os Hc Hops (Tape.tape_create c) 0)
    as (H1 & H2 & _ & H4).
  - apply tape_create_sized. exact Hc.
  - cbn. lia.
  - cbn. lia.
  - cbn. lia.
  - lia.
  - repeat split; try apply H2; try apply H4. exact H1.
Qed.

Lemma tape_small_reservations_fit_witness :
  let t := Tape.run_ops (Tape.tape_create 16)
             [Tape.Push 16; Tape.Push 8; Tape.Pop 20; Tape.Push 16] in
  0 <= Tape.cur_length t <= Tape.max_length t
  /\ zlength (Tape.elems t) = Tape.max_length t
  /\ 16 <= Tape.max_length t.
Proof.
  cbv zeta.
  apply (tape_small_reservations_fit 16
           [Tape.Push 16; Tape.Push 8; Tape.Pop 20; Tape.Push 16]).
  - lia.
  - repeat constructor; lia.
  - cbn. lia.
Defined.

(** X15: [tape_pop] after [tape_push] of the same size gives the used
    length back and leaves the buffer and the capacity of the push;
    [tape_pop] of more bytes than are used empties the tape. *)
Theorem tape_pop_undoes_push (t : Tape.tape_t) (n : Z) :
  0 <= Tape.cur_length t ->
  0 <= n ->
  Tape.cur_length t + n < 2 ^ 64 ->
  let pushed := snd (Tape.tape_push t n) in
  Tape.cur_length (Tape.tape_pop pushed n) = Tape.cur_length t
  /\ Tape.max_length (Tape.tape_pop pushed n) = Tape.max_length pushed
  /\ Tape.elems (Tape.tape_pop pushed n) = Tape.elems pushed
  /\ (forall m, Tape.cur_length t <= m ->
                Tape.cur_length (Tape.tape_pop t m) = 0).
Proof.
  intros Hc Hn Hb. cbv zeta.
  destruct (tape_push_used t n) as [_ Hu].
  rewrite size_t_small in Hu by lia.
  destruct (tape_pop_capacity (snd (Tape.tape_push t n)) n) as [Hm He].
  split; [|split; [exact Hm | split; [exact He|]]].
  - rewrite tape_pop_used by lia. rewrite Hu. lia.
  - intros m Hle. unfold Tape.tape_pop.
    destruct (Tape.cur_length t >? m) eqn:E; [|reflexivity].
    apply Z.gtb_lt in E. lia.
Qed.

Lemma tape_pop_undoes_push_witness :
  let t := snd (Tape.tape_push (Tape.tape_create 16) 10) in
  let pushed := snd (Tape.tape_push t 20) in
  Tape.cur_length (Tape.tape_pop pushed 20) = Tape.cur_length t
  /\ Tape.max_length (Tape.tape_pop pushed 20) = Tape.max_length pushed
  /\ Tape.elems (Tape.tape_pop pushed 20) = Tape.elems pushed
  /\ (forall m, Tape.cur_length t <= m ->
                Tape.cur_length (Tape.tape_pop t m) = 0).
Proof.
  cbv zeta.
  apply (tape_pop_undoes_push (snd (Tape.tape_push (Tape.tape_create 16) 10)) 20);
    vm_compute; intros; discriminate || reflexivity.
Defined.

(** ** Tapes that grow by reservations of one size *)

Lemma run_ops_snoc (t : Tape.tape_t) (os : list Tape.op) (o : Tape.op) :
  Tape.run_ops t (os ++ [o]) = Tape.run_op (Tape.run_ops t os) o.
Proof. unfold Tape.run_ops. rewrite fold_left_app. reflexivity. Qed.

Lemma repeat_snoc {A : Type} (x : A) (k : nat) :
  repeat x (S k) = repeat x k ++ [x].
Proof.
  induction k as [|k IH]; [reflexivity|].
  cbn [repeat app] in *. rewrite <- IH. reflexivity.
Qed.

Lemma reserved_repeat (n : Z) (k : nat) :
  reserved (repeat (Tape.Push n) k) = n * Z.of_nat k.
Proof.
  induction k as [|k IH]; [cbn; lia|].
  cbn [repeat reserved]. rewrite IH. lia.
Qed.

Lemma ops_within_repeat (c n : Z) (k : nat) :
  0 <= n <= c -> ops_within c (repeat (Tape.Push n) k).
Proof.
  intros H. unfold ops_within. induction k; cbn [repeat]; constructor; auto.
Qed.

(** The tape after [k] reservations of [n] bytes has room for one more. *)
Lemma pushes_room (c n : Z) (k : nat) :
  0 <= n <= c ->
  2 * c + 4 * (n * (Z.of_nat k + 1)) < 2 ^ 64 ->
  let t := Tape.run_ops (Tape.tape_create c) (repeat (Tape.Push n) k) in
  snd (Tape.tape_push t n)
  = Tape.run_ops (Tape.tape_create c) (repeat (Tape.Push n) (S k))
  /\ in_bounds (Tape.elems (snd (Tape.tape_push t n)))
               (fst (Tape.tape_push t n)) n = true.
Proof.
  intros Hn Hb. cbv zeta.
  assert (snd (Tape.tape_push
                 (Tape.run_ops (Tape.tape_create c) (repeat (Tape.Push n) k))
                 n)
          = Tape.run_ops (Tape.tape_create c) (repeat (Tape.Push n) (S k)))
    as Heq by (rewrite repeat_snoc, run_ops_snoc; reflexivity).
  split; [exact Heq|]. rewrite Heq.
  assert (0 <= c) as Hc by lia.
  pose proof (run_ops_within c _ Hc (ops_within_repeat c n k Hn)
                (Tape.tape_create c) 0 (tape_create_sized c Hc)) as Hk.
  cbn [Tape.tape_create Tape.cur_length Tape.max_length] in Hk.
  rewrite reserved_repeat in Hk.
  specialize (Hk ltac:(lia) ltac:(lia) ltac:(lia) ltac:(nia)).
  cbv zeta in Hk. destruct Hk as (_ & Hcur & Hle & _).
  pose proof (run_ops_within c _ Hc (ops_within_repeat c n (S k) Hn)
                (Tape.tape_create c) 0 (tape_create_sized c Hc)) as HS.
  cbn [Tape.tape_create Tape.cur_length Tape.max_length] in HS.
  rewrite reserved_repeat in HS.
  specialize (HS ltac:(lia) ltac:(lia) ltac:(lia) ltac:(nia)).
  cbv zeta in HS. destruct HS as (Hsized & Hcur' & _ & _).
  destruct (tape_push_used
              (Tape.run_ops (Tape.tape_create c) (repeat (Tape.Push n) k)) n)
    as [Hp Hu].
  rewrite Heq in Hu. rewrite Hp.
  rewrite size_t_small in Hu by nia.
  unfold tape_sized in Hsized.
  unfold in_bounds. rewrite !andb_true_iff, !Z.leb_le. lia.
Qed.

(** After [k] reservations of [n] bytes, one at least, [tape_purge] gives a
    buffer of [n * k] bytes. *)
Lemma pushes_purge (c n : Z) (k : nat) :
  0 < n <= c -> (0 < k)%nat ->
  2 * c + 4 * (n * Z.of_nat k) < 2 ^ 64 ->
  exists purged,
    Tape.tape_purge
      (Tape.run_ops (Tape.tape_create c) (repeat (Tape.Push n) k))
    = Ok purged
    /\ zlength purged = n * Z.of_nat k.
Proof.
  intros Hn H0 Hb.
  assert (0 <= c) as Hc by lia.
  pose proof (run_ops_within c _ Hc (ops_within_repeat c n k ltac:(lia))
                (Tape.tape_create c) 0 (tape_create_sized c Hc)) as Hw.
  cbn [Tape.tape_create Tape.cur_length Tape.max_length] in Hw.
  rewrite reserved_repeat in Hw.
  specialize (Hw ltac:(lia) ltac:(lia) ltac:(lia) ltac:(lia)).
  cbv zeta in Hw. destruct Hw as (Hsized & Hcur & _ & _).
  assert (Tape.cur_length
            (Tape.run_ops (Tape.tape_create c) (repeat (Tape.Push n) k))
          = n * Z.of_nat k) as Hused.
  { replace (repeat (Tape.Push n) k) with (map Tape.Push (repeat n k))
      by apply map_repeat.
    rewrite pushes_sum.
    assert (Tape.sum (repeat n k) = n * Z.of_nat k) as ->.
    { clear. induction k as [|k IH]; [cbn; lia|].
      cbn [repeat Tape.sum fold_right]. fold (Tape.sum (repeat n k)).
      rewrite IH. lia. }
    apply size_t_small. nia. }
  destruct (tape_purge_fits _ Hsized ltac:(nia)) as (purged & Hp & Hl).
  exists purged. split; [exact Hp | lia].
Qed.

(** ** The list of the variable names *)

Lemma who_push_ok (k : nat) (names : list matfile_varname_t)
    (v : matfile_varname_t) :
  Z.of_nat k < 2 ^ 57 ->
  who_push (mk_who (who_tape_after k) names) v
  = Ok (mk_who (who_tape_after (S k)) (names ++ [v])).
Proof.
  intros Hk. unfold who_push, who_tape_after. cbn [who_tape who_names].
  destruct (pushes_room (4 * 8) 8 k ltac:(lia) ltac:(lia)) as [Heq Hin].
  cbv zeta in Heq, Hin.
  destruct (Tape.tape_push _ 8) as [p t']. cbn [fst snd] in Heq, Hin.
  rewrite Hin. cbn [negb]. rewrite Heq. reflexivity.
Qed.

Lemma who_loop_ok (es : list matfile_data_element_t) :
  Forall has_array es ->
  forall (k : nat) (names : list matfile_varname_t),
    Z.of_nat k + zlength es < 2 ^ 57 ->
    who_loop es (mk_who (who_tape_after k) names)
    = Ok (mk_who (who_tape_after (k + List.length (matrix_names es)))
                 (names ++ matrix_names es)).
Proof.
  induction 1 as [|e es He _ IH]; intros k names Hk.
  - cbn. rewrite Nat.add_0_r, app_nil_r. reflexivity.
  - assert (zlength (e :: es) = zlength es + 1) as Hl
        by (unfold zlength; cbn [List.length]; lia).
    pose proof (zlength_nonneg es) as Hes.
    cbn [who_loop matrix_names].
    destruct (large_type e =? MFDT_MATRIX) eqn:Hm.
    + apply Z.eqb_eq in Hm. destruct (He Hm) as [array ->].
      rewrite who_push_ok by lia. cbn [bind].
      rewrite IH by lia. cbn [List.length].
      rewrite Nat.add_succ_r, <- app_assoc. reflexivity.
    + apply IH. lia.
Qed.

Lemma who_loop_fault (es : list matfile_data_element_t) :
  Exists (fun e => ~ has_array e) es ->
  forall (k : nat) (names : list matfile_varname_t),
    Z.of_nat k + zlength es < 2 ^ 57 ->
    who_loop es (mk_who (who_tape_after k) names) = Fault.
Proof.
  induction 1 as [e es He | e es _ IH]; intros k names Hk;
    assert (zlength (e :: es) = zlength es + 1) as Hl
      by (unfold zlength; cbn [List.length]; lia);
    pose proof (zlength_nonneg es) as Hes; cbn [who_loop].
  - destruct (large_type e =? MFDT_MATRIX) eqn:Hm.
    + destruct (large_data e) as [| bytes | array] eqn:Hd; try reflexivity.
      exfalso. apply He. intros _. exists array. exact Hd.
    + exfalso. apply He. intros Hm'. apply Z.eqb_neq in Hm. contradiction.
  - destruct (large_type e =? MFDT_MATRIX).
    + destruct (large_data e); try reflexivity.
      rewrite who_push_ok by lia. cbn [bind]. apply IH. lia.
    + apply IH. lia.
Qed.

Lemma matfile_who_names_aux (mat : matfile_t) :
  zlength (mat_elements mat) < 2 ^ 56 ->
  (Forall has_array (mat_elements mat) ->
   matfile_who mat = Ok (matrix_names (mat_elements mat) ++ [VarnameNull]))
  /\ (Exists (fun e => ~ has_array e) (mat_elements mat) ->
      matfile_who mat = Fault).
Proof.
  intros Hn. unfold matfile_who.
  change (Tape.tape_create (4 * 8)) with (who_tape_after 0).
  split; intros H.
  - assert (Z.of_nat (List.length (matrix_names (mat_elements mat)))
            <= zlength (mat_elements mat)) as Hle.
    { unfold zlength. apply inj_le. clear.
      induction (mat_elements mat) as [|e es IH]; cbn [matrix_names List.length];
        [lia|].
      destruct (large_type e =? MFDT_MATRIX); [destruct (large_data e)|];
        cbn [List.length]; lia. }
    rewrite (who_loop_ok _ H 0 []) by (cbn; lia). cbn [bind app].
    rewrite who_push_ok by (cbn [Nat.add]; lia).
    cbn [bind who_tape who_names Nat.add]. unfold who_tape_after.
    destruct (pushes_purge (4 * 8) 8
                (S (List.length (matrix_names (mat_elements mat)))))
      as (purged & -> & _); [lia | lia | lia | reflexivity].
  - rewrite (who_loop_fault _ H 0 []) by (cbn; lia). reflexivity.
Qed.

(** X16: when every matrix element carries an array, [matfile_who] returns
    the names of the matrix elements, in the order of the elements, followed
    by a null pointer; when a matrix element carries none (its array did not
    parse), the call reads through a null pointer.  Its tape never
    overflows. *)
Theorem matfile_who_names (mat : matfile_t) :
  zlength (mat_elements mat) < 2 ^ 56 ->
  (Forall has_array (mat_elements mat) ->
   matfile_who mat = Ok (matrix_names (mat_elements mat) ++ [VarnameNull]))
  /\ (Exists (fun e => ~ has_array e) (mat_elements mat) ->
      matfile_who mat = Fault).
Proof. apply matfile_who_names_aux. Qed.

Lemma matfile_who_names_witness :
  let mat :=
    mk_matfile (mk_header [] 0 256 19785)
      [mk_element MFDT_MATRIX 64 (Array array_a) 0;
       mk_element MFDT_INT8 5
         (Data [x0a; x0b; x0c; x0d; x0e; x00; x00; x00]) 0;
       mk_element MFDT_MATRIX 48
         (Array (mk_array MFMX_CELL_CLASS [1; 1] [x63; x00] 2 1
                          PartUninit PartUninit)) 0] in
  (Forall has_array (mat_elements mat) ->
   matfile_who mat = Ok (matrix_names (mat_elements mat) ++ [VarnameNull]))
  /\ (Exists (fun e => ~ has_array e) (mat_elements mat) ->
      matfile_who mat = Fault).
Proof.
  cbv zeta. apply matfile_who_names. vm_compute. reflexivity.
Defined.

(** ** Files of small and raw elements *)

Lemma load_middle (p q r : list byte) :
  load (bytes_block (p ++ q ++ r)) (zlength p) (zlength q) = Ok q.
Proof.
  rewrite load_bytes_block.
  - unfold zlength. rewrite !Nat2Z.id.
    rewrite skipn_app, skipn_all, Nat.sub_diag. cbn [skipn app].
    rewrite firstn_app, firstn_all, Nat.sub_diag. cbn [firstn].
    rewrite app_nil_r. reflexivity.
  - apply zlength_nonneg.
  - apply zlength_nonneg.
  - rewrite !zlength_app. pose proof (zlength_nonneg r). lia.
Qed.

Lemma advance_past (p q : list byte) :
  advance (bytes_block (p ++ q)) (zlength p) = bytes_block q.
Proof.
  unfold advance, bytes_block, zlength. rewrite Nat2Z.id.
  rewrite map_app, skipn_app, length_map, Nat.sub_diag.
  rewrite skipn_all2 by (rewrite length_map; lia). reflexivity.
Qed.

Lemma parse_step_small (codec : zlib_codec) (data : block)
    (st : parser_state) (tag : list byte) :
  load data (offset st) 8 = Ok tag ->
  matfile_is_small (element_of_tag tag) <> 0 ->
  tape_room (tape st) ->
  parse_step codec data st
  = Ok (mk_state (size_t (offset st + 8))
                 (snd (Tape.tape_push (tape st) 24))
                 (elements st ++ [element_of_tag tag])).
Proof.
  intros Hload Hsmall Hroom.
  unfold tape_room in Hroom. unfold parse_step.
  destruct (Tape.tape_push (tape st) 24) as [p tp]. cbn [fst snd] in *.
  rewrite Hload. cbn [bind]. rewrite Hroom. cbn [negb].
  apply Z.eqb_neq in Hsmall. rewrite Hsmall. reflexivity.
Qed.

Lemma parser_tape_room (k : nat) :
  Z.of_nat k < 2 ^ 56 ->
  tape_room (parser_tape_after k)
  /\ snd (Tape.tape_push (parser_tape_after k) 24) = parser_tape_after (S k).
Proof.
  intros Hk. unfold tape_room, parser_tape_after.
  destruct (pushes_room (16 * 24) 24 k ltac:(lia) ltac:(lia)) as [Heq Hin].
  split; assumption.
Qed.

(** After one element at least, the purge of the parser's tape gives a
    buffer of 24 bytes for each element. *)
Lemma parser_tape_purge (k : nat) :
  (0 < k)%nat -> Z.of_nat k < 2 ^ 56 ->
  exists purged,
    Tape.tape_purge (parser_tape_after k) = Ok purged
    /\ zlength purged = 24 * Z.of_nat k.
Proof.
  intros H0 Hk. unfold parser_tape_after.
  apply (pushes_purge (16 * 24) 24 k); lia.
Qed.

Lemma layout_cons (it : item) (its : list item) :
  layout (it :: its) = fst it ++ snd it ++ layout its.
Proof. unfold layout. cbn [map List.concat]. apply eq_sym, app_assoc. Qed.

Lemma layout_length (its : list item) :
  Forall item_wf its -> 8 * zlength its <= zlength (layout its).
Proof.
  induction 1 as [|it its [H8 _] _ IH].
  - cbn. lia.
  - rewrite layout_cons, !zlength_app.
    pose proof (zlength_nonneg (snd it)).
    unfold zlength in *. cbn [List.length]. lia.
Qed.

Lemma parse_loop_layout (codec : zlib_codec) (its : list item) :
  Forall item_wf its ->
  forall (fuel : nat) (prefix : list byte)
         (done : list matfile_data_element_t) (k : nat),
    (List.length its <= fuel)%nat ->
    Z.of_nat k + zlength its < 2 ^ 56 ->
    zlength prefix + zlength (layout its) < 2 ^ 63 ->
    parse_loop codec fuel (bytes_block (prefix ++ layout its))
               (zlength (prefix ++ layout its))
               (mk_state (zlength prefix) (parser_tape_after k) done)
    = Some (Ok (mk_state (zlength (prefix ++ layout its))
                         (parser_tape_after (k + List.length its))
                         (done ++ map item_element its))).
Proof.
  induction 1 as [|it its Hwf Hall IH]; intros fuel prefix done k Hf Hk Hb.
  - unfold layout. cbn [map List.concat List.length].
    rewrite !app_nil_r, Nat.add_0_r.
    destruct fuel; cbn [parse_loop offset]; rewrite Z.ltb_irrefl; reflexivity.
  - destruct it as [tag body]. destruct Hwf as [H8 Hkind].
    cbn [fst snd] in H8, Hkind. unfold item in *.
    assert (zlength ((tag, body) :: its) = zlength its + 1) as Hl
        by (unfold zlength; cbn [List.length]; lia).
    pose proof (zlength_nonneg its) as Hits.
    pose proof (zlength_nonneg prefix) as Hpre.
    pose proof (zlength_nonneg body) as Hbody.
    pose proof (zlength_nonneg (layout its)) as Hrest.
    rewrite layout_cons in *. cbn [fst snd] in *.
    rewrite !zlength_app in Hb.
    destruct fuel as [|fuel]; [cbn [List.length] in Hf; lia|].
    cbn [List.length] in Hf.
    cbn [parse_loop offset].
    replace (zlength prefix <? zlength (prefix ++ tag ++ body ++ layout its))
      with true by (symmetry; apply Z.ltb_lt; rewrite !zlength_app; lia).
    destruct (parser_tape_room k ltac:(lia)) as [Hroom Htape].
    assert (load (bytes_block (prefix ++ tag ++ body ++ layout its))
                 (zlength prefix) 8 = Ok tag) as Hload
        by (rewrite <- H8; apply load_middle).
    assert (prefix ++ tag ++ body ++ layout its
            = (prefix ++ tag ++ body) ++ layout its) as Hdata
        by (rewrite <- !app_assoc; reflexivity).
    assert (zlength (prefix ++ tag ++ body) + zlength (layout its) < 2 ^ 63)
      as Hb' by (rewrite !zlength_app; lia).
    destruct Hkind as [[Hsmall ->] | (Hsmall & Hvalid & Hc & Hm & Hlen)].
    + rewrite (parse_step_small codec _
                 (mk_state (zlength prefix) (parser_tape_after k) done)
                 tag Hload Hsmall Hroom).
      cbn [offset tape elements]. rewrite Htape.
      rewrite size_t_small by lia.
      replace (zlength prefix + 8) with (zlength (prefix ++ tag ++ []))
        by (rewrite !zlength_app; cbn; lia).
      rewrite Hdata.
      rewrite (IH fuel (prefix ++ tag ++ []) _ (S k)) by (assumption || lia).
      cbn [map List.length].
      assert (item_element (tag, []) = element_of_tag tag) as ->
          by (unfold item_element; cbn [fst snd];
              apply Z.eqb_neq in Hsmall; rewrite Hsmall; reflexivity).
      replace (k + S (List.length its))%nat with (S k + List.length its)%nat
        by lia.
      rewrite <- (app_assoc done). reflexivity.
    + assert (load (advance (bytes_block (prefix ++ tag ++ body ++ layout its))
                            (size_t (zlength prefix + 8))) 0
                   (large_size (element_of_tag tag)
                    + padding_of (large_size (element_of_tag tag)))
              = Ok body) as Hpayload.
      { rewrite size_t_small by lia.
        replace (zlength prefix + 8) with (zlength (prefix ++ tag))
          by (rewrite zlength_app; lia).
        rewrite app_assoc, advance_past, <- Hlen.
        apply (load_middle [] body (layout its)). }
      rewrite (parse_step_raw codec _
                 (mk_state (zlength prefix) (parser_tape_after k) done)
                 tag body Hload Hsmall Hvalid Hc Hm Hroom Hpayload).
      cbn [offset tape elements]. rewrite Htape, <- Hlen.
      rewrite size_t_small by lia.
      replace (zlength prefix + 8 + zlength body)
        with (zlength (prefix ++ tag ++ body))
        by (rewrite !zlength_app; lia).
      rewrite Hdata.
      rewrite (IH fuel (prefix ++ tag ++ body) _ (S k)) by (assumption || lia).
      cbn [map List.length].
      assert (item_element (tag, body)
              = set_data (element_of_tag tag) (Data body)) as ->
          by (unfold item_element; cbn [fst snd]; rewrite Hsmall;
              reflexivity).
      replace (k + S (List.length its))%nat with (S k + List.length its)%nat
        by lia.
      rewrite <- (app_assoc done). reflexivity.
Qed.

(** X17: a buffer that holds one element at least, small elements and large
    elements of raw types (neither compressed nor matrix), each large one
    with its declared bytes padded to eight, parses to these elements in
    their order, a large element carrying its bytes with the padding; the
    whole buffer is consumed, and the purge of the tape succeeds. *)
Theorem parse_layout (codec : zlib_codec) (its : list item) :
  its <> [] ->
  Forall item_wf its ->
  zlength (layout its) < 2 ^ 56 ->
  parse_data_elements codec (bytes_block (layout its)) (zlength (layout its))
  = Some (Ok (map item_element its)).
Proof.
  intros Hne Hwf Hb. unfold parse_data_elements.
  pose proof (layout_length its Hwf) as Hl.
  pose proof (zlength_nonneg its) as Hits.
  pose proof (parse_loop_layout codec its Hwf
                (Z.to_nat (zlength (layout its))) [] [] 0) as H.
  cbn [app] in H.
  change (mk_state (zlength []) (parser_tape_after 0) [])
    with initial_state in H.
  rewrite H.
  - cbn [tape elements Nat.add].
    destruct (parser_tape_purge (List.length its)) as (purged & -> & _).
    + destruct its; [contradiction | cbn [List.length]; lia].
    + unfold zlength in *. lia.
    + reflexivity.
  - unfold zlength in *. lia.
  - cbn. lia.
  - cbn. lia.
Qed.

Lemma parse_layout_witness :
  parse_data_elements stored_codec
    (bytes_block (layout [([x04; x00; x06; x00; x01; x02; x03; x04], []);
                          (firstn 8 five_int8, skipn 8 five_int8)]))
    (zlength (layout [([x04; x00; x06; x00; x01; x02; x03; x04], []);
                      (firstn 8 five_int8, skipn 8 five_int8)]))
  = Some (Ok (map item_element
                  [([x04; x00; x06; x00; x01; x02; x03; x04], []);
                   (firstn 8 five_int8, skipn 8 five_int8)])).
Proof.
  apply (parse_layout stored_codec).
  - discriminate.
  - apply Forall_cons; [| apply Forall_cons; [| apply Forall_nil]].
    + split; [reflexivity|]. left.
      split; [vm_compute; discriminate | reflexivity].
    + split; [reflexivity|]. right.
      split; [reflexivity|]. split; [reflexivity|].
      split; [vm_compute; discriminate|].
      split; [vm_compute; discriminate | reflexivity].
  - vm_compute. reflexivity.
Defined.

Lemma small_is_not_matrix (e : matfile_data_element_t) :
  matfile_is_small e <> 0 -> large_type e <> MFDT_MATRIX.
Proof.
  intros Hs Hm. apply Hs. unfold matfile_is_small, IS_SMALL, small_type.
  rewrite Hm. change (Z.shiftr MFDT_MATRIX 16 =? 0) with true.
  cbn [negb]. rewrite andb_false_r. reflexivity.
Qed.

(** X18: for a buffer of at most 2^58 bytes that parses to elements none of
    which is a matrix with a null array, [matfile_who] applied to the parsed
    elements returns the names of the matrix elements in the order of the
    file, followed by a null pointer. *)
Theorem who_after_parse (codec : zlib_codec) (data : block) (length_ : Z)
    (h : matfile_header_t) (es : list matfile_data_element_t) :
  0 <= length_ <= 2 ^ 58 ->
  parse_data_elements codec data length_ = Some (Ok es) ->
  Forall (fun e => large_type e = MFDT_MATRIX -> large_data e <> DataNull)
         es ->
  matfile_who (mk_matfile h es) = Ok (matrix_names es ++ [VarnameNull]).
Proof.
  intros Hlen Hparse Hnull.
  assert (Forall element_ok es /\ 8 * zlength es < length_ + 8) as [Hok Hn].
  { destruct (parse_data_elements_inv _ _ _ _ Hparse)
      as (st & _ & Hl & <- & _).
    split.
    - apply (parse_loop_elements _ _ _ _ _ _ Hl). constructor.
    - apply (parse_loop_count codec data length_ (Z.to_nat length_)
               initial_state st); try exact Hl;
        unfold initial_state, zlength;
        cbn [offset elements List.length Z.of_nat]; lia. }
  assert (Forall has_array es) as Harr.
  { rewrite Forall_forall in *. intros e Hin Hm.
    specialize (Hok e Hin). specialize (Hnull e Hin Hm).
    destruct Hok as [_ [[Hs _] | (_ & _ & Hd)]].
    - exfalso. apply (small_is_not_matrix e Hs Hm).
    - destruct (large_data e) as [| bytes | array]; try contradiction.
      exists array. reflexivity. }
  destruct (matfile_who_names_aux (mk_matfile h es)) as [H _];
    [cbn [mat_elements]; lia|].
  apply H. exact Harr.
Qed.

Lemma who_after_parse_witness :
  matfile_who
    (mk_matfile (mk_header [] 0 256 19785)
       [mk_element MFDT_MATRIX 64 (Array array_a) 0;
        mk_element MFDT_INT8 5
          (Data [x0a; x0b; x0c; x0d; x0e; x00; x00; x00]) 0])
  = Ok (matrix_names
          [mk_element MFDT_MATRIX 64 (Array array_a) 0;
           mk_element MFDT_INT8 5
             (Data [x0a; x0b; x0c; x0d; x0e; x00; x00; x00]) 0]
        ++ [VarnameNull]).
Proof.
  apply (who_after_parse stored_codec
           (bytes_block (compressed_matrix ++ five_int8)) 107).
  - lia.
  - vm_compute. reflexivity.
  - apply Forall_cons; [| apply Forall_cons; [| apply Forall_nil]];
      intros _; discriminate.
Defined.

(** ** Releasing a file *)

Lemma destroy_element_ok (e : matfile_data_element_t) :
  element_ok e ->
  (~ has_unsupported_array e ->
   exists n, destroy_element e = Ok n /\ 0 <= n)
  /\ (has_unsupported_array e -> destroy_element e = Fault).
Proof.
  intros [_ [[Hs Hd] | (Hs & _ & Hd)]]; unfold destroy_element.
  - rewrite Hd. apply Z.eqb_neq in Hs. rewrite Hs. cbn [negb andb].
    split.
    + intros _. exists 0. split; [reflexivity | lia].
    + intros (array & Ha & _). rewrite Hd in Ha. discriminate.
  - rewrite Hs. cbn [Z.eqb negb andb].
    destruct (large_data e) as [| bytes | array] eqn:Ed.
    + rewrite Hd. change (MFDT_MATRIX =? MFDT_MATRIX) with true.
      cbn [matfile_array_destroy]. split.
      * intros _. exists 0. split; [reflexivity | lia].
      * intros (array & Ha & _). congruence.
    + apply Z.eqb_neq in Hd. rewrite Hd. split.
      * intros _. exists 1. split; [reflexivity | lia].
      * intros (array & Ha & _). congruence.
    + destruct Hd as (Hm & _ & _ & Hparts). rewrite Hm.
      change (MFDT_MATRIX =? MFDT_MATRIX) with true.
      cbn [matfile_array_destroy].
      destruct (unsupported_class (Z.land (flags array) 255)) eqn:Eu.
      * destruct Hparts as [-> ->]. split.
        -- intros Hno. exfalso. apply Hno. exists array. split; auto.
        -- intros _. reflexivity.
      * destruct Hparts as [Hpr Hpi]. split.
        -- intros _.
           destruct (pr array) as [| | real]; try contradiction;
             destruct (pi array) as [| | imag]; try contradiction;
             cbn [release_part bind]; eexists; (split; [reflexivity | lia]).
        -- intros (array' & Ha & Hu).
           assert (array' = array) as -> by congruence.
           rewrite Hu in Eu. discriminate.
Qed.

Lemma destroy_element_not_null (e : matfile_data_element_t) :
  destroy_element e <> Null.
Proof.
  unfold destroy_element, matfile_array_destroy.
  destruct (negb (matfile_is_small e =? 0)
            && match large_data e with DataNull => true | _ => false end);
    [discriminate|].
  destruct (large_type e =? MFDT_MATRIX);
    destruct (large_data e) as [| bytes | array]; try discriminate.
  destruct (pr array); destruct (pi array); discriminate.
Qed.

Lemma destroy_elements_not_null (es : list matfile_data_element_t) :
  destroy_elements es <> Null.
Proof.
  induction es as [|e es IH]; cbn [destroy_elements]; [discriminate|].
  pose proof (destroy_element_not_null e) as He.
  destruct (destroy_element e); cbn [bind]; try discriminate; try contradiction.
  destruct (destroy_elements es); cbn [bind]; try discriminate; contradiction.
Qed.

Lemma destroy_elements_ok (es : list matfile_data_element_t) :
  Forall element_ok es ->
  (Forall (fun e => ~ has_unsupported_array e) es ->
   exists n, destroy_elements es = Ok n /\ 0 <= n)
  /\ (Exists has_unsupported_array es -> destroy_elements es = Fault).
Proof.
  induction 1 as [|e es He _ IH]; cbn [destroy_elements].
  - split; [intros _; exists 0; split; [reflexivity | lia]|].
    intros H. inversion H.
  - destruct (destroy_element_ok e He) as [Hgood Hbad].
    destruct IH as [IHgood IHbad]. split.
    + intros Hall. inversion Hall as [|? ? Hno Hrest]; subst.
      destruct (Hgood Hno) as (n & -> & Hn).
      destruct (IHgood Hrest) as (m & -> & Hm).
      cbn [bind]. exists (n + m). split; [reflexivity | lia].
    + intros Hex. inversion Hex as [? ? Hu | ? ? Hu]; subst.
      * rewrite (Hbad Hu). reflexivity.
      * rewrite (IHbad Hu).
        pose proof (destroy_element_not_null e) as Hnn.
        destruct (destroy_element e); cbn [bind]; try reflexivity.
        contradiction.
Qed.

(** X19: [matfile_destroy] applied to the elements [parse_data_elements]
    returned runs to its end, freeing the element array and the file at
    least, when no element carries an array of an unsupported class; when
    one does, it tests and frees numeric parts that were never assigned. *)
Theorem destroy_after_parse (codec : zlib_codec) (data : block)
    (length_ : Z) (h : matfile_header_t)
    (es : list matfile_data_element_t) :
  parse_data_elements codec data length_ = Some (Ok es) ->
  (Forall (fun e => ~ has_unsupported_array e) es ->
   exists n, matfile_destroy (Some (mk_matfile h es)) = Ok n /\ 2 <= n)
  /\ (Exists has_unsupported_array es ->
      matfile_destroy (Some (mk_matfile h es)) = Fault).
Proof.
  intros Hparse.
  assert (Forall element_ok es) as Hok.
  { destruct (parse_data_elements_inv _ _ _ _ Hparse)
      as (st & _ & Hl & <- & _).
    apply (parse_loop_elements _ _ _ _ _ _ Hl). constructor. }
  destruct (destroy_elements_ok es Hok) as [Hgood Hbad].
  unfold matfile_destroy. cbn [mat_elements]. split.
  - intros Hall. destruct (Hgood Hall) as (n & -> & Hn). cbn [bind].
    exists (n + 1 + 1). split; [reflexivity | lia].
  - intros Hex. rewrite (Hbad Hex). reflexivity.
Qed.

Lemma destroy_after_parse_witness :
  let h := mk_header [] 0 256 19785 in
  let es :=
    [mk_element MFDT_MATRIX 64 (Array array_a) 0;
     mk_element MFDT_INT8 5
       (Data [x0a; x0b; x0c; x0d; x0e; x00; x00; x00]) 0] in
  (Forall (fun e => ~ has_unsupported_array e) es ->
   exists n, matfile_destroy (Some (mk_matfile h es)) = Ok n /\ 2 <= n)
  /\ (Exists has_unsupported_array es ->
      matfile_destroy (Some (mk_matfile h es)) = Fault).
Proof.
  cbv zeta.
  apply (destroy_after_parse stored_codec
           (bytes_block (compressed_matrix ++ five_int8)) 107).
  vm_compute. reflexivity.
Defined.

(** ** Reading a file *)

Lemma byte_val_inj (b : byte) (n : N) (b' : byte) :
  byte_val b = Z.of_N n -> Byte.of_N n = Some b' -> b = b'.
Proof.
  unfold byte_val. intros H Hn. apply N2Z.inj in H.
  rewrite <- H, Byte.of_to_N in Hn. injection Hn as ->. reflexivity.
Qed.

Lemma marker_switch (m0 m1 : byte) :
  (le_bytes [m0; m1] =? 18765) = true <-> m0 = x4d /\ m1 = x49.
Proof.
  rewrite Z.eqb_eq. split.
  - cbn [le_bytes]. intros H.
    pose proof (byte_val_range m0). pose proof (byte_val_range m1).
    split.
    + apply (byte_val_inj m0 77); [lia | reflexivity].
    + apply (byte_val_inj m1 73); [lia | reflexivity].
  - intros [-> ->]. reflexivity.
Qed.

(** X20: for a file of 128 bytes at least whose bytes after the header
    parse, [matfile_read] returns the parsed elements with a header whose
    description is the first 116 bytes and whose marker is the 16-bit value
    of bytes 126 and 127.  When these two bytes are "M", "I" in this order,
    [swap_bytes] is left set and the version is the value of bytes 124 and
    125 taken in the other byte order; otherwise [swap_bytes] is left clear
    and the version is their little-endian value.  The elements are parsed
    in the same way in both cases. *)
Theorem matfile_read_header (codec : zlib_codec) (content : list byte)
    (v0 v1 m0 m1 : byte) (es : list matfile_data_element_t) :
  128 <= zlength content ->
  firstn 4 (skipn 124 content) = [v0; v1; m0; m1] ->
  parse_data_elements codec (bytes_block (skipn 128 content))
                      (zlength content - 128) = Some (Ok es) ->
  exists h flag,
    matfile_read codec (Some content) = Some (Ok (mk_matfile h es, flag))
    /\ description h = firstn 116 content
    /\ endianness h = le_bytes [m0; m1]
    /\ (m0 = x4d /\ m1 = x49 -> flag = 1 /\ version h = le_bytes [v1; v0])
    /\ (~ (m0 = x4d /\ m1 = x49) ->
        flag = 0 /\ version h = le_bytes [v0; v1]).
Proof.
  intros Hlen Hbytes Hparse.
  assert (firstn 2 (skipn 124 (firstn 128 content)) = [v0; v1]) as Hv.
  { rewrite skipn_firstn_comm. cbn [Nat.sub]. rewrite Hbytes. reflexivity. }
  assert (firstn 2 (skipn 126 (firstn 128 content)) = [m0; m1]) as Hm.
  { rewrite skipn_firstn_comm.
    change (firstn (128 - 126) (skipn 126 content))
      with (firstn (4 - 2) (skipn (2 + 124) content)).
    rewrite <- skipn_skipn, <- skipn_firstn_comm, Hbytes. reflexivity. }
  unfold matfile_read, matfile_parse. cbv zeta.
  replace (zlength content <? 128) with false
    by (symmetry; apply Z.ltb_ge; lia).
  change (Z.to_nat 128) with 128%nat. rewrite Hparse.
  eexists. eexists. split; [reflexivity|].
  cbn [set_version header_of_bytes description endianness version].
  rewrite Hv, Hm.
  split; [apply firstn_firstn|]. split; [reflexivity|].
  pose proof (marker_switch m0 m1) as Hsw.
  destruct (le_bytes [m0; m1] =? 18765); cbn [Z.b2z].
  - split.
    + intros _. split; [reflexivity|]. apply swap2_bytes. discriminate.
    + intros Hno. exfalso. apply Hno. apply Hsw. reflexivity.
  - split.
    + intros Hyes. apply Hsw in Hyes. discriminate.
    + intros _. split; reflexivity.
Qed.

Lemma matfile_read_header_witness :
  exists h flag,
    matfile_read stored_codec (Some big_endian_file)
    = Some (Ok (mk_matfile h
                  [mk_element MFDT_INT8 5
                     (Data [x0a; x0b; x0c; x0d; x0e; x00; x00; x00]) 0],
                flag))
    /\ description h = firstn 116 big_endian_file
    /\ endianness h = le_bytes [x4d; x49]
    /\ (x4d = x4d /\ x49 = x49 -> flag = 1 /\ version h = le_bytes [x00; x01])
    /\ (~ (x4d = x4d /\ x49 = x49) ->
        flag = 0 /\ version h = le_bytes [x01; x00]).
Proof.
  apply (matfile_read_header stored_codec big_endian_file x01 x00 x4d x49).
  - vm_compute. discriminate.
  - reflexivity.
  - vm_compute. reflexivity.
Defined.

(** ** The decompression adapter: what it returns *)

Lemma lor_128 (a : Z) :
  0 <= a < 2 ^ 32 -> 128 <= Z.lor a 128 < 2 ^ 32.
Proof.
  intros Ha.
  assert (0 <= Z.lor a 128) as Hn by (apply Z.lor_nonneg; lia).
  assert (128 <= Z.lor a 128) as Hl.
  { pose proof (Z.sub_lor_l_same_r a 128) as H.
    assert (0 <= Z.land a (Z.lnot 128)) by (apply Z.land_nonneg; lia).
    lia. }
  split; [exact Hl|].
  apply Z.log2_lt_pow2; [lia|].
  rewrite Z.log2_lor by lia.
  change (Z.log2 128) with 7.
  destruct (Z.eq_dec a 0) as [->|Hz]; [cbn; lia|].
  assert (Z.log2 a < 32) by (apply Z.log2_lt_pow2; lia).
  lia.
Qed.

Lemma cells_middle (p q r : list cell) :
  cells (p ++ q ++ r) (zlength p) (zlength q) = Ok q.
Proof.
  unfold cells, in_bounds. rewrite !zlength_app.
  pose proof (zlength_nonneg p). pose proof (zlength_nonneg q).
  pose proof (zlength_nonneg r).
  replace ((0 <=? zlength p) && (0 <=? zlength q)
           && (zlength p + zlength q <=? zlength p + (zlength q + zlength r)))
    with true by (symmetry; rewrite !andb_true_iff, !Z.leb_le; lia).
  unfold zlength. rewrite !Nat2Z.id.
  rewrite skipn_app, skipn_all, Nat.sub_diag. cbn [skipn app].
  rewrite firstn_app, firstn_all, Nat.sub_diag. cbn [firstn].
  rewrite app_nil_r. reflexivity.
Qed.

Lemma load_cells_middle (p r : list cell) (q : list byte) :
  load (p ++ bytes_block q ++ r) (zlength p) (zlength q) = Ok q.
Proof.
  unfold load. rewrite <- (zlength_bytes_block q), cells_middle. cbn [bind].
  unfold bytes_block. rewrite initialised_bytes. reflexivity.
Qed.

Lemma tape_purge_prefix (p t : list cell) (n M : Z) :
  0 < n -> zlength p = n -> zlength (p ++ t) = M ->
  Tape.tape_purge (Tape.mk_tape (p ++ t) n M) = Ok p.
Proof.
  intros Hn Hp Hm. unfold Tape.tape_purge.
  cbn [Tape.cur_length Tape.max_length Tape.elems].
  rewrite zlength_app in Hm. pose proof (zlength_nonneg t) as Ht.
  replace (n =? 0) with false by (symmetry; apply Z.eqb_neq; lia).
  destruct (n <? M) eqn:E; f_equal.
  - unfold realloc. subst n. unfold zlength. rewrite Nat2Z.id.
    rewrite firstn_app, firstn_all, Nat.sub_diag. cbn [firstn].
    rewrite length_app.
    replace (List.length p - (List.length p + List.length t))%nat with 0%nat
      by lia.
    cbn [repeat]. rewrite !app_nil_r. reflexivity.
  - apply Z.ltb_ge in E. assert (zlength t = 0) as Hz by lia.
    destruct t as [|c t]; [apply app_nil_r|].
    unfold zlength in Hz. cbn [List.length] in Hz. lia.
Qed.

Lemma tape_push_within (m : block) (cur max size : Z) :
  0 <= cur + size <= max -> max < 2 ^ 64 ->
  Tape.tape_push (Tape.mk_tape m cur max) size
  = (cur, Tape.mk_tape m (cur + size) max).
Proof.
  intros H Hm. unfold Tape.tape_push.
  cbn [Tape.cur_length Tape.max_length Tape.elems].
  rewrite (size_t_small (cur + size)) by lia.
  destruct (cur + size >? max) eqn:E.
  - apply Z.gtb_lt in E. lia.
  - cbn [Tape.cur_length Tape.max_length Tape.elems].
    rewrite (size_t_small (cur + size)) by lia. reflexivity.
Qed.

Lemma tape_push_doubles (m : block) (cur max size : Z) :
  max < cur + size < 2 ^ 64 -> 0 <= max < 2 ^ 63 ->
  Tape.tape_push (Tape.mk_tape m cur max) size
  = (cur, Tape.mk_tape (realloc m (2 * max)) (cur + size) (2 * max)).
Proof.
  intros H Hm. unfold Tape.tape_push.
  cbn [Tape.cur_length Tape.max_length Tape.elems].
  rewrite (size_t_small (cur + size)) by lia.
  destruct (cur + size >? max) eqn:E.
  - cbn [Tape.cur_length Tape.max_length Tape.elems].
    rewrite (size_t_small (max * 2)) by lia.
    rewrite (size_t_small (cur + size)) by lia.
    replace (max * 2) with (2 * max) by lia. reflexivity.
  - rewrite Z.gtb_ltb in E. apply Z.ltb_ge in E. lia.
Qed.

(** X21: the two calls of [inflate] in [decompress_data_element].  When the
    first call delivers the eight bytes of an inner tag of a type of 1..18
    followed by [body], the second call, asked for the bytes of the declared
    inner size that are still missing, delivers exactly those as [rest], the
    declared size is not zero (the purge of an empty tape fails) and at most
    twice the buffer size (one doubling of the tape), no call reports an
    error and the codec has taken its whole input, then the function returns
    the element with the inner type and size and a buffer that holds [body]
    followed by [rest], and nothing else. *)
Theorem decompress_inflates (codec : zlib_codec)
    (e : matfile_data_element_t) (src : block)
    (code0 code1 code2 : Z) (s0 s1 s2 : z_stream codec)
    (ty sz body rest : list byte) :
  let buffer_size := Z.lor (large_size e) 128 in
  0 <= large_size e < 2 ^ 32 ->
  inflateInit codec src (large_size e) = (code0, s0) ->
  inflate codec s0 buffer_size = Ok (code1, ty ++ sz ++ body, s1) ->
  inflate codec s1 (zlength rest) = Ok (code2, rest, s2) ->
  0 <= code0 -> 0 <= code1 -> 0 <= code2 ->
  zlength ty = 4 -> zlength sz = 4 -> 8 + zlength body <= buffer_size ->
  valid_data_type (le_bytes ty) = true ->
  zlength body + zlength rest = le_bytes sz ->
  0 < le_bytes sz <= 2 * buffer_size ->
  avail_in codec s2 = 0 -> inflateEnd codec s2 = Z_OK ->
  decompress_data_element codec e src
  = Ok (set_type_size e (le_bytes ty) (le_bytes sz),
        bytes_block (body ++ rest)).
Proof.
  intros B Hsize Hinit H1 H2 Hc0 Hc1 Hc2 Hty Hsz Hfit Hvalid Hn Hcap Hin Hend.
  pose proof (lor_128 _ Hsize) as HB. fold B in HB.
  pose proof (zlength_nonneg body) as Hb0.
  pose proof (zlength_nonneg rest) as Hr0.
  assert (2 ^ 32 < 2 ^ 63 /\ 2 ^ 63 < 2 ^ 64) as [Hp1 Hp2] by (split; reflexivity).
  unfold decompress_data_element. fold B.
  unfold Tape.tape_create.
  rewrite (tape_push_within (malloc B) 0 B 8) by lia.
  rewrite (size_t_small (B - 8)) by lia.
  rewrite (tape_push_within (malloc B) (0 + 8) B (B - 8)) by lia.
  rewrite Hinit.
  replace (code0 <? Z_OK) with false by (symmetry; apply Z.ltb_ge; exact Hc0).
  rewrite H1. cbn [bind Tape.elems].
  assert (zlength (ty ++ sz ++ body) = 8 + zlength body) as Hlen
    by (rewrite !zlength_app; lia).
  rewrite store_head by (rewrite zlength_malloc; lia).
  cbn [bind]. unfold set_elems. cbn [Tape.elems Tape.cur_length Tape.max_length].
  replace (code1 <? Z_OK) with false by (symmetry; apply Z.ltb_ge; exact Hc1).
  set (pad := skipn (List.length (ty ++ sz ++ body)) (malloc B)).
  assert (zlength pad = B - 8 - zlength body) as Hpad.
  { unfold pad. rewrite zlength_skipn.
    - rewrite zlength_malloc by lia. fold (zlength (ty ++ sz ++ body)). lia.
    - apply Nat2Z.inj_le. fold (zlength (ty ++ sz ++ body)).
      fold (zlength (malloc B)). rewrite zlength_malloc; lia. }
  rewrite !bytes_block_app, <- !app_assoc.
  set (m1 := bytes_block ty ++ bytes_block sz ++ bytes_block body ++ pad).
  assert (load m1 0 4 = Ok ty) as L1.
  { pose proof (load_cells_middle [] (bytes_block sz ++ bytes_block body ++ pad)
                  ty) as L.
    rewrite Hty in L. exact L. }
  assert (load m1 4 4 = Ok sz) as L2.
  { pose proof (load_cells_middle (bytes_block ty) (bytes_block body ++ pad) sz)
      as L.
    rewrite zlength_bytes_block, Hty, Hsz in L. exact L. }
  unfold load_u32. change (0 + 4) with 4. rewrite L1, L2. cbn [bind].
  rewrite Hvalid. cbn [negb].
  cbn [set_type_size large_size]. rewrite Hlen.
  assert (uint32_t (B - (8 + zlength body)) = B - (8 + zlength body)) as ->
    by (unfold uint32_t, wrap; apply Z.mod_small; lia).
  replace (B - 8 - (B - (8 + zlength body))) with (zlength body) by lia.
  rewrite (size_t_small (zlength body)) by lia.
  replace (le_bytes sz - zlength body) with (zlength rest) by lia.
  rewrite (size_t_small (zlength rest)) by lia.
  assert (uint32_t (zlength rest) = zlength rest) as ->.
  { unfold uint32_t, wrap. apply Z.mod_small.
    pose proof (le_bytes_range sz) as Hr. rewrite Hsz in Hr. lia. }
  rewrite H2. cbn [bind].
  replace (code2 <? Z_OK) with false by (symmetry; apply Z.ltb_ge; exact Hc2).
  rewrite Hin, Hend. cbn [Z.eqb negb].
  (* the memmove *)
  assert (memmove m1 0 (0 + 8) (zlength body)
          = Ok (bytes_block body ++ skipn (List.length body) m1)) as ->.
  { unfold memmove.
    pose proof (cells_middle (bytes_block ty ++ bytes_block sz)
                  (bytes_block body) pad) as C.
    rewrite zlength_app, !zlength_bytes_block, Hty, Hsz, <- app_assoc in C.
    fold m1 in C. change (0 + 8) with (4 + 4). rewrite C. cbn [bind].
    apply (store_head m1 body).
    unfold m1. rewrite !zlength_app, !zlength_bytes_block. lia. }
  cbn [bind]. change (Z_OK =? Z_OK) with true. cbn [negb].
  set (t2 := skipn (List.length body) m1).
  assert (zlength t2 = B - zlength body) as Ht2.
  { unfold t2. rewrite zlength_skipn.
    - unfold m1. rewrite !zlength_app, !zlength_bytes_block.
      fold (zlength body). lia.
    - unfold m1. rewrite !length_app. unfold bytes_block.
      rewrite !length_map. lia. }
  unfold Tape.tape_pop. cbn [Tape.elems Tape.cur_length Tape.max_length].
  replace (0 + 8 + (B - 8) >? B) with false
    by (symmetry; rewrite Z.gtb_ltb; apply Z.ltb_ge; lia).
  rewrite (tape_push_within _ 0 B (zlength body)) by lia. cbn [snd].
  pose proof (zlength_bytes_block body) as Hbb.
  pose proof (zlength_bytes_block rest) as Hrr.
  destruct (Z_le_gt_dec (le_bytes sz) B) as [Hle | Hgt].
  - rewrite (tape_push_within _ (0 + zlength body) B (zlength rest)) by lia.
    cbn [Tape.elems Tape.cur_length Tape.max_length].
    change (0 + zlength body) with (zlength body).
    unfold store. rewrite <- Hbb at 1.
    rewrite store_cells_at
      by (fold (bytes_block rest); rewrite Hrr; lia).
    cbn [bind]. fold (bytes_block rest). rewrite app_assoc.
    rewrite (tape_purge_prefix _ _ (zlength body + zlength rest));
      [reflexivity | lia | |].
    + rewrite zlength_app. lia.
    + rewrite !zlength_app, zlength_skipn.
      * unfold bytes_block at 3. rewrite length_map. fold (zlength rest). lia.
      * unfold bytes_block. rewrite length_map. apply Nat2Z.inj_le.
        fold (zlength rest). fold (zlength t2). lia.
  - rewrite (tape_push_doubles _ (0 + zlength body) B (zlength rest)) by lia.
    cbn [Tape.elems Tape.cur_length Tape.max_length].
    change (0 + zlength body) with (zlength body).
    assert (realloc (bytes_block body ++ t2) (2 * B)
            = bytes_block body ++ t2 ++ repeat None (Z.to_nat B)) as ->.
    { assert (List.length (bytes_block body ++ t2) = Z.to_nat B) as Hl.
      { apply Nat2Z.inj. fold (zlength (bytes_block body ++ t2)).
        rewrite zlength_app. lia. }
      unfold realloc. rewrite firstn_all2, <- app_assoc by lia.
      do 3 f_equal. lia. }
    unfold store. rewrite <- Hbb at 1.
    assert (zlength (t2 ++ repeat None (Z.to_nat B)) = 2 * B - zlength body)
      as Ht3.
    { rewrite zlength_app. unfold zlength at 2. rewrite repeat_length. lia. }
    rewrite store_cells_at
      by (fold (bytes_block rest); rewrite Hrr; lia).
    cbn [bind]. fold (bytes_block rest). rewrite app_assoc.
    rewrite (tape_purge_prefix _ _ (zlength body + zlength rest));
      [reflexivity | lia | |].
    + rewrite zlength_app. lia.
    + rewrite !zlength_app, zlength_skipn.
      * unfold bytes_block at 3. rewrite length_map. fold (zlength rest).
        lia.
      * unfold bytes_block. rewrite length_map. apply Nat2Z.inj_le.
        fold (zlength rest). fold (zlength (t2 ++ repeat None (Z.to_nat B))).
        lia.
Qed.

Lemma decompress_inflates_witness :
  decompress_data_element fixed_codec
    (element_of_tag (firstn 8 compressed_run))
    (advance (bytes_block compressed_run) 8)
  = Ok (set_type_size (element_of_tag (firstn 8 compressed_run))
          (le_bytes [x01; x00; x00; x00]) (le_bytes [xc8; x00; x00; x00]),
        bytes_block (firstn 144 run_payload ++ skipn 144 run_payload)).
Proof.
  apply (decompress_inflates fixed_codec
           (element_of_tag (firstn 8 compressed_run))
           (advance (bytes_block compressed_run) 8)
           Z_OK Z_OK Z_STREAM_END
           (mk_stored (advance (bytes_block compressed_run) 8) 24 0 24)
           (mk_stored (advance (bytes_block compressed_run) 8) 24 152 24)
           (mk_stored (advance (bytes_block compressed_run) 8) 24 208 0)
           [x01; x00; x00; x00] [xc8; x00; x00; x00]
           (firstn 144 run_payload) (skipn 144 run_payload)).
  - vm_compute. split; [discriminate | reflexivity].
  - reflexivity.
  - vm_compute. reflexivity.
  - vm_compute. reflexivity.
  - vm_compute. discriminate.
  - vm_compute. discriminate.
  - vm_compute. discriminate.
  - reflexivity.
  - reflexivity.
  - vm_compute. discriminate.
  - reflexivity.
  - reflexivity.
  - vm_compute. split; [reflexivity | discriminate].
  - reflexivity.
  - reflexivity.
Defined.

(** ** The decompression adapter: what its success tells *)

Lemma initialised_cells (c : list cell) (l : list byte) :
  initialised c = Some l -> c = bytes_block l.
Proof.
  revert l. induction c as [|[b|] c IH]; cbn [initialised]; intros l H.
  - injection H as <-. reflexivity.
  - destruct (initialised c) as [r|]; [|discriminate].
    injection H as <-. cbn [bytes_block map]. f_equal. apply IH. reflexivity.
  - discriminate.
Qed.

(** A load from a buffer whose cells after the bytes [out] are
    uninitialised reads bytes of [out] only. *)
Lemma load_written (out : list byte) (k : nat) (off n : Z) (l : list byte) :
  0 < n ->
  load (bytes_block out ++ repeat None k) off n = Ok l ->
  off + n <= zlength out
  /\ l = firstn (Z.to_nat n) (skipn (Z.to_nat off) out).
Proof.
  intros Hn H. unfold load, cells in H.
  destruct (in_bounds _ off n) eqn:Hb; cbn [bind] in H; [|discriminate].
  unfold in_bounds in Hb. rewrite !andb_true_iff, !Z.leb_le in Hb.
  destruct Hb as [[Ho _] Hfit].
  rewrite zlength_app, zlength_bytes_block in Hfit.
  destruct (initialised _) as [l'|] eqn:Hi; [|discriminate].
  injection H as <-. apply initialised_cells in Hi.
  destruct (Z_le_gt_dec (off + n) (zlength out)) as [Hle | Hgt].
  - split; [exact Hle|].
    rewrite skipn_app, firstn_app in Hi.
    assert (Z.to_nat off - List.length (bytes_block out) = 0)%nat as E1
        by (unfold bytes_block; rewrite length_map; unfold zlength in Hle; lia).
    rewrite E1 in Hi. cbn [skipn] in Hi.
    assert (Z.to_nat n - List.length (skipn (Z.to_nat off) (bytes_block out))
            = 0)%nat as E2.
    { rewrite length_skipn. unfold bytes_block. rewrite length_map.
      unfold zlength in Hle. lia. }
    rewrite E2 in Hi. cbn [firstn] in Hi. rewrite app_nil_r in Hi.
    unfold bytes_block in Hi. rewrite skipn_map, firstn_map in Hi.
    apply (f_equal initialised) in Hi. rewrite !initialised_bytes in Hi.
    injection Hi as Hi. symmetry. exact Hi.
  - exfalso.
    assert (In None (firstn (Z.to_nat n)
                       (skipn (Z.to_nat off)
                          (bytes_block out ++ repeat None k)))) as Hin.
    { assert (exists j, (j < Z.to_nat n)%nat
                        /\ nth_error (skipn (Z.to_nat off)
                                        (bytes_block out ++ repeat None k)) j
                           = Some None) as (j & Hj & Hnth).
      { exists (Z.to_nat (Z.max 0 (zlength out - off))). split; [lia|].
        rewrite nth_error_skipn.
        rewrite nth_error_app2
          by (unfold bytes_block; rewrite length_map; unfold zlength; lia).
        apply nth_error_repeat.
        unfold bytes_block. rewrite length_map.
        unfold zlength in *. rewrite repeat_length in Hfit. lia. }
      apply (nth_error_In _ j). rewrite nth_error_firstn.
      destruct (Nat.ltb_spec j (Z.to_nat n)); [exact Hnth | lia]. }
    rewrite Hi in Hin. unfold bytes_block in Hin.
    apply in_map_iff in Hin. destruct Hin as (b & Hb & _). discriminate.
Qed.

Lemma skipn_malloc (n : nat) (size : Z) :
  skipn n (malloc size) = repeat None (Z.to_nat size - n).
Proof.
  unfold malloc. destruct (Nat.le_gt_cases n (Z.to_nat size)) as [H | H].
  - replace (Z.to_nat size) with (n + (Z.to_nat size - n))%nat at 1 by lia.
    rewrite repeat_app, skipn_app, repeat_length, Nat.sub_diag.
    rewrite skipn_all2 by (rewrite repeat_length; lia). reflexivity.
  - rewrite skipn_all2 by (rewrite repeat_length; lia).
    replace (Z.to_nat size - n)%nat with 0%nat by lia. reflexivity.
Qed.

Lemma store_malloc (size : Z) (l : list byte) (m : block) :
  0 <= size ->
  store (malloc size) 0 l = Ok m ->
  zlength l <= size
  /\ m = bytes_block l ++ repeat None (Z.to_nat size - List.length l).
Proof.
  intros Hs H.
  assert (zlength l <= size) as Hl.
  { unfold store, store_cells, in_bounds in H.
    change (map Some l) with (bytes_block l) in H.
    rewrite zlength_bytes_block, zlength_malloc in H by exact Hs.
    destruct (0 + zlength l <=? size) eqn:E.
    - apply Z.leb_le in E. lia.
    - rewrite andb_false_r in H. discriminate. }
  split; [exact Hl|].
  rewrite store_head in H by (rewrite zlength_malloc; lia).
  injection H as <-. rewrite skipn_malloc. reflexivity.
Qed.

(** X11: what a successful call of [decompress_data_element] on an element
    of a 32-bit size tells.  The stream was initialised on the payload with
    the declared size as its input count; the first call of [inflate], with
    the buffer of [size | 0x80] bytes as its output, returned no error and
    delivered eight bytes at least; the element has the type and the size
    these eight bytes hold, a type of 1..18 and a size that is not zero, and
    its [noelements] is untouched; the second call of [inflate], asked for
    the bytes of that size that the first call did not deliver, returned no
    error and left no input, and [inflateEnd] returned [Z_OK]. *)
Theorem decompress_result (codec : zlib_codec)
    (e e' : matfile_data_element_t) (src inflated : block) :
  0 <= large_size e < 2 ^ 32 ->
  decompress_data_element codec e src = Ok (e', inflated) ->
  let buffer_size := Z.lor (large_size e) 128 in
  exists code1 out1 stream1 code2 out2 stream2,
    0 <= fst (inflateInit codec src (large_size e))
    /\ inflate codec (snd (inflateInit codec src (large_size e))) buffer_size
       = Ok (code1, out1, stream1)
    /\ 0 <= code1
    /\ 8 <= zlength out1 <= buffer_size
    /\ large_type e' = le_bytes (firstn 4 out1)
    /\ valid_data_type (large_type e') = true
    /\ large_size e' = le_bytes (firstn 4 (skipn 4 out1))
    /\ 0 < large_size e'
    /\ large_noelements e' = large_noelements e
    /\ inflate codec stream1
         (uint32_t (size_t (large_size e' - (zlength out1 - 8))))
       = Ok (code2, out2, stream2)
    /\ 0 <= code2
    /\ avail_in codec stream2 = 0
    /\ inflateEnd codec stream2 = Z_OK.
Proof.
  intros Hsize H B.
  pose proof (lor_128 _ Hsize) as HB. fold B in HB.
  assert (2 ^ 32 < 2 ^ 63 /\ 2 ^ 63 < 2 ^ 64) as [Hp1 Hp2]
      by (split; reflexivity).
  unfold decompress_data_element in H. fold B in H.
  unfold Tape.tape_create in H.
  rewrite (tape_push_within (malloc B) 0 B 8) in H by lia.
  rewrite (size_t_small (B - 8)) in H by lia.
  rewrite (tape_push_within (malloc B) (0 + 8) B (B - 8)) in H by lia.
  destruct (inflateInit codec src (large_size e)) as [code0 s0].
  cbn [fst snd].
  destruct (code0 <? Z_OK) eqn:E0; [discriminate|]. apply Z.ltb_ge in E0.
  destruct (inflate codec s0 B) as [[[code1 out1] s1]| |] eqn:H1;
    cbn [bind Tape.elems] in H; try discriminate.
  destruct (store (malloc B) 0 out1) as [m1| |] eqn:Hst; cbn [bind] in H;
    try discriminate.
  apply store_malloc in Hst; [|lia]. destruct Hst as [Hfit ->].
  unfold set_elems in H. cbn [Tape.elems Tape.cur_length Tape.max_length] in H.
  destruct (code1 <? Z_OK) eqn:E1; [discriminate|]. apply Z.ltb_ge in E1.
  unfold load_u32 in H. change (0 + 4) with 4 in H.
  destruct (load _ 0 4) as [ty| |] eqn:L1; cbn [bind] in H; try discriminate.
  destruct (valid_data_type (le_bytes ty)) eqn:Hvalid; cbn [negb] in H;
    [|discriminate].
  destruct (load _ 4 4) as [sz| |] eqn:L2; cbn [bind] in H; try discriminate.
  apply load_written in L1; [|lia]. apply load_written in L2; [|lia].
  destruct L1 as [_ ->]. destruct L2 as [H8 ->].
  change (Z.to_nat 0) with 0%nat in *. change (Z.to_nat 4) with 4%nat in *.
  cbn [skipn] in *.
  set (n := le_bytes (firstn 4 (skipn 4 out1))) in *.
  assert (0 <= n < 2 ^ 32) as Hn.
  { pose proof (le_bytes_range (firstn 4 (skipn 4 out1))) as Hr.
    assert (zlength (firstn 4 (skipn 4 out1)) <= 4) as Hl4
        by (unfold zlength; rewrite length_firstn; lia).
    pose proof (zlength_nonneg (firstn 4 (skipn 4 out1))).
    assert (256 ^ zlength (firstn 4 (skipn 4 out1)) <= 256 ^ 4)
      by (apply Z.pow_le_mono_r; lia).
    change (256 ^ 4) with (2 ^ 32) in *. fold n in Hr. lia. }
  cbn [set_type_size large_size] in H.
  assert (uint32_t (B - zlength out1) = B - zlength out1) as Hao
      by (unfold uint32_t, wrap; apply Z.mod_small; lia).
  rewrite Hao in H.
  replace (B - 8 - (B - zlength out1)) with (zlength out1 - 8) in H by lia.
  rewrite (size_t_small (zlength out1 - 8)) in H by lia.
  destruct (memmove _ 0 (0 + 8) _) as [m2| |]; cbn [bind] in H;
    try discriminate.
  unfold Tape.tape_pop in H.
  cbn [Tape.elems Tape.cur_length Tape.max_length] in H.
  replace (0 + 8 + (B - 8) >? B) with false in H
    by (symmetry; rewrite Z.gtb_ltb; apply Z.ltb_ge; lia).
  rewrite (tape_push_within _ 0 B (zlength out1 - 8)) in H by lia.
  cbn [snd] in H.
  set (t2 := Tape.mk_tape m2 (0 + (zlength out1 - 8)) B) in H.
  pose proof (tape_push_used t2 (size_t (n - (zlength out1 - 8)))) as [_ Hu].
  pose proof (tape_push_capacity t2 (size_t (n - (zlength out1 - 8)))) as Hc.
  cbv zeta in Hc.
  destruct (Tape.tape_push t2 _) as [next_out t3]. cbn [snd] in Hu, Hc.
  cbn [t2 Tape.cur_length Tape.max_length] in Hu, Hc.
  assert (Tape.cur_length t3 = n) as Hcur.
  { rewrite Hu. unfold size_t, wrap. rewrite Zplus_mod_idemp_r.
    replace (0 + (zlength out1 - 8) + (n - (zlength out1 - 8))) with n by lia.
    apply Z.mod_small. lia. }
  assert (128 <= Tape.max_length t3) as Hmax.
  { destruct Hc as [(_ & -> & _) | (_ & -> & _)]; [lia|].
    rewrite size_t_small; lia. }
  destruct (inflate codec s1 _) as [[[code2 out2] s2]| |] eqn:H2;
    cbn [bind] in H; try discriminate.
  destruct (store _ next_out out2) as [m3| |]; cbn [bind] in H;
    try discriminate.
  destruct (code2 <? Z_OK) eqn:E2; [discriminate|]. apply Z.ltb_ge in E2.
  destruct (avail_in codec s2 =? 0) eqn:Hin; cbn [negb] in H; [|discriminate].
  destruct (inflateEnd codec s2 =? Z_OK) eqn:Hend; cbn [negb] in H;
    [|discriminate].
  apply Z.eqb_eq in Hin, Hend.
  assert (0 < n) as Hpos.
  { destruct (Z.eq_dec n 0) as [Hz | Hz]; [|lia]. exfalso.
    rewrite (tape_purge_empty _) in H; [discriminate | | ];
      cbn [Tape.cur_length Tape.max_length]; lia. }
  destruct (Tape.tape_purge _) as [purged| |]; cbn [bind] in H;
    try discriminate.
  injection H as <- <-.
  cbn [large_type large_size large_noelements].
  exists code1, out1, s1, code2, out2, s2.
  repeat (split; [first [assumption | reflexivity | lia]|]). exact Hend.
Qed.

Lemma decompress_result_witness :
  let e := element_of_tag (firstn 8 compressed_run) in
  let src := advance (bytes_block compressed_run) 8 in
  let e' := mk_element MFDT_INT8 200 DataNull 0 in
  let buffer_size := Z.lor (large_size e) 128 in
  exists code1 out1 stream1 code2 out2 stream2,
    0 <= fst (inflateInit fixed_codec src (large_size e))
    /\ inflate fixed_codec (snd (inflateInit fixed_codec src (large_size e)))
         buffer_size
       = Ok (code1, out1, stream1)
    /\ 0 <= code1
    /\ 8 <= zlength out1 <= buffer_size
    /\ large_type e' = le_bytes (firstn 4 out1)
    /\ valid_data_type (large_type e') = true
    /\ large_size e' = le_bytes (firstn 4 (skipn 4 out1))
    /\ 0 < large_size e'
    /\ large_noelements e' = large_noelements e
    /\ inflate fixed_codec stream1
         (uint32_t (size_t (large_size e' - (zlength out1 - 8))))
       = Ok (code2, out2, stream2)
    /\ 0 <= code2
    /\ avail_in fixed_codec stream2 = 0
    /\ inflateEnd fixed_codec stream2 = Z_OK.
Proof.
  cbv zeta.
  apply (decompress_result fixed_codec
           (element_of_tag (firstn 8 compressed_run))
           (mk_element MFDT_INT8 200 DataNull 0)
           (advance (bytes_block compressed_run) 8)
           (bytes_block run_payload)).
  - vm_compute. split; [discriminate | reflexivity].
  - vm_compute. reflexivity.
Defined.
